(** * OnSpotX location discovery: a shallow embedding and its properties

    The development follows the TypeScript sources

    - [src/common/interfaces/location.interface.ts]  (data model),
    - [src/common/utils/distance.util.ts]            (class [DistanceUtil]),
    - [src/discovery/services/mock-data.service.ts]  (class [MockDataService]),
    - [src/discovery/services/discovery.service.ts]  (class [DiscoveryService]),
    - [src/discovery/controllers/discovery.controller.ts]
                                                     (class [DiscoveryController]).

    Modelling conventions.

    - A JavaScript [number] is either [NaN] or a real number: arithmetic is
      exact (the rounding error of binary64 and the infinities are not
      modelled), while [NaN], which the code tests for explicitly and which
      decides truthiness, is kept.  In binary64 the haversine term of two
      nearly antipodal points can exceed 1 by a rounding error, and the
      distance is then [NaN]; a distance can also fall on the other side of
      a rounding boundary and differ by 0.01.  The general statements
      about distances below are therefore about the equality of two values,
      about bounds and about order, which hold either way; the distances of
      concrete points that are stated (0, 1.11, 20015.09) are not near a
      rounding boundary.  An optional field ([radius?: number]) is an
      [option]; [None] is [undefined].
    - A string is kept as the bytes of its UTF-8 encoding, and
      [toLowerCase] is the conversion of the Unicode Character Database by
      code point.
    - Objects live in a store.  A [Place] object and an array of [Place]
      references are store cells, named by their location, so that copying
      an array ([[...xs]], [filter], [slice]) shares the objects it holds,
      an object spread ([{...place, k: v}]) allocates a new object, and
      [sort] writes the array it is called on.  A [Location] is kept inside
      its [Place] as a value: no method writes to one.
    - Methods are computations in a state-and-exception monad over the
      store, the logger output and the clock.  An [async] method is run to
      completion: each has a single [await], on a call that does not
      suspend.
    - [Array.prototype.sort] is stable; it is modelled by the stable
      insertion sort, whose result is the one any stable sort gives for a
      consistent comparator.
    - A handler of the controller ends with the value it returns or with
      the [HttpException] it throws.  The conversions of numbers and objects
      to text inside template literals are parameters of the handler that
      inspects a message. *)

From Stdlib Require Import Reals Lra Lia ZArith List String Ascii Bool Sorted.
From Stdlib Require Import NArith Permutation.
From stdpp Require Import base list.
Import ListNotations.

Set Default Goal Selector "!".

(** ** JavaScript numbers *)

Inductive number : Type :=
| NaN
| Num (r : R).

Definition isNaN (x : number) : bool :=
  match x with NaN => true | Num _ => false end.

(** [Boolean(x)]: a number is falsy when it is [0] or [NaN]. *)
Definition truthy (x : number) : bool :=
  match x with
  | NaN => false
  | Num r => if Req_dec_T r 0 then false else true
  end.

(** ** Strings and [String.prototype.toLowerCase] *)

(** A JavaScript string is kept as the bytes of its UTF-8 encoding, so that
    [===] on strings is [String.eqb].  [toLowerCase] converts by code point,
    with the case mappings of the Unicode Character Database that do not
    depend on a locale (version 14.0): the lower-case mappings of
    [UnicodeData.txt], and from [SpecialCasing.txt] the mapping of U+0130 to
    two code points and the final form of the capital sigma. *)
Module Unicode.

Local Open Scope N_scope.

(** A code point, or a byte that is not part of a well-formed sequence
    (which no JavaScript string gives) and is left as it is. *)
Inductive item : Type :=
| Point (cp : N)
| Raw (b : ascii).

Definition continuation (c : ascii) : option N :=
  let b := N_of_ascii c in
  if (0x80 <=? b) && (b <=? 0xBF) then Some (b - 0x80) else None.

Fixpoint decode (s : string) : list item :=
  match s with
  | EmptyString => []
  | String c1 s1 =>
      let b1 := N_of_ascii c1 in
      if b1 <? 0x80 then Point b1 :: decode s1
      else
        match s1 with
        | String c2 s2 =>
            match continuation c2 with
            | Some x2 =>
                if (0xC2 <=? b1) && (b1 <=? 0xDF) then
                  Point ((b1 - 0xC0) * 64 + x2) :: decode s2
                else
                  match s2 with
                  | String c3 s3 =>
                      match continuation c3 with
                      | Some x3 =>
                          if (0xE0 <=? b1) && (b1 <=? 0xEF) then
                            let cp := ((b1 - 0xE0) * 64 + x2) * 64 + x3 in
                            if (0x800 <=? cp) &&
                               negb ((0xD800 <=? cp) && (cp <=? 0xDFFF))
                            then Point cp :: decode s3
                            else Raw c1 :: decode s1
                          else
                            match s3 with
                            | String c4 s4 =>
                                match continuation c4 with
                                | Some x4 =>
                                    let cp :=
                                      (((b1 - 0xF0) * 64 + x2) * 64 + x3) * 64 + x4 in
                                    if (0xF0 <=? b1) && (b1 <=? 0xF4) &&
                                       (0x10000 <=? cp) && (cp <=? 0x10FFFF)
                                    then Point cp :: decode s4
                                    else Raw c1 :: decode s1
                                | None => Raw c1 :: decode s1
                                end
                            | EmptyString => Raw c1 :: decode s1
                            end
                      | None => Raw c1 :: decode s1
                      end
                  | EmptyString => Raw c1 :: decode s1
                  end
            | None => Raw c1 :: decode s1
            end
        | EmptyString => [Raw c1]
        end
  end.

Definition encode (cp : N) : list ascii :=
  if cp <? 0x80 then [ascii_of_N cp]
  else if cp <? 0x800 then
    [ascii_of_N (0xC0 + cp / 64); ascii_of_N (0x80 + cp mod 64)]
  else if cp <? 0x10000 then
    [ascii_of_N (0xE0 + cp / 4096); ascii_of_N (0x80 + (cp / 64) mod 64);
     ascii_of_N (0x80 + cp mod 64)]
  else
    [ascii_of_N (0xF0 + cp / 262144); ascii_of_N (0x80 + (cp / 4096) mod 64);
     ascii_of_N (0x80 + (cp / 64) mod 64); ascii_of_N (0x80 + cp mod 64)].

Fixpoint encode_all (items : list item) : string :=
  match items with
  | [] => EmptyString
  | Point cp :: items' =>
      fold_right String (encode_all items') (encode cp)
  | Raw b :: items' => String b (encode_all items')
  end.

(** The code points with a lower-case mapping to one code point: in the
    range [lo .. hi], every [step]-th code point from [lo] on, [lo] being
    mapped to [target] and the others at the same offset.  The ranges are in
    increasing order. *)
Definition lower_case_mappings : list (N * N * N * N) :=
  [
   (0x41, 0x5A, 1, 0x61); (0xC0, 0xD6, 1, 0xE0); (0xD8, 0xDE, 1, 0xF8);
   (0x100, 0x12E, 2, 0x101); (0x132, 0x136, 2, 0x133); (0x139, 0x147, 2, 0x13A);
   (0x14A, 0x176, 2, 0x14B); (0x178, 0x178, 1, 0xFF); (0x179, 0x17D, 2, 0x17A);
   (0x181, 0x181, 1, 0x253); (0x182, 0x184, 2, 0x183); (0x186, 0x186, 1, 0x254);
   (0x187, 0x187, 1, 0x188); (0x189, 0x18A, 1, 0x256); (0x18B, 0x18B, 1, 0x18C);
   (0x18E, 0x18E, 1, 0x1DD); (0x18F, 0x18F, 1, 0x259); (0x190, 0x190, 1, 0x25B);
   (0x191, 0x191, 1, 0x192); (0x193, 0x193, 1, 0x260); (0x194, 0x194, 1, 0x263);
   (0x196, 0x196, 1, 0x269); (0x197, 0x197, 1, 0x268); (0x198, 0x198, 1, 0x199);
   (0x19C, 0x19C, 1, 0x26F); (0x19D, 0x19D, 1, 0x272); (0x19F, 0x19F, 1, 0x275);
   (0x1A0, 0x1A4, 2, 0x1A1); (0x1A6, 0x1A6, 1, 0x280); (0x1A7, 0x1A7, 1, 0x1A8);
   (0x1A9, 0x1A9, 1, 0x283); (0x1AC, 0x1AC, 1, 0x1AD); (0x1AE, 0x1AE, 1, 0x288);
   (0x1AF, 0x1AF, 1, 0x1B0); (0x1B1, 0x1B2, 1, 0x28A); (0x1B3, 0x1B5, 2, 0x1B4);
   (0x1B7, 0x1B7, 1, 0x292); (0x1B8, 0x1B8, 1, 0x1B9); (0x1BC, 0x1BC, 1, 0x1BD);
   (0x1C4, 0x1C4, 1, 0x1C6); (0x1C5, 0x1C5, 1, 0x1C6); (0x1C7, 0x1C7, 1, 0x1C9);
   (0x1C8, 0x1C8, 1, 0x1C9); (0x1CA, 0x1CA, 1, 0x1CC); (0x1CB, 0x1DB, 2, 0x1CC);
   (0x1DE, 0x1EE, 2, 0x1DF); (0x1F1, 0x1F1, 1, 0x1F3); (0x1F2, 0x1F4, 2, 0x1F3);
   (0x1F6, 0x1F6, 1, 0x195); (0x1F7, 0x1F7, 1, 0x1BF); (0x1F8, 0x21E, 2, 0x1F9);
   (0x220, 0x220, 1, 0x19E); (0x222, 0x232, 2, 0x223); (0x23A, 0x23A, 1, 0x2C65);
   (0x23B, 0x23B, 1, 0x23C); (0x23D, 0x23D, 1, 0x19A); (0x23E, 0x23E, 1, 0x2C66);
   (0x241, 0x241, 1, 0x242); (0x243, 0x243, 1, 0x180); (0x244, 0x244, 1, 0x289);
   (0x245, 0x245, 1, 0x28C); (0x246, 0x24E, 2, 0x247); (0x370, 0x372, 2, 0x371);
   (0x376, 0x376, 1, 0x377); (0x37F, 0x37F, 1, 0x3F3); (0x386, 0x386, 1, 0x3AC);
   (0x388, 0x38A, 1, 0x3AD); (0x38C, 0x38C, 1, 0x3CC); (0x38E, 0x38F, 1, 0x3CD);
   (0x391, 0x3A1, 1, 0x3B1); (0x3A3, 0x3AB, 1, 0x3C3); (0x3CF, 0x3CF, 1, 0x3D7);
   (0x3D8, 0x3EE, 2, 0x3D9); (0x3F4, 0x3F4, 1, 0x3B8); (0x3F7, 0x3F7, 1, 0x3F8);
   (0x3F9, 0x3F9, 1, 0x3F2); (0x3FA, 0x3FA, 1, 0x3FB); (0x3FD, 0x3FF, 1, 0x37B);
   (0x400, 0x40F, 1, 0x450); (0x410, 0x42F, 1, 0x430); (0x460, 0x480, 2, 0x461);
   (0x48A, 0x4BE, 2, 0x48B); (0x4C0, 0x4C0, 1, 0x4CF); (0x4C1, 0x4CD, 2, 0x4C2);
   (0x4D0, 0x52E, 2, 0x4D1); (0x531, 0x556, 1, 0x561); (0x10A0, 0x10C5, 1, 0x2D00);
   (0x10C7, 0x10C7, 1, 0x2D27); (0x10CD, 0x10CD, 1, 0x2D2D); (0x13A0, 0x13EF, 1, 0xAB70);
   (0x13F0, 0x13F5, 1, 0x13F8); (0x1C90, 0x1CBA, 1, 0x10D0); (0x1CBD, 0x1CBF, 1, 0x10FD);
   (0x1E00, 0x1E94, 2, 0x1E01); (0x1E9E, 0x1E9E, 1, 0xDF); (0x1EA0, 0x1EFE, 2, 0x1EA1);
   (0x1F08, 0x1F0F, 1, 0x1F00); (0x1F18, 0x1F1D, 1, 0x1F10); (0x1F28, 0x1F2F, 1, 0x1F20);
   (0x1F38, 0x1F3F, 1, 0x1F30); (0x1F48, 0x1F4D, 1, 0x1F40); (0x1F59, 0x1F5F, 2, 0x1F51);
   (0x1F68, 0x1F6F, 1, 0x1F60); (0x1F88, 0x1F8F, 1, 0x1F80); (0x1F98, 0x1F9F, 1, 0x1F90);
   (0x1FA8, 0x1FAF, 1, 0x1FA0); (0x1FB8, 0x1FB9, 1, 0x1FB0); (0x1FBA, 0x1FBB, 1, 0x1F70);
   (0x1FBC, 0x1FBC, 1, 0x1FB3); (0x1FC8, 0x1FCB, 1, 0x1F72); (0x1FCC, 0x1FCC, 1, 0x1FC3);
   (0x1FD8, 0x1FD9, 1, 0x1FD0); (0x1FDA, 0x1FDB, 1, 0x1F76); (0x1FE8, 0x1FE9, 1, 0x1FE0);
   (0x1FEA, 0x1FEB, 1, 0x1F7A); (0x1FEC, 0x1FEC, 1, 0x1FE5); (0x1FF8, 0x1FF9, 1, 0x1F78);
   (0x1FFA, 0x1FFB, 1, 0x1F7C); (0x1FFC, 0x1FFC, 1, 0x1FF3); (0x2126, 0x2126, 1, 0x3C9);
   (0x212A, 0x212A, 1, 0x6B); (0x212B, 0x212B, 1, 0xE5); (0x2132, 0x2132, 1, 0x214E);
   (0x2160, 0x216F, 1, 0x2170); (0x2183, 0x2183, 1, 0x2184); (0x24B6, 0x24CF, 1, 0x24D0);
   (0x2C00, 0x2C2F, 1, 0x2C30); (0x2C60, 0x2C60, 1, 0x2C61); (0x2C62, 0x2C62, 1, 0x26B);
   (0x2C63, 0x2C63, 1, 0x1D7D); (0x2C64, 0x2C64, 1, 0x27D); (0x2C67, 0x2C6B, 2, 0x2C68);
   (0x2C6D, 0x2C6D, 1, 0x251); (0x2C6E, 0x2C6E, 1, 0x271); (0x2C6F, 0x2C6F, 1, 0x250);
   (0x2C70, 0x2C70, 1, 0x252); (0x2C72, 0x2C72, 1, 0x2C73); (0x2C75, 0x2C75, 1, 0x2C76);
   (0x2C7E, 0x2C7F, 1, 0x23F); (0x2C80, 0x2CE2, 2, 0x2C81); (0x2CEB, 0x2CED, 2, 0x2CEC);
   (0x2CF2, 0x2CF2, 1, 0x2CF3); (0xA640, 0xA66C, 2, 0xA641); (0xA680, 0xA69A, 2, 0xA681);
   (0xA722, 0xA72E, 2, 0xA723); (0xA732, 0xA76E, 2, 0xA733); (0xA779, 0xA77B, 2, 0xA77A);
   (0xA77D, 0xA77D, 1, 0x1D79); (0xA77E, 0xA786, 2, 0xA77F); (0xA78B, 0xA78B, 1, 0xA78C);
   (0xA78D, 0xA78D, 1, 0x265); (0xA790, 0xA792, 2, 0xA791); (0xA796, 0xA7A8, 2, 0xA797);
   (0xA7AA, 0xA7AA, 1, 0x266); (0xA7AB, 0xA7AB, 1, 0x25C); (0xA7AC, 0xA7AC, 1, 0x261);
   (0xA7AD, 0xA7AD, 1, 0x26C); (0xA7AE, 0xA7AE, 1, 0x26A); (0xA7B0, 0xA7B0, 1, 0x29E);
   (0xA7B1, 0xA7B1, 1, 0x287); (0xA7B2, 0xA7B2, 1, 0x29D); (0xA7B3, 0xA7B3, 1, 0xAB53);
   (0xA7B4, 0xA7C2, 2, 0xA7B5); (0xA7C4, 0xA7C4, 1, 0xA794); (0xA7C5, 0xA7C5, 1, 0x282);
   (0xA7C6, 0xA7C6, 1, 0x1D8E); (0xA7C7, 0xA7C9, 2, 0xA7C8); (0xA7D0, 0xA7D0, 1, 0xA7D1);
   (0xA7D6, 0xA7D8, 2, 0xA7D7); (0xA7F5, 0xA7F5, 1, 0xA7F6); (0xFF21, 0xFF3A, 1, 0xFF41);
   (0x10400, 0x10427, 1, 0x10428); (0x104B0, 0x104D3, 1, 0x104D8); (0x10570, 0x1057A, 1, 0x10597);
   (0x1057C, 0x1058A, 1, 0x105A3); (0x1058C, 0x10592, 1, 0x105B3); (0x10594, 0x10595, 1, 0x105BB);
   (0x10C80, 0x10CB2, 1, 0x10CC0); (0x118A0, 0x118BF, 1, 0x118C0); (0x16E40, 0x16E5F, 1, 0x16E60);
   (0x1E900, 0x1E921, 1, 0x1E922) ].

(** The code points with the property [Case_Ignorable], in increasing
    order. *)
Definition case_ignorable : list (N * N) :=
  [
   (0x27, 0x27); (0x2E, 0x2E); (0x3A, 0x3A); (0x5E, 0x5E); (0x60, 0x60);
   (0xA8, 0xA8); (0xAD, 0xAD); (0xAF, 0xAF); (0xB4, 0xB4); (0xB7, 0xB8);
   (0x2B0, 0x36F); (0x374, 0x375); (0x37A, 0x37A); (0x384, 0x385); (0x387, 0x387);
   (0x483, 0x489); (0x559, 0x559); (0x55F, 0x55F); (0x591, 0x5BD); (0x5BF, 0x5BF);
   (0x5C1, 0x5C2); (0x5C4, 0x5C5); (0x5C7, 0x5C7); (0x5F4, 0x5F4); (0x600, 0x605);
   (0x610, 0x61A); (0x61C, 0x61C); (0x640, 0x640); (0x64B, 0x65F); (0x670, 0x670);
   (0x6D6, 0x6DD); (0x6DF, 0x6E8); (0x6EA, 0x6ED); (0x70F, 0x70F); (0x711, 0x711);
   (0x730, 0x74A); (0x7A6, 0x7B0); (0x7EB, 0x7F5); (0x7FA, 0x7FA); (0x7FD, 0x7FD);
   (0x816, 0x82D); (0x859, 0x85B); (0x888, 0x888); (0x890, 0x891); (0x898, 0x89F);
   (0x8C9, 0x902); (0x93A, 0x93A); (0x93C, 0x93C); (0x941, 0x948); (0x94D, 0x94D);
   (0x951, 0x957); (0x962, 0x963); (0x971, 0x971); (0x981, 0x981); (0x9BC, 0x9BC);
   (0x9C1, 0x9C4); (0x9CD, 0x9CD); (0x9E2, 0x9E3); (0x9FE, 0x9FE); (0xA01, 0xA02);
   (0xA3C, 0xA3C); (0xA41, 0xA42); (0xA47, 0xA48); (0xA4B, 0xA4D); (0xA51, 0xA51);
   (0xA70, 0xA71); (0xA75, 0xA75); (0xA81, 0xA82); (0xABC, 0xABC); (0xAC1, 0xAC5);
   (0xAC7, 0xAC8); (0xACD, 0xACD); (0xAE2, 0xAE3); (0xAFA, 0xAFF); (0xB01, 0xB01);
   (0xB3C, 0xB3C); (0xB3F, 0xB3F); (0xB41, 0xB44); (0xB4D, 0xB4D); (0xB55, 0xB56);
   (0xB62, 0xB63); (0xB82, 0xB82); (0xBC0, 0xBC0); (0xBCD, 0xBCD); (0xC00, 0xC00);
   (0xC04, 0xC04); (0xC3C, 0xC3C); (0xC3E, 0xC40); (0xC46, 0xC48); (0xC4A, 0xC4D);
   (0xC55, 0xC56); (0xC62, 0xC63); (0xC81, 0xC81); (0xCBC, 0xCBC); (0xCBF, 0xCBF);
   (0xCC6, 0xCC6); (0xCCC, 0xCCD); (0xCE2, 0xCE3); (0xD00, 0xD01); (0xD3B, 0xD3C);
   (0xD41, 0xD44); (0xD4D, 0xD4D); (0xD62, 0xD63); (0xD81, 0xD81); (0xDCA, 0xDCA);
   (0xDD2, 0xDD4); (0xDD6, 0xDD6); (0xE31, 0xE31); (0xE34, 0xE3A); (0xE46, 0xE4E);
   (0xEB1, 0xEB1); (0xEB4, 0xEBC); (0xEC6, 0xEC6); (0xEC8, 0xECD); (0xF18, 0xF19);
   (0xF35, 0xF35); (0xF37, 0xF37); (0xF39, 0xF39); (0xF71, 0xF7E); (0xF80, 0xF84);
   (0xF86, 0xF87); (0xF8D, 0xF97); (0xF99, 0xFBC); (0xFC6, 0xFC6); (0x102D, 0x1030);
   (0x1032, 0x1037); (0x1039, 0x103A); (0x103D, 0x103E); (0x1058, 0x1059); (0x105E, 0x1060);
   (0x1071, 0x1074); (0x1082, 0x1082); (0x1085, 0x1086); (0x108D, 0x108D); (0x109D, 0x109D);
   (0x10FC, 0x10FC); (0x135D, 0x135F); (0x1712, 0x1714); (0x1732, 0x1733); (0x1752, 0x1753);
   (0x1772, 0x1773); (0x17B4, 0x17B5); (0x17B7, 0x17BD); (0x17C6, 0x17C6); (0x17C9, 0x17D3);
   (0x17D7, 0x17D7); (0x17DD, 0x17DD); (0x180B, 0x180F); (0x1843, 0x1843); (0x1885, 0x1886);
   (0x18A9, 0x18A9); (0x1920, 0x1922); (0x1927, 0x1928); (0x1932, 0x1932); (0x1939, 0x193B);
   (0x1A17, 0x1A18); (0x1A1B, 0x1A1B); (0x1A56, 0x1A56); (0x1A58, 0x1A5E); (0x1A60, 0x1A60);
   (0x1A62, 0x1A62); (0x1A65, 0x1A6C); (0x1A73, 0x1A7C); (0x1A7F, 0x1A7F); (0x1AA7, 0x1AA7);
   (0x1AB0, 0x1ACE); (0x1B00, 0x1B03); (0x1B34, 0x1B34); (0x1B36, 0x1B3A); (0x1B3C, 0x1B3C);
   (0x1B42, 0x1B42); (0x1B6B, 0x1B73); (0x1B80, 0x1B81); (0x1BA2, 0x1BA5); (0x1BA8, 0x1BA9);
   (0x1BAB, 0x1BAD); (0x1BE6, 0x1BE6); (0x1BE8, 0x1BE9); (0x1BED, 0x1BED); (0x1BEF, 0x1BF1);
   (0x1C2C, 0x1C33); (0x1C36, 0x1C37); (0x1C78, 0x1C7D); (0x1CD0, 0x1CD2); (0x1CD4, 0x1CE0);
   (0x1CE2, 0x1CE8); (0x1CED, 0x1CED); (0x1CF4, 0x1CF4); (0x1CF8, 0x1CF9); (0x1D2C, 0x1D6A);
   (0x1D78, 0x1D78); (0x1D9B, 0x1DFF); (0x1FBD, 0x1FBD); (0x1FBF, 0x1FC1); (0x1FCD, 0x1FCF);
   (0x1FDD, 0x1FDF); (0x1FED, 0x1FEF); (0x1FFD, 0x1FFE); (0x200B, 0x200F); (0x2018, 0x2019);
   (0x2024, 0x2024); (0x2027, 0x2027); (0x202A, 0x202E); (0x2060, 0x2064); (0x2066, 0x206F);
   (0x2071, 0x2071); (0x207F, 0x207F); (0x2090, 0x209C); (0x20D0, 0x20F0); (0x2C7C, 0x2C7D);
   (0x2CEF, 0x2CF1); (0x2D6F, 0x2D6F); (0x2D7F, 0x2D7F); (0x2DE0, 0x2DFF); (0x2E2F, 0x2E2F);
   (0x3005, 0x3005); (0x302A, 0x302D); (0x3031, 0x3035); (0x303B, 0x303B); (0x3099, 0x309E);
   (0x30FC, 0x30FE); (0xA015, 0xA015); (0xA4F8, 0xA4FD); (0xA60C, 0xA60C); (0xA66F, 0xA672);
   (0xA674, 0xA67D); (0xA67F, 0xA67F); (0xA69C, 0xA69F); (0xA6F0, 0xA6F1); (0xA700, 0xA721);
   (0xA770, 0xA770); (0xA788, 0xA78A); (0xA7F2, 0xA7F4); (0xA7F8, 0xA7F9); (0xA802, 0xA802);
   (0xA806, 0xA806); (0xA80B, 0xA80B); (0xA825, 0xA826); (0xA82C, 0xA82C); (0xA8C4, 0xA8C5);
   (0xA8E0, 0xA8F1); (0xA8FF, 0xA8FF); (0xA926, 0xA92D); (0xA947, 0xA951); (0xA980, 0xA982);
   (0xA9B3, 0xA9B3); (0xA9B6, 0xA9B9); (0xA9BC, 0xA9BD); (0xA9CF, 0xA9CF); (0xA9E5, 0xA9E6);
   (0xAA29, 0xAA2E); (0xAA31, 0xAA32); (0xAA35, 0xAA36); (0xAA43, 0xAA43); (0xAA4C, 0xAA4C);
   (0xAA70, 0xAA70); (0xAA7C, 0xAA7C); (0xAAB0, 0xAAB0); (0xAAB2, 0xAAB4); (0xAAB7, 0xAAB8);
   (0xAABE, 0xAABF); (0xAAC1, 0xAAC1); (0xAADD, 0xAADD); (0xAAEC, 0xAAED); (0xAAF3, 0xAAF4);
   (0xAAF6, 0xAAF6); (0xAB5B, 0xAB5F); (0xAB69, 0xAB6B); (0xABE5, 0xABE5); (0xABE8, 0xABE8);
   (0xABED, 0xABED); (0xFB1E, 0xFB1E); (0xFBB2, 0xFBC2); (0xFE00, 0xFE0F); (0xFE13, 0xFE13);
   (0xFE20, 0xFE2F); (0xFE52, 0xFE52); (0xFE55, 0xFE55); (0xFEFF, 0xFEFF); (0xFF07, 0xFF07);
   (0xFF0E, 0xFF0E); (0xFF1A, 0xFF1A); (0xFF3E, 0xFF3E); (0xFF40, 0xFF40); (0xFF70, 0xFF70);
   (0xFF9E, 0xFF9F); (0xFFE3, 0xFFE3); (0xFFF9, 0xFFFB); (0x101FD, 0x101FD); (0x102E0, 0x102E0);
   (0x10376, 0x1037A); (0x10780, 0x10785); (0x10787, 0x107B0); (0x107B2, 0x107BA); (0x10A01, 0x10A03);
   (0x10A05, 0x10A06); (0x10A0C, 0x10A0F); (0x10A38, 0x10A3A); (0x10A3F, 0x10A3F); (0x10AE5, 0x10AE6);
   (0x10D24, 0x10D27); (0x10EAB, 0x10EAC); (0x10F46, 0x10F50); (0x10F82, 0x10F85); (0x11001, 0x11001);
   (0x11038, 0x11046); (0x11070, 0x11070); (0x11073, 0x11074); (0x1107F, 0x11081); (0x110B3, 0x110B6);
   (0x110B9, 0x110BA); (0x110BD, 0x110BD); (0x110C2, 0x110C2); (0x110CD, 0x110CD); (0x11100, 0x11102);
   (0x11127, 0x1112B); (0x1112D, 0x11134); (0x11173, 0x11173); (0x11180, 0x11181); (0x111B6, 0x111BE);
   (0x111C9, 0x111CC); (0x111CF, 0x111CF); (0x1122F, 0x11231); (0x11234, 0x11234); (0x11236, 0x11237);
   (0x1123E, 0x1123E); (0x112DF, 0x112DF); (0x112E3, 0x112EA); (0x11300, 0x11301); (0x1133B, 0x1133C);
   (0x11340, 0x11340); (0x11366, 0x1136C); (0x11370, 0x11374); (0x11438, 0x1143F); (0x11442, 0x11444);
   (0x11446, 0x11446); (0x1145E, 0x1145E); (0x114B3, 0x114B8); (0x114BA, 0x114BA); (0x114BF, 0x114C0);
   (0x114C2, 0x114C3); (0x115B2, 0x115B5); (0x115BC, 0x115BD); (0x115BF, 0x115C0); (0x115DC, 0x115DD);
   (0x11633, 0x1163A); (0x1163D, 0x1163D); (0x1163F, 0x11640); (0x116AB, 0x116AB); (0x116AD, 0x116AD);
   (0x116B0, 0x116B5); (0x116B7, 0x116B7); (0x1171D, 0x1171F); (0x11722, 0x11725); (0x11727, 0x1172B);
   (0x1182F, 0x11837); (0x11839, 0x1183A); (0x1193B, 0x1193C); (0x1193E, 0x1193E); (0x11943, 0x11943);
   (0x119D4, 0x119D7); (0x119DA, 0x119DB); (0x119E0, 0x119E0); (0x11A01, 0x11A0A); (0x11A33, 0x11A38);
   (0x11A3B, 0x11A3E); (0x11A47, 0x11A47); (0x11A51, 0x11A56); (0x11A59, 0x11A5B); (0x11A8A, 0x11A96);
   (0x11A98, 0x11A99); (0x11C30, 0x11C36); (0x11C38, 0x11C3D); (0x11C3F, 0x11C3F); (0x11C92, 0x11CA7);
   (0x11CAA, 0x11CB0); (0x11CB2, 0x11CB3); (0x11CB5, 0x11CB6); (0x11D31, 0x11D36); (0x11D3A, 0x11D3A);
   (0x11D3C, 0x11D3D); (0x11D3F, 0x11D45); (0x11D47, 0x11D47); (0x11D90, 0x11D91); (0x11D95, 0x11D95);
   (0x11D97, 0x11D97); (0x11EF3, 0x11EF4); (0x13430, 0x13438); (0x16AF0, 0x16AF4); (0x16B30, 0x16B36);
   (0x16B40, 0x16B43); (0x16F4F, 0x16F4F); (0x16F8F, 0x16F9F); (0x16FE0, 0x16FE1); (0x16FE3, 0x16FE4);
   (0x1AFF0, 0x1AFF3); (0x1AFF5, 0x1AFFB); (0x1AFFD, 0x1AFFE); (0x1BC9D, 0x1BC9E); (0x1BCA0, 0x1BCA3);
   (0x1CF00, 0x1CF2D); (0x1CF30, 0x1CF46); (0x1D167, 0x1D169); (0x1D173, 0x1D182); (0x1D185, 0x1D18B);
   (0x1D1AA, 0x1D1AD); (0x1D242, 0x1D244); (0x1DA00, 0x1DA36); (0x1DA3B, 0x1DA6C); (0x1DA75, 0x1DA75);
   (0x1DA84, 0x1DA84); (0x1DA9B, 0x1DA9F); (0x1DAA1, 0x1DAAF); (0x1E000, 0x1E006); (0x1E008, 0x1E018);
   (0x1E01B, 0x1E021); (0x1E023, 0x1E024); (0x1E026, 0x1E02A); (0x1E130, 0x1E13D); (0x1E2AE, 0x1E2AE);
   (0x1E2EC, 0x1E2EF); (0x1E8D0, 0x1E8D6); (0x1E944, 0x1E94B); (0x1F3FB, 0x1F3FF); (0xE0001, 0xE0001);
   (0xE0020, 0xE007F); (0xE0100, 0xE01EF) ].

(** The code points with the property [Cased] and without [Case_Ignorable],
    in increasing order. *)
Definition cased_letters : list (N * N) :=
  [
   (0x41, 0x5A); (0x61, 0x7A); (0xAA, 0xAA); (0xB5, 0xB5); (0xBA, 0xBA);
   (0xC0, 0xD6); (0xD8, 0xF6); (0xF8, 0x1BA); (0x1BC, 0x1BF); (0x1C4, 0x293);
   (0x295, 0x2AF); (0x370, 0x373); (0x376, 0x377); (0x37B, 0x37D); (0x37F, 0x37F);
   (0x386, 0x386); (0x388, 0x38A); (0x38C, 0x38C); (0x38E, 0x3A1); (0x3A3, 0x3F5);
   (0x3F7, 0x481); (0x48A, 0x52F); (0x531, 0x556); (0x560, 0x588); (0x10A0, 0x10C5);
   (0x10C7, 0x10C7); (0x10CD, 0x10CD); (0x10D0, 0x10FA); (0x10FD, 0x10FF); (0x13A0, 0x13F5);
   (0x13F8, 0x13FD); (0x1C80, 0x1C88); (0x1C90, 0x1CBA); (0x1CBD, 0x1CBF); (0x1D00, 0x1D2B);
   (0x1D6B, 0x1D77); (0x1D79, 0x1D9A); (0x1E00, 0x1F15); (0x1F18, 0x1F1D); (0x1F20, 0x1F45);
   (0x1F48, 0x1F4D); (0x1F50, 0x1F57); (0x1F59, 0x1F59); (0x1F5B, 0x1F5B); (0x1F5D, 0x1F5D);
   (0x1F5F, 0x1F7D); (0x1F80, 0x1FB4); (0x1FB6, 0x1FBC); (0x1FBE, 0x1FBE); (0x1FC2, 0x1FC4);
   (0x1FC6, 0x1FCC); (0x1FD0, 0x1FD3); (0x1FD6, 0x1FDB); (0x1FE0, 0x1FEC); (0x1FF2, 0x1FF4);
   (0x1FF6, 0x1FFC); (0x2102, 0x2102); (0x2107, 0x2107); (0x210A, 0x2113); (0x2115, 0x2115);
   (0x2119, 0x211D); (0x2124, 0x2124); (0x2126, 0x2126); (0x2128, 0x2128); (0x212A, 0x212D);
   (0x212F, 0x2134); (0x2139, 0x2139); (0x213C, 0x213F); (0x2145, 0x2149); (0x214E, 0x214E);
   (0x2160, 0x217F); (0x2183, 0x2184); (0x24B6, 0x24E9); (0x2C00, 0x2C7B); (0x2C7E, 0x2CE4);
   (0x2CEB, 0x2CEE); (0x2CF2, 0x2CF3); (0x2D00, 0x2D25); (0x2D27, 0x2D27); (0x2D2D, 0x2D2D);
   (0xA640, 0xA66D); (0xA680, 0xA69B); (0xA722, 0xA76F); (0xA771, 0xA787); (0xA78B, 0xA78E);
   (0xA790, 0xA7CA); (0xA7D0, 0xA7D1); (0xA7D3, 0xA7D3); (0xA7D5, 0xA7D9); (0xA7F5, 0xA7F6);
   (0xA7FA, 0xA7FA); (0xAB30, 0xAB5A); (0xAB60, 0xAB68); (0xAB70, 0xABBF); (0xFB00, 0xFB06);
   (0xFB13, 0xFB17); (0xFF21, 0xFF3A); (0xFF41, 0xFF5A); (0x10400, 0x1044F); (0x104B0, 0x104D3);
   (0x104D8, 0x104FB); (0x10570, 0x1057A); (0x1057C, 0x1058A); (0x1058C, 0x10592); (0x10594, 0x10595);
   (0x10597, 0x105A1); (0x105A3, 0x105B1); (0x105B3, 0x105B9); (0x105BB, 0x105BC); (0x10C80, 0x10CB2);
   (0x10CC0, 0x10CF2); (0x118A0, 0x118DF); (0x16E40, 0x16E7F); (0x1D400, 0x1D454); (0x1D456, 0x1D49C);
   (0x1D49E, 0x1D49F); (0x1D4A2, 0x1D4A2); (0x1D4A5, 0x1D4A6); (0x1D4A9, 0x1D4AC); (0x1D4AE, 0x1D4B9);
   (0x1D4BB, 0x1D4BB); (0x1D4BD, 0x1D4C3); (0x1D4C5, 0x1D505); (0x1D507, 0x1D50A); (0x1D50D, 0x1D514);
   (0x1D516, 0x1D51C); (0x1D51E, 0x1D539); (0x1D53B, 0x1D53E); (0x1D540, 0x1D544); (0x1D546, 0x1D546);
   (0x1D54A, 0x1D550); (0x1D552, 0x1D6A5); (0x1D6A8, 0x1D6C0); (0x1D6C2, 0x1D6DA); (0x1D6DC, 0x1D6FA);
   (0x1D6FC, 0x1D714); (0x1D716, 0x1D734); (0x1D736, 0x1D74E); (0x1D750, 0x1D76E); (0x1D770, 0x1D788);
   (0x1D78A, 0x1D7A8); (0x1D7AA, 0x1D7C2); (0x1D7C4, 0x1D7CB); (0x1DF00, 0x1DF09); (0x1DF0B, 0x1DF1E);
   (0x1E900, 0x1E943); (0x1F130, 0x1F149); (0x1F150, 0x1F169); (0x1F170, 0x1F189) ].

Fixpoint member (cp : N) (ranges : list (N * N)) : bool :=
  match ranges with
  | [] => false
  | (lo, hi) :: ranges' =>
      if cp <? lo then false
      else if cp <=? hi then true
      else member cp ranges'
  end.

Definition is_case_ignorable (cp : N) : bool := member cp case_ignorable.
Definition is_cased (cp : N) : bool := member cp cased_letters.

Fixpoint mapped (cp : N) (mappings : list (N * N * N * N)) : N :=
  match mappings with
  | [] => cp
  | (lo, hi, step, target) :: mappings' =>
      if cp <? lo then cp
      else if (cp <=? hi) && ((cp - lo) mod step =? 0) then target + (cp - lo)
      else mapped cp mappings'
  end.

(** The lower-case mapping of a code point other than the capital sigma. *)
Definition to_lower (cp : N) : list N :=
  if cp =? 0x130 then [0x69; 0x307] else [mapped cp lower_case_mappings].

(** The condition [Final_Sigma], after: whether what follows, its
    case-ignorable code points skipped, starts with a cased letter. *)
Fixpoint followed_by_cased (items : list item) : bool :=
  match items with
  | Point cp :: items' =>
      if is_case_ignorable cp then followed_by_cased items' else is_cased cp
  | _ => false
  end.

(** [after_cased] says whether what precedes, its case-ignorable code
    points skipped, ends with a cased letter. *)
Fixpoint lower (after_cased : bool) (items : list item) : list item :=
  match items with
  | [] => []
  | Raw b :: items' => Raw b :: lower false items'
  | Point cp :: items' =>
      let converted :=
        if cp =? 0x3A3 then
          if after_cased && negb (followed_by_cased items') then [0x3C2] else [0x3C3]
        else to_lower cp in
      List.map Point converted ++
      lower (if is_case_ignorable cp then after_cased else is_cased cp) items'
  end.

Definition toLowerCase (s : string) : string := encode_all (lower false (decode s)).

End Unicode.

Module JS.

Definition add (x y : number) : number :=
  match x, y with Num a, Num b => Num (a + b) | _, _ => NaN end.

Definition sub (x y : number) : number :=
  match x, y with Num a, Num b => Num (a - b) | _, _ => NaN end.

Definition mul (x y : number) : number :=
  match x, y with Num a, Num b => Num (a * b) | _, _ => NaN end.

(** Division.  The sources divide by the literals [2], [100] and [180]
    only; a zero divisor (an infinity or [NaN] in JavaScript) yields [NaN]
    here. *)
Definition div (x y : number) : number :=
  match x, y with
  | Num a, Num b => if Req_dec_T b 0 then NaN else Num (a / b)
  | _, _ => NaN
  end.

(** Comparisons: every comparison with [NaN] is [false]. *)
Definition le (x y : number) : bool :=
  match x, y with
  | Num a, Num b => if Rle_dec a b then true else false
  | _, _ => false
  end.

Definition lt (x y : number) : bool :=
  match x, y with
  | Num a, Num b => if Rlt_dec a b then true else false
  | _, _ => false
  end.

Definition ge (x y : number) : bool := le y x.
Definition gt (x y : number) : bool := lt y x.

(** [x === y] on numbers. *)
Definition strict_eq (x y : number) : bool :=
  match x, y with
  | Num a, Num b => if Req_dec_T a b then true else false
  | _, _ => false
  end.

(** [o || d] for an optional number [o]: [d] replaces [undefined] and
    every falsy number. *)
Definition or_else (o : option number) (d : number) : number :=
  match o with
  | Some x => if truthy x then x else d
  | None => d
  end.

(** Truthiness of an optional number and of an optional string. *)
Definition truthy_opt (o : option number) : bool :=
  match o with Some x => truthy x | None => false end.

Definition truthy_str (o : option string) : bool :=
  match o with
  | Some s => negb (String.eqb s EmptyString)
  | None => false
  end.

(** [ToIntegerOrInfinity]: truncation towards zero, [NaN] becomes [0]. *)
Definition ToIntegerOrInfinity (x : number) : Z :=
  match x with
  | NaN => 0%Z
  | Num a => if Rlt_dec a 0 then Zceil a else Zfloor a
  end.

(** [String.prototype.toLowerCase]. *)
Definition toLowerCase (s : string) : string := Unicode.toLowerCase s.
Arguments toLowerCase : simpl never.

End JS.

Module Math.

Definition PI : number := Num Rtrigo1.PI.

Definition sin (x : number) : number :=
  match x with Num a => Num (Rtrigo_def.sin a) | NaN => NaN end.

Definition cos (x : number) : number :=
  match x with Num a => Num (Rtrigo_def.cos a) | NaN => NaN end.

(** [Math.sqrt] of a negative number is [NaN]. *)
Definition sqrt (x : number) : number :=
  match x with
  | Num a => if Rlt_dec a 0 then NaN else Num (R_sqrt.sqrt a)
  | NaN => NaN
  end.

(** The angle of the point [(x, y)], in [(-PI, PI]]. *)
Definition atan2R (y x : R) : R :=
  if Rlt_dec 0 x then atan (y / x)
  else if Rlt_dec x 0 then
    if Rle_dec 0 y then atan (y / x) + Rtrigo1.PI
    else atan (y / x) - Rtrigo1.PI
  else if Rlt_dec 0 y then Rtrigo1.PI / 2
  else if Rlt_dec y 0 then - (Rtrigo1.PI / 2)
  else 0.

Definition atan2 (y x : number) : number :=
  match y, x with Num b, Num a => Num (atan2R b a) | _, _ => NaN end.

(** [Math.round]: the nearest integer, halves rounded up. *)
Definition round (x : number) : number :=
  match x with
  | Num a => Num (IZR (Zfloor (a + / 2)))
  | NaN => NaN
  end.

Definition min (x y : number) : number :=
  match x, y with
  | Num a, Num b => Num (Rmin a b)
  | _, _ => NaN
  end.

End Math.

Declare Scope js_scope.
Delimit Scope js_scope with js.
Bind Scope js_scope with number.
Infix "+" := JS.add : js_scope.
Infix "-" := JS.sub : js_scope.
Infix "*" := JS.mul : js_scope.
Infix "/" := JS.div : js_scope.
Infix "<=?" := JS.le : js_scope.
Infix "<?" := JS.lt : js_scope.
Infix ">=?" := JS.ge : js_scope.
Infix ">?" := JS.gt : js_scope.
Infix "===" := JS.strict_eq (at level 70) : js_scope.

(** ** Data model ([location.interface.ts]) *)

Record Coordinates : Type := {
  lat : number;
  lng : number;
}.

(** [interface Location extends Coordinates]: a location is used wherever
    coordinates are expected. *)
Record Location : Type := {
  coordinates :> Coordinates;
  address : string;
}.

(** ** [DistanceUtil] ([distance.util.ts]) *)

Module DistanceUtil.

Local Open Scope js_scope.

Definition EARTH_RADIUS_KM : number := Num 6371.

Definition toRadians (degrees : number) : number :=
  degrees * (Math.PI / Num 180).

Definition calculateDistance (point1 point2 : Coordinates) : number :=
  let lat1Rad := toRadians (lat point1) in
  let lat2Rad := toRadians (lat point2) in
  let deltaLatRad := toRadians (lat point2 - lat point1) in
  let deltaLngRad := toRadians (lng point2 - lng point1) in
  let a := Math.sin (deltaLatRad / Num 2) * Math.sin (deltaLatRad / Num 2) +
           Math.cos lat1Rad * Math.cos lat2Rad *
           Math.sin (deltaLngRad / Num 2) * Math.sin (deltaLngRad / Num 2) in
  let c := Num 2 * Math.atan2 (Math.sqrt a) (Math.sqrt (Num 1 - a)) in
  let distance := EARTH_RADIUS_KM * c in
  Math.round (distance * Num 100) / Num 100.

Definition isWithinRadius (center point : Coordinates) (radiusKm : number) : bool :=
  let distance := calculateDistance center point in
  distance <=? radiusKm.

Definition isValidLatitude (lat : number) : bool :=
  negb (isNaN lat) && (lat >=? Num (-90)) && (lat <=? Num 90).

Definition isValidLongitude (lng : number) : bool :=
  negb (isNaN lng) && (lng >=? Num (-180)) && (lng <=? Num 180).

Definition isValidCoordinates (coordinates : Coordinates) : bool :=
  isValidLatitude (lat coordinates) && isValidLongitude (lng coordinates).

End DistanceUtil.

(** ** [Place], [DiscoveryQuery], [DiscoveryResponse] *)

Module Place.
Record t : Type := mk {
  id : string;
  name : string;
  category : string;
  description : string;
  distance_km : number;
  open_now : bool;
  image_url : string;
  location : Location;
}.

(** The object spread [{...place, distance_km: d}]. *)
Definition with_distance_km (place : t) (d : number) : t :=
  {| id := id place;
     name := name place;
     category := category place;
     description := description place;
     distance_km := d;
     open_now := open_now place;
     image_url := image_url place;
     location := location place |}.
End Place.
Abbreviation Place := Place.t.

(** [enum PlaceCategory]. *)
Module PlaceCategory.
Definition RESTAURANT : string := "restaurant".
Definition CAFE : string := "cafe".
Definition BAR : string := "bar".
Definition SHOP : string := "shop".
Definition HOTEL : string := "hotel".
Definition ATTRACTION : string := "attraction".
Definition PARK : string := "park".
Definition HOSPITAL : string := "hospital".
Definition GAS_STATION : string := "gas_station".
Definition BANK : string := "bank".
Definition GYM : string := "gym".
Definition PHARMACY : string := "pharmacy".
Definition EVENT : string := "event".
Definition ENTERTAINMENT : string := "entertainment".
Definition SERVICE : string := "service".

(** [Object.values(PlaceCategory)]: the known category set. *)
Definition values : list string :=
  [RESTAURANT; CAFE; BAR; SHOP; HOTEL; ATTRACTION; PARK; HOSPITAL;
   GAS_STATION; BANK; GYM; PHARMACY; EVENT; ENTERTAINMENT; SERVICE].
End PlaceCategory.

Module DiscoveryQuery.
Record t : Type := mk {
  latitude : number;
  longitude : number;
  radius : option number;
  category : option string;
  limit : option number;
}.
End DiscoveryQuery.
Abbreviation DiscoveryQuery := DiscoveryQuery.t.

(** ** The store *)

(** A location: the index of a cell of the store. *)
Abbreviation loc := nat.

Inductive cell : Type :=
| PlaceObj (place : Place)
| ArrayObj (elems : list loc).

Module DiscoveryResponse.
Record metadata_t : Type := {
  processing_time_ms : number;
  timestamp : number;   (* the instant that [toISOString] renders *)
}.
Record t : Type := mk {
  results : loc;        (* a reference to an array of [Place] references *)
  total : nat;
  query : DiscoveryQuery;
  metadata : metadata_t;
}.
End DiscoveryResponse.
Abbreviation DiscoveryResponse := DiscoveryResponse.t.

(** A template literal: its text pieces and the values substituted into it. *)
Inductive fragment : Type :=
| Str (s : string)
| Val (n : number)
| Count (n : nat)
| Json (q : DiscoveryQuery).

(** [new Error(message)]. *)
Record Error : Type := { message : list fragment }.

Inductive event : Type :=
| LoggerLog (msg : list fragment)
| LoggerError (msg : list fragment)
| RepositoryCall (method : string).

(** The state a computation runs in: the store, what was logged and which
    repository methods were called (oldest first), and the clock, given as
    the sequence of readings it will deliver. *)
Record World : Type := {
  heap : list cell;
  events : list event;
  ticks : nat;
  clock : nat -> number;
}.

Definition set_heap (w : World) (h : list cell) : World :=
  {| heap := h; events := events w; ticks := ticks w; clock := clock w |}.

Definition add_event (w : World) (e : event) : World :=
  {| heap := heap w; events := events w ++ [e]; ticks := ticks w; clock := clock w |}.

Definition tick (w : World) : World :=
  {| heap := heap w; events := events w; ticks := S (ticks w); clock := clock w |}.

(** ** The monad of methods: state and exceptions *)

Inductive outcome (A : Type) : Type :=
| Ok (a : A)
| Throw (e : Error).
Arguments Ok {A} a.
Arguments Throw {A} e.

Definition M (A : Type) : Type := World -> outcome A * World.

Definition run {A} (m : M A) (w : World) : outcome A * World := m w.

Definition ret {A} (a : A) : M A := fun w => (Ok a, w).

Definition bind {A B} (m : M A) (k : A -> M B) : M B :=
  fun w => match m w with
           | (Ok a, w') => k a w'
           | (Throw e, w') => (Throw e, w')
           end.

Definition throw {A} (e : Error) : M A := fun w => (Throw e, w).

(** [try { body } catch (error) { handler }]. *)
Definition try_catch {A} (body : M A) (handler : Error -> M A) : M A :=
  fun w => match body w with
           | (Ok a, w') => (Ok a, w')
           | (Throw e, w') => handler e w'
           end.

Notation "x <- m ;; k" := (bind m (fun x => k))
  (at level 100, m at next level, right associativity).
Notation "m ;;; k" := (bind m (fun _ => k))
  (at level 100, right associativity).

Fixpoint mapM {A B} (f : A -> M B) (xs : list A) : M (list B) :=
  match xs with
  | [] => ret []
  | x :: xs' => y <- f x ;; ys <- mapM f xs' ;; ret (y :: ys)
  end.

(** What the runtime raises when a reference does not hold what the static
    type promises; well-typed calls never reach it. *)
Definition TypeError : Error := {| message := [Str "TypeError"] |}.

Definition alloc (c : cell) : M loc :=
  fun w => (Ok (length (heap w)), set_heap w (heap w ++ [c])).

Definition load (l : loc) : M cell :=
  fun w => match heap w !! l with
           | Some c => (Ok c, w)
           | None => (Throw TypeError, w)
           end.

Definition store (l : loc) (c : cell) : M unit :=
  fun w => (Ok tt, set_heap w (<[l := c]> (heap w))).

Definition emit (e : event) : M unit :=
  fun w => (Ok tt, add_event w e).

(** [Date.now()], and the instant of [new Date()]: the next reading of
    the clock. *)
Definition Date_now : M number :=
  fun w => (Ok (clock w (ticks w)), tick w).

Module Logger.
Definition log (msg : list fragment) : M unit := emit (LoggerLog msg).
Definition error (msg : list fragment) : M unit := emit (LoggerError msg).
End Logger.

(** ** Arrays of [Place] references *)

(** A stable sort by a comparator [cmp] in the sense of
    [Array.prototype.sort]: [x] goes after [y] when [cmp x y > 0]; a
    comparator value that is not positive ([NaN] included) keeps the
    earlier element first. *)
Fixpoint sort_insert {A} (cmp : A -> A -> number) (x : A) (ys : list A) : list A :=
  match ys with
  | [] => [x]
  | y :: ys' =>
      if JS.gt (cmp x y) (Num 0) then y :: sort_insert cmp x ys'
      else x :: y :: ys'
  end.

Fixpoint stable_sort {A} (cmp : A -> A -> number) (xs : list A) : list A :=
  match xs with
  | [] => []
  | x :: xs' => sort_insert cmp x (stable_sort cmp xs')
  end.

(** The relative index of [Array.prototype.slice]: a negative index counts
    from the end, and the result is clamped to [0 .. len]. *)
Definition relative_index (len : nat) (i : Z) : nat :=
  if (i <? 0)%Z then Z.to_nat (Z.max (Z.of_nat len + i) 0)
  else Z.to_nat (Z.min i (Z.of_nat len)).

Definition slice {A} (xs : list A) (start end_ : number) : list A :=
  let k := relative_index (length xs) (JS.ToIntegerOrInfinity start) in
  let final := relative_index (length xs) (JS.ToIntegerOrInfinity end_) in
  firstn (final - k) (skipn k xs).

(** [[...new Set(xs)]]: the distinct strings of [xs], each at its first
    occurrence. *)
Fixpoint Set_values (seen xs : list string) : list string :=
  match xs with
  | [] => []
  | x :: xs' =>
      if existsb (String.eqb x) seen then Set_values seen xs'
      else x :: Set_values (x :: seen) xs'
  end.

Module Array.

Definition elems (a : loc) : M (list loc) :=
  c <- load a ;;
  match c with
  | ArrayObj ls => ret ls
  | PlaceObj _ => throw TypeError
  end.

Definition get_place (l : loc) : M Place :=
  c <- load l ;;
  match c with
  | PlaceObj p => ret p
  | ArrayObj _ => throw TypeError
  end.

(** The elements of an array, each with the object it refers to. *)
Definition entries (a : loc) : M (list (loc * Place)) :=
  ls <- elems a ;;
  ps <- mapM get_place ls ;;
  ret (combine ls ps).

Definition length (a : loc) : M nat :=
  ls <- elems a ;; ret (List.length ls).

(** [a[i]]: the [i]-th reference, [undefined] out of range. *)
Definition get (a : loc) (i : nat) : M (option loc) :=
  ls <- elems a ;; ret (ls !! i).

(** [[...a]]: a new array holding the same references. *)
Definition spread (a : loc) : M loc :=
  ls <- elems a ;; alloc (ArrayObj ls).

(** [a.filter(pred)]: a new array holding the references whose object
    satisfies [pred]. *)
Definition filter (pred : Place -> bool) (a : loc) : M loc :=
  es <- entries a ;;
  alloc (ArrayObj (List.map fst (List.filter (fun e => pred (snd e)) es))).

(** [a.map(place => ({...}))] for a callback that builds a new object: a
    new array of references to newly allocated objects. *)
Definition map (f : Place -> Place) (a : loc) : M loc :=
  es <- entries a ;;
  ls' <- mapM (fun e => alloc (PlaceObj (f (snd e)))) es ;;
  alloc (ArrayObj ls').

(** [a.map(place => place.field)] for a callback that returns a string:
    the array of strings is kept as a value. *)
Definition map_string (f : Place -> string) (a : loc) : M (list string) :=
  es <- entries a ;; ret (List.map (fun e => f (snd e)) es).

(** [a.sort(cmp)]: sorts [a] in place and returns [a] itself. *)
Definition sort (cmp : Place -> Place -> number) (a : loc) : M loc :=
  es <- entries a ;;
  store a (ArrayObj (List.map fst
    (stable_sort (fun x y => cmp (snd x) (snd y)) es))) ;;;
  ret a.

(** [a.slice(start, end)]: a new array. *)
Definition slice (a : loc) (start end_ : number) : M loc :=
  ls <- elems a ;; alloc (ArrayObj (slice ls start end_)).

(** [a.find(pred)]. *)
Definition find (pred : Place -> bool) (a : loc) : M (option loc) :=
  es <- entries a ;;
  ret (option_map fst (List.find (fun e => pred (snd e)) es)).

End Array.

(** ** [MockDataService] ([mock-data.service.ts]) *)

Module MockDataService.

(** The instance: its field [mockPlaces] refers to the array of places. *)
Record t : Type := { mockPlaces : loc }.

Definition place (id name category description : string) (open_now : bool)
    (image_url : string) (lat lng : R) (address : string) : Place :=
  {| Place.id := id;
     Place.name := name;
     Place.category := category;
     Place.description := description;
     Place.distance_km := Num 0;
     Place.open_now := open_now;
     Place.image_url := image_url;
     Place.location :=
       {| coordinates := {| lat := Num lat; lng := Num lng |};
          address := address |} |}.

(** The object literals of the [mockPlaces] initialiser, in order. *)
Definition fixture : list Place :=
  [ place "rest_001" "Trattoria Alfredo" PlaceCategory.RESTAURANT
      "Authentic Italian pasta, great ambiance and fresh ingredients."
      true "https://cdn.onspotx.ai/spots/alfredo.jpg"
      40.7130 (-74.0050) "123 Main St, New York, NY 10001";
    place "cafe_002" "Blue Bottle Coffee" PlaceCategory.CAFE
      "Artisanal coffee roasters with specialty single-origin beans."
      true "https://cdn.onspotx.ai/spots/blue-bottle.jpg"
      40.7140 (-74.0070) "456 Broadway, New York, NY 10012";
    place "bar_003" "The Rooftop Lounge" PlaceCategory.BAR
      "Upscale cocktail bar with stunning city views."
      false "https://cdn.onspotx.ai/spots/rooftop-lounge.jpg"
      40.7120 (-74.0040) "789 5th Ave, New York, NY 10019";
    place "shop_004" "Central Park Bookstore" PlaceCategory.SHOP
      "Independent bookstore with rare finds and cozy reading nooks."
      true "https://cdn.onspotx.ai/spots/bookstore.jpg"
      40.7150 (-74.0030) "321 Park Ave, New York, NY 10016";
    place "hotel_005" "The Plaza Hotel" PlaceCategory.HOTEL
      "Luxury hotel with world-class amenities and service."
      true "https://cdn.onspotx.ai/spots/plaza-hotel.jpg"
      40.7160 (-74.0080) "768 5th Ave, New York, NY 10019";
    place "attr_006" "Brooklyn Bridge" PlaceCategory.ATTRACTION
      "Historic suspension bridge offering breathtaking views."
      true "https://cdn.onspotx.ai/spots/brooklyn-bridge.jpg"
      40.7061 (-73.9969) "Brooklyn Bridge, New York, NY 10038";
    place "park_007" "Central Park" PlaceCategory.PARK
      "Iconic urban park perfect for walking, jogging, and relaxation."
      true "https://cdn.onspotx.ai/spots/central-park.jpg"
      40.7829 (-73.9654) "Central Park, New York, NY 10024";
    place "hosp_008" "Mount Sinai Hospital" PlaceCategory.HOSPITAL
      "Leading medical center with comprehensive healthcare services."
      true "https://cdn.onspotx.ai/spots/mount-sinai.jpg"
      40.7903 (-73.9503) "1 Gustave L. Levy Pl, New York, NY 10029";
    place "gas_009" "Shell Gas Station" PlaceCategory.GAS_STATION
      "Full-service gas station with convenience store."
      true "https://cdn.onspotx.ai/spots/shell-station.jpg"
      40.7100 (-74.0100) "555 West St, New York, NY 10014";
    place "bank_010" "Chase Bank" PlaceCategory.BANK
      "Full-service bank with ATM and financial advisory services."
      true "https://cdn.onspotx.ai/spots/chase-bank.jpg"
      40.7110 (-74.0020) "999 Wall St, New York, NY 10005";
    place "gym_011" "Equinox Fitness" PlaceCategory.GYM
      "Premium fitness club with state-of-the-art equipment."
      true "https://cdn.onspotx.ai/spots/equinox.jpg"
      40.7170 (-74.0010) "222 Broadway, New York, NY 10038";
    place "pharm_012" "CVS Pharmacy" PlaceCategory.PHARMACY
      "Full-service pharmacy with prescription and over-the-counter medications."
      true "https://cdn.onspotx.ai/spots/cvs-pharmacy.jpg"
      40.7080 (-74.0060) "111 Houston St, New York, NY 10012" ].

(** The constructor: the field initialiser allocates one object per
    literal and then the array that holds them. *)
Definition new : M t :=
  refs <- mapM (fun p => alloc (PlaceObj p)) fixture ;;
  a <- alloc (ArrayObj refs) ;;
  ret {| mockPlaces := a |}.

Definition getAllPlaces (this : t) : M loc :=
  emit (RepositoryCall "getAllPlaces") ;;;
  Array.spread (mockPlaces this).

Definition getPlacesByCategory (this : t) (category : string) : M loc :=
  emit (RepositoryCall "getPlacesByCategory") ;;;
  Array.filter
    (fun place => String.eqb (JS.toLowerCase (Place.category place))
                             (JS.toLowerCase category))
    (mockPlaces this).

Definition getPlaceById (this : t) (id : string) : M (option loc) :=
  emit (RepositoryCall "getPlaceById") ;;;
  Array.find (fun place => String.eqb (Place.id place) id) (mockPlaces this).

(** The optional [filters] argument of [queryPlaces]. *)
Record filters_t : Type := {
  category : option string;
  openNow : option bool;
  limit : option number;
}.

Definition queryPlaces (this : t) (filters : option filters_t) : M loc :=
  emit (RepositoryCall "queryPlaces") ;;;
  results <- Array.spread (mockPlaces this) ;;
  (* Apply category filter *)
  results <-
    match filters with
    | Some f =>
        match category f with
        | Some c =>
            if negb (String.eqb c EmptyString) then
              Array.filter
                (fun place => String.eqb (JS.toLowerCase (Place.category place))
                                         (JS.toLowerCase c))
                results
            else ret results
        | None => ret results
        end
    | None => ret results
    end ;;
  (* Apply open now filter *)
  results <-
    match filters with
    | Some f =>
        match openNow f with
        | Some o =>
            Array.filter (fun place => Bool.eqb (Place.open_now place) o) results
        | None => ret results
        end
    | None => ret results
    end ;;
  (* Apply limit *)
  results <-
    match filters with
    | Some f =>
        match limit f with
        | Some l =>
            if truthy l && JS.gt l (Num 0) then Array.slice results (Num 0) l
            else ret results
        | None => ret results
        end
    | None => ret results
    end ;;
  ret results.

Definition getAvailableCategories (this : t) : M (list string) :=
  emit (RepositoryCall "getAvailableCategories") ;;;
  categories <- Array.map_string Place.category (mockPlaces this) ;;
  ret (Set_values [] categories).

Record statistics_t : Type := {
  totalPlaces : nat;
  categoriesCount : nat;
  openPlaces : nat;
  closedPlaces : nat;
}.

Definition getDataStatistics (this : t) : M statistics_t :=
  emit (RepositoryCall "getDataStatistics") ;;;
  total <- Array.length (mockPlaces this) ;;
  categories <- getAvailableCategories this ;;
  open <- Array.filter (fun place => Place.open_now place) (mockPlaces this) ;;
  nopen <- Array.length open ;;
  closed <- Array.filter (fun place => negb (Place.open_now place)) (mockPlaces this) ;;
  nclosed <- Array.length closed ;;
  ret {| totalPlaces := total;
         categoriesCount := List.length categories;
         openPlaces := nopen;
         closedPlaces := nclosed |}.

End MockDataService.
Abbreviation MockDataService := MockDataService.t.

(** ** [DiscoveryService] ([discovery.service.ts]) *)

Module DiscoveryService.

Local Open Scope js_scope.

(** What [ConfigService.get] finds under the three [discovery.*] keys. *)
Record ConfigService : Type := {
  discovery_defaultRadius : option number;
  discovery_maxRadius : option number;
  discovery_maxResults : option number;
}.

Definition ConfigService_get (v : option number) (defaultValue : number) : number :=
  match v with Some x => x | None => defaultValue end.

Record t : Type := {
  mockDataService : MockDataService;
  defaultRadius : number;
  maxRadius : number;
  maxResults : number;
}.

Definition new (mockDataService : MockDataService) (configService : ConfigService) : t :=
  {| mockDataService := mockDataService;
     defaultRadius := ConfigService_get (discovery_defaultRadius configService) (Num 5.0);
     maxRadius := ConfigService_get (discovery_maxRadius configService) (Num 50.0);
     maxResults := ConfigService_get (discovery_maxResults configService) (Num 50) |}.

Definition validateQuery (this : t) (query : DiscoveryQuery) : M unit :=
  (if negb (DistanceUtil.isValidLatitude (DiscoveryQuery.latitude query)) then
     throw {| message := [Str "Invalid latitude: ";
                          Val (DiscoveryQuery.latitude query);
                          Str ". Must be between -90 and 90."] |}
   else ret tt) ;;;
  (if negb (DistanceUtil.isValidLongitude (DiscoveryQuery.longitude query)) then
     throw {| message := [Str "Invalid longitude: ";
                          Val (DiscoveryQuery.longitude query);
                          Str ". Must be between -180 and 180."] |}
   else ret tt) ;;;
  (* query.radius && (query.radius < 0.1 || query.radius > this.maxRadius) *)
  match DiscoveryQuery.radius query with
  | Some radius =>
      if truthy radius && ((radius <? Num 0.1) || (radius >? maxRadius this)) then
        throw {| message := [Str "Invalid radius: "; Val radius;
                             Str ". Must be between 0.1 and ";
                             Val (maxRadius this); Str " km."] |}
      else ret tt
  | None => ret tt
  end ;;;
  (* query.limit && (query.limit < 1 || query.limit > this.maxResults) *)
  match DiscoveryQuery.limit query with
  | Some limit =>
      if truthy limit && ((limit <? Num 1) || (limit >? maxResults this)) then
        throw {| message := [Str "Invalid limit: "; Val limit;
                             Str ". Must be between 1 and ";
                             Val (maxResults this); Str "."] |}
      else ret tt
  | None => ret tt
  end.

Definition calculateDistances (this : t) (places : loc) (centerPoint : Coordinates) : M loc :=
  Array.map
    (fun place =>
       Place.with_distance_km place
         (DistanceUtil.calculateDistance centerPoint (Place.location place)))
    places.

Definition filterByRadius (this : t) (places : loc) (radius : number) : M loc :=
  Array.filter (fun place => Place.distance_km place <=? radius) places.

Definition sortByDistance (this : t) (places : loc) : M loc :=
  Array.sort (fun a b => Place.distance_km a - Place.distance_km b) places.

Definition discoverPlaces (this : t) (query : DiscoveryQuery) : M DiscoveryResponse :=
  startTime <- Date_now ;;
  try_catch
    (Logger.log [Str "Starting discovery query: "; Json query] ;;;
     (* Validate query parameters *)
     validateQuery this query ;;;
     (* Set defaults for optional parameters *)
     let radius := JS.or_else (DiscoveryQuery.radius query) (defaultRadius this) in
     let limit := Math.min (JS.or_else (DiscoveryQuery.limit query) (Num 10))
                           (maxResults this) in
     (* Get base data from mock service *)
     allPlaces <-
       (match DiscoveryQuery.category query with
        | Some category =>
            if negb (String.eqb category EmptyString) then
              MockDataService.getPlacesByCategory (mockDataService this) category
            else MockDataService.getAllPlaces (mockDataService this)
        | None => MockDataService.getAllPlaces (mockDataService this)
        end) ;;
     (* Filter places within radius and calculate distances *)
     let centerPoint := {| lat := DiscoveryQuery.latitude query;
                           lng := DiscoveryQuery.longitude query |} in
     placesWithDistance <- calculateDistances this allPlaces centerPoint ;;
     placesInRadius <- filterByRadius this placesWithDistance radius ;;
     (* Sort by distance (closest first) *)
     sortedPlaces <- sortByDistance this placesInRadius ;;
     (* Apply limit *)
     limitedResults <- Array.slice sortedPlaces (Num 0) limit ;;
     (* Build response *)
     total <- Array.length limitedResults ;;
     now <- Date_now ;;
     timestamp <- Date_now ;;
     let response :=
       {| DiscoveryResponse.results := limitedResults;
          DiscoveryResponse.total := total;
          DiscoveryResponse.query :=
            {| DiscoveryQuery.latitude := DiscoveryQuery.latitude query;
               DiscoveryQuery.longitude := DiscoveryQuery.longitude query;
               DiscoveryQuery.radius := Some radius;
               DiscoveryQuery.category := DiscoveryQuery.category query;
               DiscoveryQuery.limit := Some limit |};
          DiscoveryResponse.metadata :=
            {| DiscoveryResponse.processing_time_ms := now - startTime;
               DiscoveryResponse.timestamp := timestamp |} |} in
     n <- Array.length limitedResults ;;
     Logger.log [Str "Discovery completed: "; Count n; Str " results in ";
                 Val (now - startTime); Str "ms"] ;;;
     ret response)
    (fun error =>
       Logger.error (Str "Discovery failed: " :: message error) ;;;
       throw error).

Definition getAvailableCategories (this : t) : M (list string) :=
  MockDataService.getAvailableCategories (mockDataService this).

Record serviceStatistics_t : Type := {
  dataStats : MockDataService.statistics_t;
  config : number * number * number;  (* defaultRadius, maxRadius, maxResults *)
}.

Definition getServiceStatistics (this : t) : M serviceStatistics_t :=
  stats <- MockDataService.getDataStatistics (mockDataService this) ;;
  ret {| dataStats := stats;
         config := (defaultRadius this, maxRadius this, maxResults this) |}.

Definition findNearestPlace (this : t) (latitude longitude : number)
    (category : option string) : M (option loc) :=
  let query :=
    {| DiscoveryQuery.latitude := latitude;
       DiscoveryQuery.longitude := longitude;
       DiscoveryQuery.radius := Some (maxRadius this);
       DiscoveryQuery.category := category;
       DiscoveryQuery.limit := Some (Num 1) |} in
  response <- discoverPlaces this query ;;
  n <- Array.length (DiscoveryResponse.results response) ;;
  if (0 <? n)%nat then Array.get (DiscoveryResponse.results response) 0
  else ret None.

End DiscoveryService.
Abbreviation DiscoveryService := DiscoveryService.t.

(** ** [DistanceUtil.sortByDistance] ([distance.util.ts]) *)

(** [DistanceUtil.sortByDistance], on objects of a type
    [T] that have a [location].  The object [{...place, distance_km: d}] that
    [map] builds is the pair of [place], for the fields that are copied, and
    [d]; the array that [map] returns is new, and [sort] orders it in place,
    so the argument array and its objects are only read. *)
Definition DistanceUtil_sortByDistance {T : Type} (location : T -> Coordinates)
    (places : list T) (referencePoint : Coordinates) : list (T * number) :=
  stable_sort (fun a b => JS.sub (snd a) (snd b))
    (List.map
       (fun place =>
          (place, DistanceUtil.calculateDistance referencePoint (location place)))
       places).

(** ** [DiscoveryController] ([discovery.controller.ts]) *)

(** How a template literal turns the values substituted into it into text:
    the conversions of the language, which are left open. *)
Record Rendering : Type := {
  number_toString : number -> string;
  count_toString : nat -> string;
  JSON_stringify : DiscoveryQuery -> string;
}.

Definition render (r : Rendering) (f : fragment) : string :=
  match f with
  | Str s => s
  | Val n => number_toString r n
  | Count n => count_toString r n
  | Json q => JSON_stringify r q
  end.

(** The string that a message is. *)
Fixpoint text (r : Rendering) (msg : list fragment) : string :=
  match msg with
  | [] => EmptyString
  | f :: msg' => String.append (render r f) (text r msg')
  end.

(** [String.prototype.includes]. *)
Definition includes (s searchString : string) : bool :=
  match String.index 0 searchString s with
  | Some _ => true
  | None => false
  end.

Module HttpStatus.
Definition BAD_REQUEST : nat := 400.
Definition INTERNAL_SERVER_ERROR : nat := 500.
End HttpStatus.

(** [new HttpException({statusCode, message, error}, status)]. *)
Module HttpException.
Record t : Type := {
  statusCode : nat;
  message : list fragment;
  error : string;
  status : nat;
}.
End HttpException.
Abbreviation HttpException := HttpException.t.

Module DiscoveryController.

(** How a handler ends: with the value it returns, or with the
    [HttpException] it throws. *)
Inductive reply (A : Type) : Type :=
| Return (a : A)
| ThrowHttp (e : HttpException).
Arguments Return {A} a.
Arguments ThrowHttp {A} e.

Definition Handler (A : Type) : Type := World -> reply A * World.

Record t : Type := { discoveryService : DiscoveryService }.

Definition internal_server_error (msg : string) : HttpException :=
  {| HttpException.statusCode := HttpStatus.INTERNAL_SERVER_ERROR;
     HttpException.message := [Str msg];
     HttpException.error := "Internal Server Error";
     HttpException.status := HttpStatus.INTERNAL_SERVER_ERROR |}.

(** [GET /discover].  A [DiscoveryQueryDto] has the fields of a
    [DiscoveryQuery]; [r] gives the text of [error.message]. *)
Definition discoverPlaces (r : Rendering) (this : t) (queryDto : DiscoveryQuery) :
    Handler DiscoveryResponse :=
  fun w =>
    match
      run (Logger.log [Str "Discovery request: "; Json queryDto] ;;;
           (* Convert DTO to internal query format *)
           let query :=
             {| DiscoveryQuery.latitude := DiscoveryQuery.latitude queryDto;
                DiscoveryQuery.longitude := DiscoveryQuery.longitude queryDto;
                DiscoveryQuery.radius := DiscoveryQuery.radius queryDto;
                DiscoveryQuery.category := DiscoveryQuery.category queryDto;
                DiscoveryQuery.limit := DiscoveryQuery.limit queryDto |} in
           (* Execute discovery *)
           response <- DiscoveryService.discoverPlaces (discoveryService this) query ;;
           n <- Array.length (DiscoveryResponse.results response) ;;
           Logger.log [Str "Discovery response: "; Count n; Str " places found"] ;;;
           ret response) w
    with
    | (Ok response, w') => (Return response, w')
    | (Throw error, w') =>
        let w'' := add_event w' (LoggerError (Str "Discovery failed: " :: message error)) in
        if includes (text r (message error)) "Invalid" then
          (ThrowHttp
             {| HttpException.statusCode := HttpStatus.BAD_REQUEST;
                HttpException.message := message error;
                HttpException.error := "Bad Request";
                HttpException.status := HttpStatus.BAD_REQUEST |}, w'')
        else
          (ThrowHttp
             (internal_server_error "An error occurred while discovering places"), w'')
    end.

(** [GET /discover/categories]: [{ categories, total: categories.length }]. *)
Record categories_t : Type := { categories : list string; total : nat }.

Definition getCategories (this : t) : Handler categories_t :=
  fun w =>
    match
      run (categories <- DiscoveryService.getAvailableCategories (discoveryService this) ;;
           ret {| categories := categories; total := List.length categories |}) w
    with
    | (Ok result, w') => (Return result, w')
    | (Throw error, w') =>
        (ThrowHttp
           (internal_server_error "An error occurred while retrieving categories"),
         add_event w' (LoggerError (Str "Failed to get categories: " :: message error)))
    end.

(** [GET /discover/stats]. *)
Definition getStatistics (this : t) : Handler DiscoveryService.serviceStatistics_t :=
  fun w =>
    match run (DiscoveryService.getServiceStatistics (discoveryService this)) w with
    | (Ok result, w') => (Return result, w')
    | (Throw error, w') =>
        (ThrowHttp
           (internal_server_error "An error occurred while retrieving statistics"),
         add_event w' (LoggerError (Str "Failed to get statistics: " :: message error)))
    end.

(** [GET /discover/nearest]: [{ place }]; every error becomes a 500. *)
Record nearest_t : Type := { place : option loc }.

Definition findNearest (this : t) (latitude longitude : number)
    (category : option string) : Handler nearest_t :=
  fun w =>
    match
      run (place <- DiscoveryService.findNearestPlace (discoveryService this)
                      latitude longitude category ;;
           ret {| place := place |}) w
    with
    | (Ok result, w') => (Return result, w')
    | (Throw error, w') =>
        (ThrowHttp
           (internal_server_error "An error occurred while finding nearest place"),
         add_event w'
           (LoggerError (Str "Failed to find nearest place: " :: message error)))
    end.

End DiscoveryController.
Abbreviation DiscoveryController := DiscoveryController.t.

(** ** Reading the store, and the list-level view of the pipeline *)

(** The [Place] objects that the array at [a] refers to in the store [h]. *)
Definition place_at (h : list cell) (l : loc) : option Place :=
  match h !! l with
  | Some (PlaceObj p) => Some p
  | _ => None
  end.

Fixpoint places_at (h : list cell) (ls : list loc) : option (list Place) :=
  match ls with
  | [] => Some []
  | l :: ls' =>
      match place_at h l, places_at h ls' with
      | Some p, Some ps => Some (p :: ps)
      | _, _ => None
      end
  end.

Definition array_at (h : list cell) (a : loc) : option (list loc) :=
  match h !! a with
  | Some (ArrayObj ls) => Some ls
  | _ => None
  end.

Definition places_of (h : list cell) (a : loc) : option (list Place) :=
  match array_at h a with
  | Some ls => places_at h ls
  | None => None
  end.

(** [a] is an array whose entries are the references and objects [es]. *)
Definition is_array (h : list cell) (a : loc) (es : list (loc * Place)) : Prop :=
  h !! a = Some (ArrayObj (List.map fst es)) /\
  Forall (fun e => h !! fst e = Some (PlaceObj (snd e))) es.

(** The cells below [n] are the same in [h] and [h']. *)
Definition unchanged_below (n : nat) (h h' : list cell) : Prop :=
  forall l, (l < n)%nat -> h' !! l = h !! l.

(** The world in which the repository has been constructed from an empty
    store: the twelve fixture objects, then the array that holds them. *)
Definition initial_heap : list cell :=
  List.map PlaceObj MockDataService.fixture ++
  [ArrayObj (seq 0 (List.length MockDataService.fixture))].

Definition empty_world (clock : nat -> number) : World :=
  {| heap := []; events := []; ticks := 0; clock := clock |}.

Definition initial_world (clock : nat -> number) : World :=
  {| heap := initial_heap; events := []; ticks := 0; clock := clock |}.

Definition initial_repository : MockDataService :=
  {| MockDataService.mockPlaces := List.length MockDataService.fixture |}.

(** The service under the default configuration (no [discovery.*] key set). *)
Definition default_service : DiscoveryService :=
  DiscoveryService.new initial_repository
    {| DiscoveryService.discovery_defaultRadius := None;
       DiscoveryService.discovery_maxRadius := None;
       DiscoveryService.discovery_maxResults := None |}.

Definition repository_calls (w : World) : list string :=
  flat_map (fun e => match e with RepositoryCall m => [m] | _ => [] end) (events w).

(** The pipeline of [discoverPlaces] on the list of places that the
    repository array refers to. *)
Module Pipeline.

Definition matches_category (category : string) (place : Place) : bool :=
  String.eqb (JS.toLowerCase (Place.category place)) (JS.toLowerCase category).

Definition candidates (category : option string) (places : list Place) : list Place :=
  match category with
  | Some c =>
      if negb (String.eqb c EmptyString) then List.filter (matches_category c) places
      else places
  | None => places
  end.

Definition annotate (centerPoint : Coordinates) (place : Place) : Place :=
  Place.with_distance_km place
    (DistanceUtil.calculateDistance centerPoint (Place.location place)).

Definition within (radius : number) (place : Place) : bool :=
  JS.le (Place.distance_km place) radius.

Definition by_distance (a b : Place) : number :=
  JS.sub (Place.distance_km a) (Place.distance_km b).

Definition center (query : DiscoveryQuery) : Coordinates :=
  {| lat := DiscoveryQuery.latitude query; lng := DiscoveryQuery.longitude query |}.

Definition radius (this : DiscoveryService) (query : DiscoveryQuery) : number :=
  JS.or_else (DiscoveryQuery.radius query) (DiscoveryService.defaultRadius this).

Definition limit (this : DiscoveryService) (query : DiscoveryQuery) : number :=
  Math.min (JS.or_else (DiscoveryQuery.limit query) (Num 10))
           (DiscoveryService.maxResults this).

Definition sorted_in_radius (this : DiscoveryService) (query : DiscoveryQuery)
    (places : list Place) : list Place :=
  stable_sort by_distance
    (List.filter (within (radius this query))
       (List.map (annotate (center query))
          (candidates (DiscoveryQuery.category query) places))).

Definition discover (this : DiscoveryService) (query : DiscoveryQuery)
    (places : list Place) : list Place :=
  slice (sorted_in_radius this query places) (Num 0) (limit this query).

End Pipeline.

(** [distance_km] is a number, and non-decreasing along the list. *)
Definition distance_le (a b : Place) : Prop :=
  JS.le (Place.distance_km a) (Place.distance_km b) = true.

(** A place whose [distance_km] is a number (not [NaN]). *)
Definition measured (p : Place) : Prop := exists d, Place.distance_km p = Num d.

(** The first fragment of an error message starts with [field]. *)
Definition message_starts (e : Error) (prefix : string) : Prop :=
  match message e with
  | Str s :: _ => s = prefix
  | _ => False
  end.

(** An [InvalidArgument] error: one whose message the controller maps to a
    400 response, [error.message.includes('Invalid')]. *)
Definition InvalidArgument (e : Error) (field : string) : Prop :=
  message_starts e (String.append "Invalid " (String.append field ": ")).

(** A query passes validation, or is rejected with the error [e]: whatever
    the world, [validateQuery] returns, or throws [e], and leaves the world
    as it is. *)
Definition validates (this : DiscoveryService) (query : DiscoveryQuery) : Prop :=
  forall w, run (DiscoveryService.validateQuery this query) w = (Ok tt, w).

Definition rejects (this : DiscoveryService) (query : DiscoveryQuery) (e : Error) : Prop :=
  forall w, run (DiscoveryService.validateQuery this query) w = (Throw e, w).

(** The repository method that [discoverPlaces] calls for a category. *)
Definition repository_method (category : option string) : string :=
  match category with
  | Some c => if negb (String.eqb c EmptyString) then "getPlacesByCategory"
              else "getAllPlaces"
  | None => "getAllPlaces"
  end.

(** The value of [calculateDistance] on numbers that are not [NaN]: the
    haversine term [a] of two points given in degrees, and the distance
    rounded to two decimals. *)
Definition hav (la1 lo1 la2 lo2 : R) : R :=
  (sin ((la2 - la1) * (PI / 180) / 2) * sin ((la2 - la1) * (PI / 180) / 2) +
   cos (la1 * (PI / 180)) * cos (la2 * (PI / 180)) *
   sin ((lo2 - lo1) * (PI / 180) / 2) * sin ((lo2 - lo1) * (PI / 180) / 2))%R.

Definition distanceR (la1 lo1 la2 lo2 : R) : R :=
  let a := hav la1 lo1 la2 lo2 in
  (IZR (Zfloor (6371 * (2 * Math.atan2R (sqrt a) (sqrt (1 - a))) * 100 + / 2))
   / 100)%R.

(** The query that [findNearestPlace] builds. *)
Definition nearest_query (this : DiscoveryService) (latitude longitude : number)
    (category : option string) : DiscoveryQuery :=
  {| DiscoveryQuery.latitude := latitude;
     DiscoveryQuery.longitude := longitude;
     DiscoveryQuery.radius := Some (DiscoveryService.maxRadius this);
     DiscoveryQuery.category := category;
     DiscoveryQuery.limit := Some (Num 1) |}.

(** The [openNow] filter of [queryPlaces] on a list of places. *)
Definition open_filter (openNow : option bool) (places : list Place) : list Place :=
  match openNow with
  | Some o => List.filter (fun place => Bool.eqb (Place.open_now place) o) places
  | None => places
  end.

(** The conjunction of the category and [openNow] conditions of
    [queryPlaces] on one place. *)
Definition query_matches (filters : MockDataService.filters_t) (place : Place) : bool :=
  match MockDataService.category filters with
  | Some c =>
      if negb (String.eqb c EmptyString) then Pipeline.matches_category c place else true
  | None => true
  end &&
  match MockDataService.openNow filters with
  | Some o => Bool.eqb (Place.open_now place) o
  | None => true
  end.

(** A number within [lo .. hi], and an optional number that the guard
    [x && (x < lo || x > hi)] lets through: absent, [NaN], [0], or within
    [lo .. hi]. *)
Definition in_range (lo hi : R) (x : number) : Prop :=
  exists a, x = Num a /\ (lo <= a <= hi)%R.

Definition absent_or_in_range (lo hi : R) (x : option number) : Prop :=
  match x with
  | None => True
  | Some NaN => True
  | Some (Num a) => a = 0%R \/ (lo <= a <= hi)%R
  end.

(** The four conditions of [validateQuery], for a configuration in which
    [maxRadius] and [maxResults] are the numbers [maxR] and [maxN]. *)
Definition latitude_ok (query : DiscoveryQuery) : Prop :=
  in_range (-90) 90 (DiscoveryQuery.latitude query).

Definition longitude_ok (query : DiscoveryQuery) : Prop :=
  in_range (-180) 180 (DiscoveryQuery.longitude query).

Definition radius_ok (maxR : R) (query : DiscoveryQuery) : Prop :=
  absent_or_in_range 0.1 maxR (DiscoveryQuery.radius query).

Definition limit_ok (maxN : R) (query : DiscoveryQuery) : Prop :=
  absent_or_in_range 1 maxN (DiscoveryQuery.limit query).

(** [a] has a distance that is a number and at most that of [b]. *)
Definition nearer {T : Type} (a b : T * number) : Prop := JS.le (snd a) (snd b) = true.

(** A point whose latitude and longitude are numbers. *)
Definition numeric (c : Coordinates) : Prop := isNaN (lat c) || isNaN (lng c) = false.

(** A place whose [distance_km] is the number [d]. *)
Definition at_distance (d : R) (place : Place) : bool :=
  JS.strict_eq (Place.distance_km place) (Num d).

(** What [discoverPlaces] makes of a category: an empty string is no
    category, and the case of letters is ignored. *)
Definition category_key (category : option string) : option string :=
  match category with
  | Some c => if negb (String.eqb c EmptyString) then Some (JS.toLowerCase c) else None
  | None => None
  end.

(** Queries used as concrete inputs below. *)
Module Examples.
Definition steady_clock : nat -> number := fun _ => Num 0.

Definition rest_001 : Place :=
  MockDataService.place "rest_001" "Trattoria Alfredo" PlaceCategory.RESTAURANT
    "Authentic Italian pasta, great ambiance and fresh ingredients."
    true "https://cdn.onspotx.ai/spots/alfredo.jpg"
    40.7130 (-74.0050) "123 Main St, New York, NY 10001".

(** [{latitude: 40.7128, longitude: -74.0060, limit: 0}] *)
Definition limit_zero : DiscoveryQuery :=
  {| DiscoveryQuery.latitude := Num 40.7128;
     DiscoveryQuery.longitude := Num (-74.0060);
     DiscoveryQuery.radius := None;
     DiscoveryQuery.category := None;
     DiscoveryQuery.limit := Some (Num 0) |}.

(** [{latitude: 40.7230, longitude: -74.0050, radius: 0, category: 'restaurant'}] *)
Definition radius_zero : DiscoveryQuery :=
  {| DiscoveryQuery.latitude := Num 40.7230;
     DiscoveryQuery.longitude := Num (-74.0050);
     DiscoveryQuery.radius := Some (Num 0);
     DiscoveryQuery.category := Some "restaurant"%string;
     DiscoveryQuery.limit := None |}.

(** [{latitude: 40.7130, longitude: -74.0050, category: 'restaurant', limit: 0}] *)
Definition limit_zero_restaurant : DiscoveryQuery :=
  {| DiscoveryQuery.latitude := Num 40.7130;
     DiscoveryQuery.longitude := Num (-74.0050);
     DiscoveryQuery.radius := None;
     DiscoveryQuery.category := Some "restaurant"%string;
     DiscoveryQuery.limit := Some (Num 0) |}.

(** [{latitude: 40.7128, longitude: -74.0060, category: 'invalid_category'}] *)
Definition invalid_category : DiscoveryQuery :=
  {| DiscoveryQuery.latitude := Num 40.7128;
     DiscoveryQuery.longitude := Num (-74.0060);
     DiscoveryQuery.radius := None;
     DiscoveryQuery.category := Some "invalid_category"%string;
     DiscoveryQuery.limit := None |}.

(** [{latitude: 40.7128, longitude: -74.0060, limit: 3}]: ten of the twelve
    places lie within the default radius of this point. *)
Definition limit_three : DiscoveryQuery :=
  {| DiscoveryQuery.latitude := Num 40.7128;
     DiscoveryQuery.longitude := Num (-74.0060);
     DiscoveryQuery.radius := None;
     DiscoveryQuery.category := None;
     DiscoveryQuery.limit := Some (Num 3) |}.

(** The string with the given bytes. *)
Definition of_bytes (bytes : list N) : string :=
  fold_right (fun b s => String (ascii_of_N b) s) EmptyString bytes.
End Examples.

(** A controller over the default service, and conversions to text that
    show every value as [?], used as concrete inputs below. *)
Module ControllerExamples.
Definition rendering : Rendering :=
  {| number_toString := fun _ => "?"%string;
     count_toString := fun _ => "?"%string;
     JSON_stringify := fun _ => "?"%string |}.

Definition controller : DiscoveryController :=
  {| DiscoveryController.discoveryService := default_service |}.
End ControllerExamples.

(* ================================================================= *)
(** * Properties *)

(** ** Numbers *)

Section Numbers.
Local Open Scope R_scope.

Lemma le_true (x y : number) :
  JS.le x y = true <-> exists a b, x = Num a /\ y = Num b /\ a <= b.
Proof.
  split.
  - destruct x as [|a], y as [|b]; cbn; try discriminate.
    destruct (Rle_dec a b); [eauto | discriminate].
  - intros (a & b & -> & -> & H). cbn. destruct (Rle_dec a b); [reflexivity | contradiction].
Qed.

Lemma lt_true (x y : number) :
  JS.lt x y = true <-> exists a b, x = Num a /\ y = Num b /\ a < b.
Proof.
  split.
  - destruct x as [|a], y as [|b]; cbn; try discriminate.
    destruct (Rlt_dec a b); [eauto | discriminate].
  - intros (a & b & -> & -> & H). cbn. destruct (Rlt_dec a b); [reflexivity | contradiction].
Qed.

Lemma le_Num (a b : R) : JS.le (Num a) (Num b) = true <-> a <= b.
Proof.
  rewrite le_true. split.
  - intros (a' & b' & [= <-] & [= <-] & H). exact H.
  - eauto.
Qed.

Lemma lt_Num (a b : R) : JS.lt (Num a) (Num b) = true <-> a < b.
Proof.
  rewrite lt_true. split.
  - intros (a' & b' & [= <-] & [= <-] & H). exact H.
  - eauto.
Qed.

Lemma le_Num_false (a b : R) : JS.le (Num a) (Num b) = false <-> b < a.
Proof.
  cbn. destruct (Rle_dec a b); split; intros; try discriminate; try reflexivity; lra.
Qed.

Lemma lt_Num_false (a b : R) : JS.lt (Num a) (Num b) = false <-> b <= a.
Proof.
  cbn. destruct (Rlt_dec a b); split; intros; try discriminate; try reflexivity; lra.
Qed.

Lemma truthy_Num (a : R) : truthy (Num a) = true <-> a <> 0.
Proof.
  cbn. destruct (Req_dec_T a 0); split; intros; try discriminate; try reflexivity; congruence.
Qed.

Lemma truthy_zero : truthy (Num 0) = false.
Proof. cbn. destruct (Req_dec_T 0 0); [reflexivity | contradiction]. Qed.

Lemma strict_eq_true (x y : number) :
  JS.strict_eq x y = true <-> exists a, x = Num a /\ y = Num a.
Proof.
  split.
  - destruct x as [|a], y as [|b]; cbn; try discriminate.
    destruct (Req_dec_T a b) as [->|]; [eauto | discriminate].
  - intros (a & -> & ->). cbn. destruct (Req_dec_T a a); [reflexivity | contradiction].
Qed.

Lemma div_Num (a b : R) : b <> 0 -> JS.div (Num a) (Num b) = Num (a / b).
Proof. intros H. cbn. destruct (Req_dec_T b 0); [contradiction | reflexivity]. Qed.

Lemma sqrt_Num (a : R) : 0 <= a -> Math.sqrt (Num a) = Num (sqrt a).
Proof. intros H. cbn. destruct (Rlt_dec a 0); [lra | reflexivity]. Qed.

End Numbers.

(** ** Strings *)

Section Strings.

(** [toLowerCase] on the letters of the fixture, on the Kelvin sign U+212A
    (which becomes [k]), on a capital sigma at the end of a word, and on
    U+0130, which becomes two code points. *)
Lemma toLowerCase_samples :
  JS.toLowerCase "Gas_Station" = "gas_station"%string /\
  JS.toLowerCase (String.append "ban" (Examples.of_bytes [0xE2; 0x84; 0xAA]%N))
    = "bank"%string /\
  JS.toLowerCase (Examples.of_bytes [0xCE; 0x9F; 0xCE; 0x94; 0xCE; 0x9F; 0xCE; 0xA3]%N)
    = Examples.of_bytes [0xCE; 0xBF; 0xCE; 0xB4; 0xCE; 0xBF; 0xCF; 0x82]%N /\
  JS.toLowerCase (Examples.of_bytes [0xC4; 0xB0]%N)
    = Examples.of_bytes [0x69; 0xCC; 0x87]%N.
Proof. vm_compute. repeat split. Qed.

(** A category that differs from [bank] by more than the case of an ASCII
    letter and still selects the bank. *)
Lemma candidates_kelvin_sign :
  List.map Place.id
    (Pipeline.candidates
       (Some (String.append "ban" (Examples.of_bytes [0xE2; 0x84; 0xAA]%N)))
       MockDataService.fixture) = ["bank_010"%string].
Proof.
  unfold Pipeline.candidates.
  assert (Hne : negb (String.eqb (String.append "ban" (Examples.of_bytes [0xE2; 0x84; 0xAA]%N))
                                 EmptyString) = true) by reflexivity.
  rewrite Hne. reflexivity.
Qed.

End Strings.

(** ** [DistanceUtil] *)

Section Distance.
Local Open Scope R_scope.

Lemma add_Num (a b : R) : JS.add (Num a) (Num b) = Num (a + b).
Proof. reflexivity. Qed.

Lemma sub_Num (a b : R) : JS.sub (Num a) (Num b) = Num (a - b).
Proof. reflexivity. Qed.

Lemma mul_Num (a b : R) : JS.mul (Num a) (Num b) = Num (a * b).
Proof. reflexivity. Qed.

Lemma isValidLatitude_true (x : number) :
  DistanceUtil.isValidLatitude x = true <-> exists a, x = Num a /\ -90 <= a <= 90.
Proof.
  unfold DistanceUtil.isValidLatitude, JS.ge. split.
  - destruct x as [|a]; [discriminate|]. cbn [isNaN negb andb].
    intros [H1 H2]%andb_prop. apply le_Num in H1, H2. eauto.
  - intros (a & -> & H1 & H2). cbn [isNaN negb andb].
    apply andb_true_intro; split; apply le_Num; assumption.
Qed.

Lemma isValidLongitude_true (x : number) :
  DistanceUtil.isValidLongitude x = true <-> exists a, x = Num a /\ -180 <= a <= 180.
Proof.
  unfold DistanceUtil.isValidLongitude, JS.ge. split.
  - destruct x as [|a]; [discriminate|]. cbn [isNaN negb andb].
    intros [H1 H2]%andb_prop. apply le_Num in H1, H2. eauto.
  - intros (a & -> & H1 & H2). cbn [isNaN negb andb].
    apply andb_true_intro; split; apply le_Num; assumption.
Qed.

Lemma isValidCoordinates_true (c : Coordinates) :
  DistanceUtil.isValidCoordinates c = true <->
  exists la lo, c = {| lat := Num la; lng := Num lo |} /\
                -90 <= la <= 90 /\ -180 <= lo <= 180.
Proof.
  unfold DistanceUtil.isValidCoordinates. rewrite andb_true_iff.
  rewrite isValidLatitude_true, isValidLongitude_true. destruct c as [x y]; cbn.
  split.
  - intros [(la & -> & Hla) (lo & -> & Hlo)]. exists la, lo. auto.
  - intros (la & lo & [= -> ->] & Hla & Hlo). split; eexists; split; eauto.
Qed.

Lemma hav_sym (la1 lo1 la2 lo2 : R) : hav la1 lo1 la2 lo2 = hav la2 lo2 la1 lo1.
Proof.
  unfold hav.
  replace ((la1 - la2) * (PI / 180) / 2) with (- ((la2 - la1) * (PI / 180) / 2)) by lra.
  replace ((lo1 - lo2) * (PI / 180) / 2) with (- ((lo2 - lo1) * (PI / 180) / 2)) by lra.
  rewrite !sin_neg. ring.
Qed.

Lemma cos_lat_nonneg (la : R) : -90 <= la <= 90 -> 0 <= cos (la * (PI / 180)).
Proof.
  intros H. pose proof PI_RGT_0 as HPI.
  apply cos_ge_0; nra.
Qed.

(** For latitudes in range the haversine term lies in [[0, 1]], so neither
    square root of [calculateDistance] is taken of a negative number. *)
Lemma hav_bounds (la1 lo1 la2 lo2 : R) :
  -90 <= la1 <= 90 -> -90 <= la2 <= 90 -> 0 <= hav la1 lo1 la2 lo2 <= 1.
Proof.
  intros H1 H2. unfold hav.
  pose proof (cos_lat_nonneg _ H1) as C1. pose proof (cos_lat_nonneg _ H2) as C2.
  set (u := (la2 - la1) * (PI / 180) / 2).
  set (v := (lo2 - lo1) * (PI / 180) / 2).
  set (p1 := la1 * (PI / 180)) in *. set (p2 := la2 * (PI / 180)) in *.
  pose proof (sin2_cos2 v) as Hv. unfold Rsqr in Hv.
  pose proof (cos_2a_sin u) as Hu.
  replace (2 * u) with (p2 - p1) in Hu by (unfold u, p1, p2; lra).
  rewrite cos_minus in Hu.
  pose proof (cos_plus p2 p1) as Hp.
  pose proof (COS_bound (p2 + p1)) as [_ Hb].
  assert (0 <= sin v * sin v) by nra.
  assert (sin v * sin v <= 1) by nra.
  assert (0 <= sin u * sin u) by nra.
  assert (0 <= cos p1 * cos p2) by nra.
  split.
  - nra.
  - assert (cos p1 * cos p2 * sin v * sin v <= cos p1 * cos p2) by nra.
    nra.
Qed.

Lemma calculateDistance_Num (la1 lo1 la2 lo2 : R) :
  -90 <= la1 <= 90 -> -90 <= la2 <= 90 ->
  DistanceUtil.calculateDistance {| lat := Num la1; lng := Num lo1 |}
                                 {| lat := Num la2; lng := Num lo2 |}
  = Num (distanceR la1 lo1 la2 lo2).
Proof.
  intros H1 H2. pose proof (hav_bounds la1 lo1 la2 lo2 H1 H2) as Hb.
  unfold DistanceUtil.calculateDistance, DistanceUtil.toRadians,
    DistanceUtil.EARTH_RADIUS_KM, Math.PI, lat, lng.
  cbv zeta.
  rewrite !(div_Num _ 180) by lra.
  rewrite !sub_Num, !mul_Num.
  rewrite !(div_Num _ 2) by lra.
  unfold Math.sin, Math.cos.
  rewrite !mul_Num, !add_Num.
  fold (hav la1 lo1 la2 lo2).
  rewrite sub_Num.
  rewrite !sqrt_Num by lra.
  unfold Math.atan2. rewrite !mul_Num. unfold Math.round.
  rewrite div_Num by lra. reflexivity.
Qed.

Lemma distanceR_sym (la1 lo1 la2 lo2 : R) :
  distanceR la1 lo1 la2 lo2 = distanceR la2 lo2 la1 lo1.
Proof. unfold distanceR. rewrite hav_sym. reflexivity. Qed.

Lemma atan2R_pos_x (y x : R) : 0 < x -> Math.atan2R y x = atan (y / x).
Proof. intros H. unfold Math.atan2R. destruct (Rlt_dec 0 x); [reflexivity | contradiction]. Qed.

Lemma distanceR_self (la lo : R) : distanceR la lo la lo = 0.
Proof.
  unfold distanceR, hav. cbv zeta.
  replace ((la - la) * (PI / 180) / 2) with 0 by lra.
  replace ((lo - lo) * (PI / 180) / 2) with 0 by lra.
  rewrite sin_0.
  replace (0 * 0 + cos (la * (PI / 180)) * cos (la * (PI / 180)) * 0 * 0) with 0 by ring.
  rewrite Rminus_0_r, sqrt_0, sqrt_1.
  rewrite atan2R_pos_x by lra.
  replace (0 / 1) with 0 by lra. rewrite atan_0.
  replace (6371 * (2 * 0) * 100 + / 2) with (/ 2) by lra.
  rewrite (Zfloor_eq 0) by (cbn; lra).
  cbn. lra.
Qed.

Lemma Rabs_scale (x k : R) : 0 <= k -> Rabs (x * k) = Rabs x * k.
Proof. intros H. rewrite Rabs_mult, (Rabs_pos_eq k) by assumption. reflexivity. Qed.

(** Two points on one meridian: the distance is the arc between the two
    latitudes, rounded. *)
Lemma distanceR_same_lng (la1 la2 lo : R) :
  Rabs (la2 - la1) < 180 ->
  distanceR la1 lo la2 lo =
  IZR (Zfloor (6371 * (Rabs (la2 - la1) * (PI / 180)) * 100 + / 2)) / 100.
Proof.
  intros Hd. unfold distanceR, hav. cbv zeta.
  pose proof PI_RGT_0 as HPI.
  replace ((lo - lo) * (PI / 180) / 2) with 0 by lra. rewrite sin_0.
  set (u := (la2 - la1) * (PI / 180) / 2).
  assert (Hu' : Rabs u = Rabs (la2 - la1) * (PI / 180) / 2).
  { unfold u. unfold Rdiv at 1 3. rewrite !Rabs_scale by nra. reflexivity. }
  assert (Hu : Rabs u < PI / 2) by (rewrite Hu'; nra).
  assert (Hc : 0 < cos u).
  { apply cos_gt_0; apply Rabs_def2 in Hu; lra. }
  replace (sin u * sin u + cos (la1 * (PI / 180)) * cos (la2 * (PI / 180)) * 0 * 0)
    with (Rsqr (sin u)) by (unfold Rsqr; ring).
  replace (1 - Rsqr (sin u)) with (Rsqr (cos u)) by (pose proof (sin2_cos2 u); lra).
  rewrite !sqrt_Rsqr_abs. rewrite (Rabs_pos_eq (cos u)) by lra.
  rewrite atan2R_pos_x by assumption.
  assert (Ha : atan (Rabs (sin u) / cos u) = Rabs u).
  { apply Rabs_def2 in Hu. destruct (Rle_dec 0 u) as [Hn|Hn].
    - rewrite (Rabs_pos_eq u) by assumption.
      rewrite (Rabs_pos_eq (sin u)) by (apply sin_ge_0; lra).
      change (sin u / cos u) with (tan u). apply atan_tan. lra.
    - rewrite (Rabs_left u) by lra.
      rewrite (Rabs_left (sin u)) by (apply sin_lt_0_var; lra).
      replace (- sin u / cos u) with (tan (- u)) by (rewrite tan_neg; unfold tan; field; lra).
      apply atan_tan. lra. }
  rewrite Ha, Hu'. f_equal. f_equal. f_equal. lra.
Qed.

Lemma PI_bounds : 3.14 < PI < 3.15.
Proof.
  pose proof (PI_2_3_7_ineq 1) as [Hlo Hhi].
  unfold PI_2_3_7_tg, Ratan_seq, tg_alt in Hlo, Hhi.
  cbn [sum_f_R0 Nat.mul Nat.add pow] in Hlo, Hhi.
  repeat rewrite S_INR in Hlo. repeat rewrite S_INR in Hhi.
  change (INR 0) with 0 in Hlo, Hhi.
  split; lra.
Qed.

(** The place [rest_001] seen from one hundredth of a degree further
    north: 1.11 km. *)
Lemma distanceR_hundredth : distanceR 40.7230 (-74.0050) 40.7130 (-74.0050) = 1.11.
Proof.
  rewrite distanceR_same_lng.
  2:{ replace (40.7130 - 40.7230) with (-0.01) by lra. rewrite Rabs_left; lra. }
  replace (40.7130 - 40.7230) with (-0.01) by lra. rewrite Rabs_left by lra.
  pose proof PI_bounds as HPI.
  rewrite (Zfloor_eq 111).
  - lra.
  - split; lra.
Qed.

End Distance.

(** ** The store and the array operations *)

Section Store.

Lemma run_bind_ok {A B} (m : M A) (k : A -> M B) (w w' : World) (a : A) :
  run m w = (Ok a, w') -> run (bind m k) w = run (k a) w'.
Proof. unfold run, bind. intros ->. reflexivity. Qed.

Lemma run_bind_throw {A B} (m : M A) (k : A -> M B) (w w' : World) (e : Error) :
  run m w = (Throw e, w') -> run (bind m k) w = (Throw e, w').
Proof. unfold run, bind. intros ->. reflexivity. Qed.

Lemma run_elems (w : World) (a : loc) (ls : list loc) :
  heap w !! a = Some (ArrayObj ls) -> run (Array.elems a) w = (Ok ls, w).
Proof. intros H. unfold run, Array.elems, bind, load. rewrite H. reflexivity. Qed.

Lemma run_get_place (w : World) (l : loc) (p : Place) :
  heap w !! l = Some (PlaceObj p) -> run (Array.get_place l) w = (Ok p, w).
Proof. intros H. unfold run, Array.get_place, bind, load. rewrite H. reflexivity. Qed.

Lemma run_mapM_get_place (w : World) (es : list (loc * Place)) :
  Forall (fun e => heap w !! fst e = Some (PlaceObj (snd e))) es ->
  run (mapM Array.get_place (List.map fst es)) w = (Ok (List.map snd es), w).
Proof.
  induction 1 as [|e es He _ IH]; [reflexivity|].
  cbn [List.map mapM].
  rewrite (run_bind_ok _ _ _ _ _ (run_get_place _ _ _ He)).
  rewrite (run_bind_ok _ _ _ _ _ IH). reflexivity.
Qed.

Lemma combine_fst_snd {A B} (es : list (A * B)) :
  combine (List.map fst es) (List.map snd es) = es.
Proof. induction es as [|[a b] es IH]; cbn; [reflexivity | rewrite IH; reflexivity]. Qed.

Lemma run_entries (w : World) (a : loc) (es : list (loc * Place)) :
  is_array (heap w) a es -> run (Array.entries a) w = (Ok es, w).
Proof.
  intros [Ha Hes]. unfold Array.entries.
  rewrite (run_bind_ok _ _ _ _ _ (run_elems _ _ _ Ha)).
  rewrite (run_bind_ok _ _ _ _ _ (run_mapM_get_place _ _ Hes)).
  rewrite combine_fst_snd. reflexivity.
Qed.

Lemma run_length (w : World) (a : loc) (es : list (loc * Place)) :
  is_array (heap w) a es -> run (Array.length a) w = (Ok (List.length es), w).
Proof.
  intros [Ha _]. unfold Array.length.
  rewrite (run_bind_ok _ _ _ _ _ (run_elems _ _ _ Ha)).
  rewrite length_map. reflexivity.
Qed.

Lemma lookup_map {A B} (f : A -> B) (xs : list A) (i : nat) :
  List.map f xs !! i = option_map f (xs !! i).
Proof.
  revert i. induction xs as [|x xs IH]; intros [|i]; cbn; try reflexivity. apply IH.
Qed.

Lemma run_get (w : World) (a : loc) (es : list (loc * Place)) (i : nat) :
  is_array (heap w) a es ->
  run (Array.get a i) w = (Ok (option_map fst (es !! i)), w).
Proof.
  intros [Ha _]. unfold Array.get.
  rewrite (run_bind_ok _ _ _ _ _ (run_elems _ _ _ Ha)).
  rewrite lookup_map. reflexivity.
Qed.

Lemma run_spread (w : World) (a : loc) (es : list (loc * Place)) :
  is_array (heap w) a es ->
  run (Array.spread a) w =
  (Ok (List.length (heap w)), set_heap w (heap w ++ [ArrayObj (List.map fst es)])).
Proof.
  intros [Ha _]. unfold Array.spread.
  rewrite (run_bind_ok _ _ _ _ _ (run_elems _ _ _ Ha)). reflexivity.
Qed.

Lemma run_filter (pred : Place -> bool) (w : World) (a : loc) (es : list (loc * Place)) :
  is_array (heap w) a es ->
  run (Array.filter pred a) w =
  (Ok (List.length (heap w)),
   set_heap w (heap w ++
     [ArrayObj (List.map fst (List.filter (fun e => pred (snd e)) es))])).
Proof.
  intros H. unfold Array.filter.
  rewrite (run_bind_ok _ _ _ _ _ (run_entries _ _ _ H)). reflexivity.
Qed.

Lemma run_alloc (c : cell) (w : World) :
  run (alloc c) w = (Ok (List.length (heap w)), set_heap w (heap w ++ [c])).
Proof. reflexivity. Qed.

Lemma run_alloc_all {A} (f : A -> Place) (xs : list A) (w : World) :
  run (mapM (fun x => alloc (PlaceObj (f x))) xs) w =
  (Ok (seq (List.length (heap w)) (List.length xs)),
   set_heap w (heap w ++ List.map (fun x => PlaceObj (f x)) xs)).
Proof.
  revert w. induction xs as [|x xs IH]; intros w.
  - cbn. unfold run, ret, set_heap. rewrite app_nil_r. destruct w; reflexivity.
  - cbn [mapM List.map List.length seq].
    rewrite (run_bind_ok _ _ _ _ _ (run_alloc _ _)).
    rewrite (run_bind_ok _ _ _ _ _ (IH _)).
    cbn [heap set_heap]. rewrite length_app, <- app_assoc. cbn.
    replace (List.length (heap w) + 1) with (S (List.length (heap w))) by lia.
    reflexivity.
Qed.

Lemma run_map (f : Place -> Place) (w : World) (a : loc) (es : list (loc * Place)) :
  is_array (heap w) a es ->
  run (Array.map f a) w =
  (Ok (List.length (heap w) + List.length es),
   set_heap w (heap w ++ List.map (fun e => PlaceObj (f (snd e))) es ++
               [ArrayObj (seq (List.length (heap w)) (List.length es))])).
Proof.
  intros H. unfold Array.map.
  rewrite (run_bind_ok _ _ _ _ _ (run_entries _ _ _ H)).
  rewrite (run_bind_ok _ _ _ _ _ (run_alloc_all _ _ _)).
  rewrite run_alloc. cbn [heap set_heap].
  rewrite length_app, length_map, <- app_assoc. reflexivity.
Qed.

Lemma run_map_string (f : Place -> string) (w : World) (a : loc) (es : list (loc * Place)) :
  is_array (heap w) a es ->
  run (Array.map_string f a) w = (Ok (List.map (fun e => f (snd e)) es), w).
Proof.
  intros H. unfold Array.map_string.
  rewrite (run_bind_ok _ _ _ _ _ (run_entries _ _ _ H)). reflexivity.
Qed.

Lemma run_sort (cmp : Place -> Place -> number) (w : World) (a : loc)
    (es : list (loc * Place)) :
  is_array (heap w) a es ->
  run (Array.sort cmp a) w =
  (Ok a, set_heap w (<[a := ArrayObj (List.map fst
            (stable_sort (fun x y => cmp (snd x) (snd y)) es))]> (heap w))).
Proof.
  intros H. unfold Array.sort.
  rewrite (run_bind_ok _ _ _ _ _ (run_entries _ _ _ H)). reflexivity.
Qed.

Lemma run_slice (w : World) (a : loc) (es : list (loc * Place)) (s e : number) :
  is_array (heap w) a es ->
  run (Array.slice a s e) w =
  (Ok (List.length (heap w)),
   set_heap w (heap w ++ [ArrayObj (slice (List.map fst es) s e)])).
Proof.
  intros [Ha _]. unfold Array.slice.
  rewrite (run_bind_ok _ _ _ _ _ (run_elems _ _ _ Ha)). reflexivity.
Qed.

Lemma run_find (pred : Place -> bool) (w : World) (a : loc) (es : list (loc * Place)) :
  is_array (heap w) a es ->
  run (Array.find pred a) w =
  (Ok (option_map fst (List.find (fun e => pred (snd e)) es)), w).
Proof.
  intros H. unfold Array.find.
  rewrite (run_bind_ok _ _ _ _ _ (run_entries _ _ _ H)). reflexivity.
Qed.

(** *** [is_array] along the store *)

Lemma is_array_agree (h h' : list cell) (a : loc) (es : list (loc * Place)) :
  unchanged_below (List.length h) h h' -> is_array h a es -> is_array h' a es.
Proof.
  intros Hu [Ha Hes]. split.
  - rewrite Hu; [exact Ha | eapply lookup_lt_Some, Ha].
  - eapply Forall_impl; [exact Hes|]. intros e He. cbn beta.
    rewrite Hu; [exact He | eapply lookup_lt_Some, He].
Qed.

Lemma unchanged_below_app (n : nat) (h ext : list cell) :
  (n <= List.length h)%nat -> unchanged_below n h (h ++ ext).
Proof. intros Hn l Hl. apply lookup_app_l. lia. Qed.

Lemma unchanged_below_insert (n : nat) (h : list cell) (l : loc) (c : cell) :
  (n <= l)%nat -> unchanged_below n h (<[l := c]> h).
Proof. intros Hn l' Hl. apply list_lookup_insert_ne. lia. Qed.

Lemma unchanged_below_refl (n : nat) (h : list cell) : unchanged_below n h h.
Proof. intros l _. reflexivity. Qed.

Lemma unchanged_below_trans (n : nat) (h1 h2 h3 : list cell) :
  unchanged_below n h1 h2 -> unchanged_below n h2 h3 -> unchanged_below n h1 h3.
Proof. intros H12 H23 l Hl. rewrite H23, H12 by assumption. reflexivity. Qed.

Lemma unchanged_below_le (n m : nat) (h h' : list cell) :
  (n <= m)%nat -> unchanged_below m h h' -> unchanged_below n h h'.
Proof. intros Hnm H l Hl. apply H. lia. Qed.

Lemma is_array_app (h ext : list cell) (a : loc) (es : list (loc * Place)) :
  is_array h a es -> is_array (h ++ ext) a es.
Proof. apply is_array_agree, unchanged_below_app. lia. Qed.

(** A newly allocated array of references to objects of the store. *)
Lemma is_array_new (h : list cell) (es : list (loc * Place)) :
  Forall (fun e => h !! fst e = Some (PlaceObj (snd e))) es ->
  is_array (h ++ [ArrayObj (List.map fst es)]) (List.length h) es.
Proof.
  intros Hes. split.
  - rewrite lookup_app_r by lia. rewrite Nat.sub_diag. reflexivity.
  - eapply Forall_impl; [exact Hes|]. intros e He. cbn beta.
    rewrite lookup_app_l; [exact He | eapply lookup_lt_Some, He].
Qed.

(** An array overwritten in place with references to objects of the store. *)
Lemma is_array_insert (h : list cell) (a : loc) (es es' : list (loc * Place)) :
  is_array h a es ->
  Forall (fun e => h !! fst e = Some (PlaceObj (snd e))) es' ->
  is_array (<[a := ArrayObj (List.map fst es')]> h) a es'.
Proof.
  intros [Ha _] Hes. split.
  - apply list_lookup_insert_eq. eapply lookup_lt_Some, Ha.
  - eapply Forall_impl; [exact Hes|]. intros e He. cbn beta in He |- *.
    rewrite list_lookup_insert_ne; [exact He|].
    intros Heq. rewrite <- Heq, Ha in He. discriminate.
Qed.

Lemma Forall_filter_bool {A} (P : A -> Prop) (f : A -> bool) (xs : list A) :
  Forall P xs -> Forall P (List.filter f xs).
Proof.
  induction 1 as [|x xs Hx _ IH]; cbn; [constructor|].
  destruct (f x); [constructor; assumption | assumption].
Qed.

Lemma Forall_sort_insert {A} (P : A -> Prop) (cmp : A -> A -> number) (x : A) (ys : list A) :
  P x -> Forall P ys -> Forall P (sort_insert cmp x ys).
Proof.
  intros Hx. induction 1 as [|y ys Hy Hys IH]; cbn [sort_insert].
  - repeat constructor; assumption.
  - destruct (JS.gt (cmp x y) (Num 0)); repeat constructor; assumption.
Qed.

Lemma Forall_stable_sort {A} (P : A -> Prop) (cmp : A -> A -> number) (xs : list A) :
  Forall P xs -> Forall P (stable_sort cmp xs).
Proof.
  induction 1 as [|x xs Hx _ IH]; cbn [stable_sort]; [constructor|].
  apply Forall_sort_insert; assumption.
Qed.

Lemma Forall_slice {A} (P : A -> Prop) (xs : list A) (s e : number) :
  Forall P xs -> Forall P (slice xs s e).
Proof. intros H. unfold slice. apply Forall_take, Forall_drop, H. Qed.

Lemma slice_map {A B} (f : A -> B) (xs : list A) (s e : number) :
  slice (List.map f xs) s e = List.map f (slice xs s e).
Proof. unfold slice. rewrite length_map, skipn_map, firstn_map. reflexivity. Qed.

Lemma sort_insert_map {A B} (f : A -> B) (cmp : B -> B -> number) (x : A) (ys : list A) :
  List.map f (sort_insert (fun a b => cmp (f a) (f b)) x ys) =
  sort_insert cmp (f x) (List.map f ys).
Proof.
  induction ys as [|y ys IH]; cbn [sort_insert List.map]; [reflexivity|].
  destruct (JS.gt (cmp (f x) (f y)) (Num 0)); cbn [List.map]; [rewrite IH|]; reflexivity.
Qed.

Lemma stable_sort_map {A B} (f : A -> B) (cmp : B -> B -> number) (xs : list A) :
  List.map f (stable_sort (fun a b => cmp (f a) (f b)) xs) =
  stable_sort cmp (List.map f xs).
Proof.
  induction xs as [|x xs IH]; cbn [stable_sort List.map]; [reflexivity|].
  rewrite sort_insert_map, IH. reflexivity.
Qed.

Lemma filter_map_snd {A B} (f : B -> bool) (es : list (A * B)) :
  List.map snd (List.filter (fun e => f (snd e)) es) = List.filter f (List.map snd es).
Proof.
  induction es as [|e es IH]; cbn; [reflexivity|].
  destruct (f (snd e)); cbn; rewrite IH; reflexivity.
Qed.

(** Reading an array back. *)
Lemma places_at_entries (h : list cell) (es : list (loc * Place)) :
  Forall (fun e => h !! fst e = Some (PlaceObj (snd e))) es ->
  places_at h (List.map fst es) = Some (List.map snd es).
Proof.
  induction 1 as [|e es He _ IH]; [reflexivity|].
  cbn. unfold place_at. rewrite He, IH. reflexivity.
Qed.

Lemma places_of_is_array (h : list cell) (a : loc) (es : list (loc * Place)) :
  is_array h a es -> places_of h a = Some (List.map snd es).
Proof.
  intros [Ha Hes]. unfold places_of, array_at. rewrite Ha.
  apply places_at_entries, Hes.
Qed.

End Store.

(** ** [DiscoveryService]: validation and the discovery pipeline *)

Section Discovery.
Import DiscoveryService.

Lemma run_try_ok {A} (body : M A) (handler : Error -> M A) (w w' : World) (a : A) :
  run body w = (Ok a, w') -> run (try_catch body handler) w = (Ok a, w').
Proof. unfold run, try_catch. intros ->. reflexivity. Qed.

Lemma run_try_throw {A} (body : M A) (handler : Error -> M A) (w w' : World) (e : Error) :
  run body w = (Throw e, w') -> run (try_catch body handler) w = run (handler e) w'.
Proof. unfold run, try_catch. intros ->. reflexivity. Qed.

Lemma run_emit (e : event) (w : World) : run (emit e) w = (Ok tt, add_event w e).
Proof. reflexivity. Qed.

Lemma run_Date_now (w : World) : run Date_now w = (Ok (clock w (ticks w)), tick w).
Proof. reflexivity. Qed.

(** Validation reads the query and the configuration only. *)
Lemma validateQuery_pure (this : DiscoveryService) (query : DiscoveryQuery) :
  validates this query \/
  exists e field, rejects this query e /\ InvalidArgument e field.
Proof.
  unfold validates, rejects, validateQuery, run, bind, throw, ret.
  destruct (negb (DistanceUtil.isValidLatitude (DiscoveryQuery.latitude query))).
  { right. eexists _, "latitude"%string. split; [intros w; reflexivity | reflexivity]. }
  destruct (negb (DistanceUtil.isValidLongitude (DiscoveryQuery.longitude query))).
  { right. eexists _, "longitude"%string. split; [intros w; reflexivity | reflexivity]. }
  destruct (DiscoveryQuery.radius query) as [radius|].
  - destruct (truthy radius && _).
    { right. eexists _, "radius"%string. split; [intros w; reflexivity | reflexivity]. }
    destruct (DiscoveryQuery.limit query) as [limit|].
    + destruct (truthy limit && _).
      { right. eexists _, "limit"%string. split; [intros w; reflexivity | reflexivity]. }
      left. intros w. reflexivity.
    + left. intros w. reflexivity.
  - destruct (DiscoveryQuery.limit query) as [limit|].
    + destruct (truthy limit && _).
      { right. eexists _, "limit"%string. split; [intros w; reflexivity | reflexivity]. }
      left. intros w. reflexivity.
    + left. intros w. reflexivity.
Qed.

Lemma discoverPlaces_rejected (this : DiscoveryService) (query : DiscoveryQuery)
    (e : Error) (w : World) :
  rejects this query e ->
  run (discoverPlaces this query) w =
  (Throw e,
   add_event
     (add_event (tick w) (LoggerLog [Str "Starting discovery query: "; Json query]))
     (LoggerError (Str "Discovery failed: " :: message e))).
Proof.
  intros Hr. unfold discoverPlaces.
  rewrite (run_bind_ok _ _ _ _ _ (run_Date_now w)).
  erewrite run_try_throw.
  2:{ unfold Logger.log. rewrite (run_bind_ok _ _ _ _ _ (run_emit _ _)).
      apply run_bind_throw, Hr. }
  reflexivity.
Qed.

Lemma run_getAllPlaces (this : MockDataService) (w : World) (es : list (loc * Place)) :
  is_array (heap w) (MockDataService.mockPlaces this) es ->
  run (MockDataService.getAllPlaces this) w =
  (Ok (List.length (heap w)),
   set_heap (add_event w (RepositoryCall "getAllPlaces"))
     (heap w ++ [ArrayObj (List.map fst es)])).
Proof.
  intros H. unfold MockDataService.getAllPlaces.
  rewrite (run_bind_ok _ _ _ _ _ (run_emit _ _)).
  rewrite (run_spread _ _ es) by exact H. reflexivity.
Qed.

Lemma run_getPlacesByCategory (this : MockDataService) (category : string)
    (w : World) (es : list (loc * Place)) :
  is_array (heap w) (MockDataService.mockPlaces this) es ->
  run (MockDataService.getPlacesByCategory this category) w =
  (Ok (List.length (heap w)),
   set_heap (add_event w (RepositoryCall "getPlacesByCategory"))
     (heap w ++ [ArrayObj (List.map fst
        (List.filter (fun e => Pipeline.matches_category category (snd e)) es))])).
Proof.
  intros H. unfold MockDataService.getPlacesByCategory.
  rewrite (run_bind_ok _ _ _ _ _ (run_emit _ _)).
  rewrite (run_filter _ _ _ es) by exact H. reflexivity.
Qed.

(** The objects allocated by [map], with the locations they are given. *)
Lemma Forall_allocated (f : Place -> Place) (ps : list Place) (h ext : list cell) :
  Forall (fun e => (h ++ List.map (fun p => PlaceObj (f p)) ps ++ ext) !! fst e
                   = Some (PlaceObj (snd e)))
         (combine (seq (List.length h) (List.length ps)) (List.map f ps)).
Proof.
  revert h. induction ps as [|p ps IH]; intros h; cbn [List.map List.length seq combine].
  - constructor.
  - constructor.
    + cbn [fst snd]. rewrite lookup_app_r by lia. rewrite Nat.sub_diag. reflexivity.
    + specialize (IH (h ++ [PlaceObj (f p)])).
      rewrite length_app in IH. cbn [List.length] in IH.
      replace (List.length h + 1) with (S (List.length h)) in IH by lia.
      rewrite <- app_assoc in IH. exact IH.
Qed.

Lemma map_fst_combine {A B} (xs : list A) (ys : list B) :
  List.length xs = List.length ys -> List.map fst (combine xs ys) = xs.
Proof.
  revert ys. induction xs as [|x xs IH]; intros [|y ys]; cbn; try discriminate; try reflexivity.
  intros [= H]. rewrite IH by exact H. reflexivity.
Qed.

Lemma map_snd_combine {A B} (xs : list A) (ys : list B) :
  List.length xs = List.length ys -> List.map snd (combine xs ys) = ys.
Proof.
  revert ys. induction xs as [|x xs IH]; intros [|y ys]; cbn; try discriminate; try reflexivity.
  intros [= H]. rewrite IH by exact H. reflexivity.
Qed.

Lemma Forall_fst_combine_seq {B} (n : nat) (ys : list B) :
  Forall (fun e => (n <= fst e)%nat) (combine (seq n (List.length ys)) ys).
Proof.
  revert n. induction ys as [|y ys IH]; intros n; cbn; constructor.
  - cbn. lia.
  - eapply Forall_impl; [apply IH|]. cbn. intros e He. lia.
Qed.

(** [calculateDistances] builds a new array of new objects: the places of
    the argument array, each copied with its distance from the centre. *)
Lemma run_calculateDistances (this : DiscoveryService) (centerPoint : Coordinates)
    (w : World) (a : loc) (es : list (loc * Place)) :
  is_array (heap w) a es ->
  exists h' es',
    run (calculateDistances this a centerPoint) w =
      (Ok (List.length (heap w) + List.length es), set_heap w h') /\
    is_array h' (List.length (heap w) + List.length es) es' /\
    List.map snd es' = List.map (Pipeline.annotate centerPoint) (List.map snd es) /\
    Forall (fun e => (List.length (heap w) <= fst e)%nat) es' /\
    unchanged_below (List.length (heap w)) (heap w) h' /\
    (List.length (heap w) <= List.length h')%nat.
Proof.
  intros H. unfold calculateDistances.
  set (f := fun place => Place.with_distance_km place
                (DistanceUtil.calculateDistance centerPoint (Place.location place))).
  set (ps' := List.map f (List.map snd es)).
  set (n := List.length (heap w)).
  exists (heap w ++ List.map (fun e => PlaceObj (f (snd e))) es ++
          [ArrayObj (seq n (List.length es))]),
         (combine (seq n (List.length es)) ps').
  assert (Hlen : List.length (seq n (List.length es)) = List.length ps').
  { unfold ps'. rewrite length_seq, !length_map. reflexivity. }
  split; [apply (run_map f), H|].
  split; [|split; [|split; [|split]]].
  - split.
    + rewrite map_fst_combine by exact Hlen.
      rewrite app_assoc, lookup_app_r by (rewrite length_app, length_map; lia).
      rewrite length_app, length_map. fold n. rewrite Nat.sub_diag. reflexivity.
    + pose proof (Forall_allocated f (List.map snd es) (heap w)
                    [ArrayObj (seq n (List.length es))]) as Hf.
      rewrite length_map, map_map in Hf. exact Hf.
  - apply map_snd_combine, Hlen.
  - unfold ps'. pose proof (Forall_fst_combine_seq n (List.map f (List.map snd es))) as Hf.
    rewrite !length_map in Hf. exact Hf.
  - apply unchanged_below_app. lia.
  - rewrite length_app. lia.
Qed.

Lemma candidates_entries (category : option string) (es : list (loc * Place)) :
  List.map snd
    (match category with
     | Some c =>
         if negb (String.eqb c EmptyString)
         then List.filter (fun e => Pipeline.matches_category c (snd e)) es
         else es
     | None => es
     end) = Pipeline.candidates category (List.map snd es).
Proof.
  unfold Pipeline.candidates. destruct category as [c|]; [|reflexivity].
  destruct (negb (String.eqb c EmptyString)); [|reflexivity].
  apply filter_map_snd.
Qed.

Lemma run_fetch (this : MockDataService) (category : option string) (w : World)
    (es : list (loc * Place)) :
  is_array (heap w) (MockDataService.mockPlaces this) es ->
  exists es1,
    run (match category with
         | Some c =>
             if negb (String.eqb c EmptyString)
             then MockDataService.getPlacesByCategory this c
             else MockDataService.getAllPlaces this
         | None => MockDataService.getAllPlaces this
         end) w =
    (Ok (List.length (heap w)),
     set_heap (add_event w (RepositoryCall (repository_method category)))
       (heap w ++ [ArrayObj (List.map fst es1)])) /\
    Forall (fun e => heap w !! fst e = Some (PlaceObj (snd e))) es1 /\
    List.map snd es1 = Pipeline.candidates category (List.map snd es).
Proof.
  intros H. pose proof (candidates_entries category es) as Hc.
  unfold repository_method.
  destruct category as [c|]; [destruct (negb (String.eqb c EmptyString))|].
  - eexists. split; [apply run_getPlacesByCategory, H|]. split; [|exact Hc].
    apply Forall_filter_bool, H.
  - eexists. split; [apply run_getAllPlaces, H|]. split; [apply H | exact Hc].
  - eexists. split; [apply run_getAllPlaces, H|]. split; [apply H | exact Hc].
Qed.

Lemma discover_entries (radius limit : number) (es : list (loc * Place)) :
  List.map snd
    (slice (stable_sort (fun x y => Pipeline.by_distance (snd x) (snd y))
              (List.filter (fun e => Pipeline.within radius (snd e)) es))
       (Num 0) limit) =
  slice (stable_sort Pipeline.by_distance
           (List.filter (Pipeline.within radius) (List.map snd es)))
    (Num 0) limit.
Proof.
  rewrite <- slice_map, (stable_sort_map snd Pipeline.by_distance), filter_map_snd.
  reflexivity.
Qed.

(** The steps of [discoverPlaces] after the distances are known: filter,
    sort in place, slice. *)
Lemma run_select (this : DiscoveryService) (radius limit : number) (w : World)
    (a : loc) (es : list (loc * Place)) (n : nat) :
  is_array (heap w) a es ->
  (n <= List.length (heap w))%nat ->
  exists h' es',
    (forall B (k : loc -> M B),
       run (placesInRadius <- filterByRadius this a radius ;;
            sortedPlaces <- sortByDistance this placesInRadius ;;
            limitedResults <- Array.slice sortedPlaces (Num 0) limit ;;
            k limitedResults) w =
       run (k (S (List.length (heap w)))) (set_heap w h')) /\
    is_array h' (S (List.length (heap w))) es' /\
    es' = slice (stable_sort (fun x y => Pipeline.by_distance (snd x) (snd y))
                   (List.filter (fun e => Pipeline.within radius (snd e)) es))
            (Num 0) limit /\
    unchanged_below n (heap w) h'.
Proof.
  intros H Hn.
  set (es3 := List.filter (fun e => Pipeline.within radius (snd e)) es).
  set (es4 := stable_sort (fun x y => Pipeline.by_distance (snd x) (snd y)) es3).
  set (h3 := heap w ++ [ArrayObj (List.map fst es3)]).
  set (a3 := List.length (heap w)).
  set (h4 := <[a3 := ArrayObj (List.map fst es4)]> h3).
  assert (H3 : is_array h3 a3 es3).
  { apply is_array_new, Forall_filter_bool, H. }
  assert (H4 : is_array h4 a3 es4).
  { apply (is_array_insert _ _ es3); [exact H3|]. apply Forall_stable_sort, H3. }
  assert (L4 : List.length h4 = S a3).
  { unfold h4, h3. rewrite length_insert, length_app. cbn. lia. }
  exists (h4 ++ [ArrayObj (slice (List.map fst es4) (Num 0) limit)]),
         (slice es4 (Num 0) limit).
  split; [|split; [|split]].
  - intros B k. unfold filterByRadius, sortByDistance.
    rewrite (run_bind_ok _ _ _ _ _ (run_filter _ _ _ es H)).
    rewrite (run_bind_ok _ _ _ _ _ (run_sort _ (set_heap w h3) a3 es3 H3)).
    rewrite (run_bind_ok _ _ _ _ _ (run_slice (set_heap w h4) a3 es4 _ _ H4)).
    cbn [heap set_heap]. rewrite L4. reflexivity.
  - rewrite slice_map. rewrite <- L4. apply is_array_new, Forall_slice, H4.
  - reflexivity.
  - eapply unchanged_below_trans; [apply unchanged_below_app; exact Hn|].
    eapply unchanged_below_trans; [apply unchanged_below_insert; exact Hn|].
    apply unchanged_below_app. lia.
Qed.

(** What a call of [discoverPlaces] with a query that passes validation
    does, for a repository array holding the entries [es0]. *)
Lemma discoverPlaces_validated (this : DiscoveryService) (query : DiscoveryQuery)
    (w : World) (es0 : list (loc * Place)) :
  is_array (heap w) (MockDataService.mockPlaces (mockDataService this)) es0 ->
  validates this query ->
  exists resp w' es,
    run (discoverPlaces this query) w = (Ok resp, w') /\
    is_array (heap w') (DiscoveryResponse.results resp) es /\
    List.map snd es = Pipeline.discover this query (List.map snd es0) /\
    Forall (fun e => (List.length (heap w) <= fst e)%nat) es /\
    (List.length (heap w) <= DiscoveryResponse.results resp)%nat /\
    unchanged_below (List.length (heap w)) (heap w) (heap w') /\
    DiscoveryResponse.total resp = List.length es /\
    DiscoveryResponse.query resp =
      {| DiscoveryQuery.latitude := DiscoveryQuery.latitude query;
         DiscoveryQuery.longitude := DiscoveryQuery.longitude query;
         DiscoveryQuery.radius := Some (Pipeline.radius this query);
         DiscoveryQuery.category := DiscoveryQuery.category query;
         DiscoveryQuery.limit := Some (Pipeline.limit this query) |} /\
    exists completed,
      events w' = events w ++
        [LoggerLog [Str "Starting discovery query: "; Json query];
         RepositoryCall (repository_method (DiscoveryQuery.category query));
         LoggerLog completed].
Proof.
  intros H0 Hv.
  set (n0 := List.length (heap w)).
  set (w1 := add_event (tick w) (LoggerLog [Str "Starting discovery query: "; Json query])).
  assert (H1 : is_array (heap w1) (MockDataService.mockPlaces (mockDataService this)) es0)
    by exact H0.
  destruct (run_fetch (mockDataService this) (DiscoveryQuery.category query) w1 es0 H1)
    as (es1 & Hrun1 & Hes1 & Hps1).
  set (w2 := set_heap
               (add_event w1
                  (RepositoryCall (repository_method (DiscoveryQuery.category query))))
               (heap w1 ++ [ArrayObj (List.map fst es1)])) in *.
  assert (H2 : is_array (heap w2) n0 es1) by (apply is_array_new, Hes1).
  destruct (run_calculateDistances this (Pipeline.center query) w2 n0 es1 H2)
    as (h3 & es3 & Hrun3 & H3 & Hps3 & Hfresh3 & Hu3 & Hl3).
  set (a3 := (List.length (heap w2) + List.length es1)%nat) in *.
  destruct (run_select this (Pipeline.radius this query) (Pipeline.limit this query)
              (set_heap w2 h3) a3 es3 n0 H3) as (h5 & es5 & Hrun5 & H5 & Hes5 & Hu5).
  { cbn [heap set_heap]. cbn [heap set_heap w2 w1 add_event tick] in Hl3.
    rewrite length_app in Hl3. unfold n0. lia. }
  cbn [heap set_heap] in Hrun5, H5, Hu5.
  set (a5 := S (List.length h3)) in *.
  set (w5 := set_heap w2 h5).
  set (radius := Pipeline.radius this query).
  set (limit := Pipeline.limit this query).
  set (startTime := clock w (ticks w)).
  set (now := clock w5 (ticks w5)).
  set (resp :=
    {| DiscoveryResponse.results := a5;
       DiscoveryResponse.total := List.length es5;
       DiscoveryResponse.query :=
         {| DiscoveryQuery.latitude := DiscoveryQuery.latitude query;
            DiscoveryQuery.longitude := DiscoveryQuery.longitude query;
            DiscoveryQuery.radius := Some radius;
            DiscoveryQuery.category := DiscoveryQuery.category query;
            DiscoveryQuery.limit := Some limit |};
       DiscoveryResponse.metadata :=
         {| DiscoveryResponse.processing_time_ms := JS.sub now startTime;
            DiscoveryResponse.timestamp := clock (tick w5) (ticks (tick w5)) |} |}).
  set (completed := [Str "Discovery completed: "; Count (List.length es5);
                     Str " results in "; Val (JS.sub now startTime); Str "ms"]).
  exists resp, (add_event (tick (tick w5)) (LoggerLog completed)), es5.
  split.
  { unfold discoverPlaces.
    rewrite (run_bind_ok _ _ _ _ _ (run_Date_now w)).
    apply run_try_ok.
    unfold Logger.log.
    rewrite (run_bind_ok _ _ _ _ _ (run_emit _ _)).
    rewrite (run_bind_ok _ _ _ _ _ (Hv _)).
    cbv zeta.
    rewrite (run_bind_ok _ _ _ _ _ Hrun1).
    rewrite (run_bind_ok _ _ _ _ _ Hrun3).
    rewrite Hrun5.
    rewrite (run_bind_ok _ _ _ _ _ (run_length w5 a5 es5 H5)).
    rewrite (run_bind_ok _ _ _ _ _ (run_Date_now _)).
    rewrite (run_bind_ok _ _ _ _ _ (run_Date_now _)).
    rewrite (run_bind_ok _ _ _ _ _ (run_length (tick (tick w5)) a5 es5 H5)).
    rewrite (run_bind_ok _ _ _ _ _ (run_emit _ _)).
    reflexivity. }
  assert (Hn2 : List.length (heap w2) = S n0).
  { cbn [heap set_heap w2 w1 add_event tick]. rewrite length_app. cbn. unfold n0. lia. }
  split; [exact H5|].
  split.
  { rewrite Hes5, discover_entries, Hps3, Hps1. reflexivity. }
  split.
  { rewrite Hes5. apply Forall_slice, Forall_stable_sort, Forall_filter_bool.
    eapply Forall_impl; [exact Hfresh3|]. cbn beta. intros e He. lia. }
  split; [cbn; lia|].
  split.
  { cbn [heap add_event tick set_heap w5].
    eapply unchanged_below_trans; [|exact Hu5].
    eapply unchanged_below_trans;
      [|eapply unchanged_below_le; [|exact Hu3]; lia].
    cbn [heap set_heap w2 w1 add_event tick]. apply unchanged_below_app. unfold n0. lia. }
  split; [reflexivity|].
  split; [reflexivity|].
  exists completed. cbn [events add_event tick set_heap w5 w2 w1].
  rewrite <- !app_assoc. reflexivity.
Qed.

End Discovery.

(** ** The pipeline on lists: radius, order, length *)

Section PipelineFacts.
Local Open Scope R_scope.

Lemma within_true (radius : number) (p : Place) :
  Pipeline.within radius p = true <->
  exists d r, Place.distance_km p = Num d /\ radius = Num r /\ d <= r.
Proof. unfold Pipeline.within. apply le_true. Qed.

Lemma within_measured (radius : number) (p : Place) :
  Pipeline.within radius p = true -> measured p.
Proof. intros (d & r & Hd & _)%within_true. exists d. exact Hd. Qed.

Lemma Forall_filter_true {A} (f : A -> bool) (xs : list A) :
  Forall (fun x => f x = true) (List.filter f xs).
Proof.
  induction xs as [|x xs IH]; cbn; [constructor|].
  destruct (f x) eqn:Hx; [constructor; assumption | exact IH].
Qed.

Lemma by_distance_after (x y : Place) :
  measured x -> measured y ->
  JS.gt (Pipeline.by_distance x y) (Num 0) = true -> distance_le y x.
Proof.
  intros [dx Hx] [dy Hy]. unfold Pipeline.by_distance, distance_le, JS.gt.
  rewrite Hx, Hy, sub_Num, lt_Num, le_Num. lra.
Qed.

Lemma by_distance_before (x y : Place) :
  measured x -> measured y ->
  JS.gt (Pipeline.by_distance x y) (Num 0) = false -> distance_le x y.
Proof.
  intros [dx Hx] [dy Hy]. unfold Pipeline.by_distance, distance_le, JS.gt.
  rewrite Hx, Hy, sub_Num, lt_Num_false, le_Num. lra.
Qed.

Lemma HdRel_sort_insert (y x : Place) (ys : list Place) :
  distance_le y x -> HdRel distance_le y ys ->
  HdRel distance_le y (sort_insert Pipeline.by_distance x ys).
Proof.
  intros Hyx Hd. destruct ys as [|z zs]; cbn [sort_insert].
  - constructor. exact Hyx.
  - destruct (JS.gt (Pipeline.by_distance x z) (Num 0)).
    + constructor. inversion Hd; assumption.
    + constructor. exact Hyx.
Qed.

Lemma sort_insert_sorted (x : Place) (ys : list Place) :
  measured x -> Forall measured ys -> Sorted distance_le ys ->
  Sorted distance_le (sort_insert Pipeline.by_distance x ys).
Proof.
  intros Hx Hm Hs. induction ys as [|y ys IH]; cbn [sort_insert].
  - repeat constructor.
  - inversion Hm as [|? ? Hy Hm']; subst. inversion Hs as [|? ? Hs' Hd]; subst.
    destruct (JS.gt (Pipeline.by_distance x y) (Num 0)) eqn:Hc.
    + constructor; [apply IH; assumption|].
      apply HdRel_sort_insert; [|exact Hd].
      apply by_distance_after; assumption.
    + constructor; [exact Hs|]. constructor.
      apply by_distance_before; assumption.
Qed.

(** Sorting places whose distances are numbers yields a list that is
    non-decreasing by [distance_km]. *)
Lemma stable_sort_sorted (xs : list Place) :
  Forall measured xs -> Sorted distance_le (stable_sort Pipeline.by_distance xs).
Proof.
  induction 1 as [|x xs Hx Hxs IH]; cbn [stable_sort]; [constructor|].
  apply sort_insert_sorted; [exact Hx | apply Forall_stable_sort; exact Hxs | exact IH].
Qed.

Lemma Sorted_skipn {A} (R : A -> A -> Prop) (n : nat) (xs : list A) :
  Sorted R xs -> Sorted R (skipn n xs).
Proof.
  revert xs. induction n as [|n IH]; intros xs Hs; [exact Hs|].
  destruct xs as [|x xs]; [constructor|]. cbn. apply IH. inversion Hs; assumption.
Qed.

Lemma Sorted_firstn {A} (R : A -> A -> Prop) (n : nat) (xs : list A) :
  Sorted R xs -> Sorted R (firstn n xs).
Proof.
  revert xs. induction n as [|n IH]; intros xs Hs; [constructor|].
  destruct xs as [|x xs]; [constructor|]. cbn.
  inversion Hs as [|? ? Hs' Hd]; subst. constructor; [apply IH, Hs'|].
  destruct xs as [|y ys]; [destruct n; constructor|]. destruct n; cbn; constructor.
  inversion Hd; assumption.
Qed.

Lemma Sorted_slice {A} (R : A -> A -> Prop) (xs : list A) (s e : number) :
  Sorted R xs -> Sorted R (slice xs s e).
Proof. intros H. unfold slice. apply Sorted_firstn, Sorted_skipn, H. Qed.

(** The places kept by the radius filter, in any later order or selection. *)
Lemma sorted_in_radius_within (this : DiscoveryService) (query : DiscoveryQuery)
    (places : list Place) :
  Forall (fun p => Pipeline.within (Pipeline.radius this query) p = true)
         (Pipeline.sorted_in_radius this query places).
Proof. unfold Pipeline.sorted_in_radius. apply Forall_stable_sort, Forall_filter_true. Qed.

Lemma discover_within (this : DiscoveryService) (query : DiscoveryQuery)
    (places : list Place) :
  Forall (fun p => JS.le (Place.distance_km p) (Pipeline.radius this query) = true)
         (Pipeline.discover this query places).
Proof. unfold Pipeline.discover. apply Forall_slice, sorted_in_radius_within. Qed.

Lemma discover_sorted (this : DiscoveryService) (query : DiscoveryQuery)
    (places : list Place) :
  Sorted distance_le (Pipeline.discover this query places).
Proof.
  unfold Pipeline.discover, Pipeline.sorted_in_radius.
  apply Sorted_slice, stable_sort_sorted.
  eapply Forall_impl; [apply Forall_filter_true|].
  intros p Hp. eapply within_measured, Hp.
Qed.

(** *** The length of a slice *)

Lemma ToIntegerOrInfinity_zero : JS.ToIntegerOrInfinity (Num 0) = 0%Z.
Proof.
  cbn. destruct (Rlt_dec 0 0); [lra|]. apply (ZfloorZ 0).
Qed.

Lemma ToIntegerOrInfinity_nonneg (x : R) :
  0 <= x -> (0 <= JS.ToIntegerOrInfinity (Num x))%Z /\ IZR (JS.ToIntegerOrInfinity (Num x)) <= x.
Proof.
  intros Hx. cbn. destruct (Rlt_dec x 0); [lra|].
  split; [apply (Zfloor_lub 0); exact Hx | apply Zfloor_bound].
Qed.

Lemma relative_index_zero (len : nat) : relative_index len 0 = 0%nat.
Proof. unfold relative_index. cbn. lia. Qed.

Lemma slice_from_zero {A} (xs : list A) (e : number) :
  slice xs (Num 0) e =
  firstn (relative_index (List.length xs) (JS.ToIntegerOrInfinity e)) xs.
Proof.
  unfold slice. rewrite ToIntegerOrInfinity_zero, relative_index_zero.
  rewrite Nat.sub_0_r. reflexivity.
Qed.

(** A slice from [0] to a non-negative end [x] keeps at most [x] elements. *)
Lemma slice_length_le {A} (xs : list A) (x : R) :
  0 <= x -> INR (List.length (slice xs (Num 0) (Num x))) <= x.
Proof.
  intros Hx. rewrite slice_from_zero, length_firstn.
  destruct (ToIntegerOrInfinity_nonneg x Hx) as [H0 Hle].
  unfold relative_index. destruct (Z.ltb_spec (JS.ToIntegerOrInfinity (Num x)) 0); [lia|].
  eapply Rle_trans; [|exact Hle].
  rewrite INR_IZR_INZ. apply IZR_le. lia.
Qed.

End PipelineFacts.

(** ** The initial world and concrete queries *)

Section Concrete.
Import DiscoveryService.
Local Open Scope R_scope.

Lemma initial_is_array :
  is_array initial_heap (MockDataService.mockPlaces initial_repository)
    (combine (seq 0 (List.length MockDataService.fixture)) MockDataService.fixture).
Proof.
  unfold initial_heap, initial_repository. cbn [MockDataService.mockPlaces].
  split.
  - rewrite map_fst_combine by (rewrite length_seq; reflexivity).
    rewrite lookup_app_r by (rewrite length_map; lia).
    rewrite length_map, Nat.sub_diag. reflexivity.
  - pose proof (Forall_allocated (fun p => p) MockDataService.fixture []
                  [ArrayObj (seq 0 (List.length MockDataService.fixture))]) as H.
    rewrite map_id in H. exact H.
Qed.

Lemma initial_places :
  List.map snd (combine (seq 0 (List.length MockDataService.fixture)) MockDataService.fixture)
  = MockDataService.fixture.
Proof. apply map_snd_combine. rewrite length_seq. reflexivity. Qed.

(** The constructor run in the empty world yields the initial world. *)
Lemma new_MockDataService (clock : nat -> number) :
  run MockDataService.new (empty_world clock) = (Ok initial_repository, initial_world clock).
Proof.
  unfold MockDataService.new.
  rewrite (run_bind_ok _ _ _ _ _ (run_alloc_all (fun p => p) _ _)).
  rewrite (run_bind_ok _ _ _ _ _ (run_alloc _ _)).
  reflexivity.
Qed.

Lemma validates_iff (this : DiscoveryService) (query : DiscoveryQuery) :
  validates this query <->
  DistanceUtil.isValidLatitude (DiscoveryQuery.latitude query) = true /\
  DistanceUtil.isValidLongitude (DiscoveryQuery.longitude query) = true /\
  match DiscoveryQuery.radius query with
  | Some r => truthy r && (JS.lt r (Num 0.1) || JS.gt r (maxRadius this)) = false
  | None => True
  end /\
  match DiscoveryQuery.limit query with
  | Some l => truthy l && (JS.lt l (Num 1) || JS.gt l (maxResults this)) = false
  | None => True
  end.
Proof.
  unfold validates, validateQuery, run, bind, throw, ret.
  set (w0 := empty_world (fun _ => NaN)).
  destruct (DistanceUtil.isValidLatitude (DiscoveryQuery.latitude query)); cbn [negb].
  2:{ split; [intros H; specialize (H w0); discriminate | intros [H _]; discriminate]. }
  destruct (DistanceUtil.isValidLongitude (DiscoveryQuery.longitude query)); cbn [negb].
  2:{ split; [intros H; specialize (H w0); discriminate | intros (_ & H & _); discriminate]. }
  destruct (DiscoveryQuery.radius query) as [r|].
  - destruct (truthy r && _).
    { split; [intros H; specialize (H w0); discriminate | intros (_ & _ & H & _); discriminate]. }
    destruct (DiscoveryQuery.limit query) as [l|].
    + destruct (truthy l && _).
      { split; [intros H; specialize (H w0); discriminate | intros (_ & _ & _ & H); discriminate]. }
      split; [auto | reflexivity].
    + split; [auto | reflexivity].
  - destruct (DiscoveryQuery.limit query) as [l|].
    + destruct (truthy l && _).
      { split; [intros H; specialize (H w0); discriminate | intros (_ & _ & _ & H); discriminate]. }
      split; [auto | reflexivity].
    + split; [auto | reflexivity].
Qed.

Lemma rest_001_first : hd_error MockDataService.fixture = Some Examples.rest_001.
Proof. reflexivity. Qed.

(** The only fixture place of category [restaurant]. *)
Lemma candidates_restaurant :
  Pipeline.candidates (Some "restaurant"%string) MockDataService.fixture = [Examples.rest_001].
Proof. reflexivity. Qed.

Lemma candidates_invalid_category :
  Pipeline.candidates (Some "invalid_category"%string) MockDataService.fixture = [].
Proof. reflexivity. Qed.

Lemma slice_singleton {A} (x : A) (l : R) : 1 <= l -> slice [x] (Num 0) (Num l) = [x].
Proof.
  intros Hl. rewrite slice_from_zero. cbn [List.length].
  assert (1 <= JS.ToIntegerOrInfinity (Num l))%Z as Hz.
  { cbn. destruct (Rlt_dec l 0); [lra|]. apply (Zfloor_lub 1). exact Hl. }
  unfold relative_index. destruct (Z.ltb_spec (JS.ToIntegerOrInfinity (Num l)) 0); [lia|].
  replace (Z.to_nat (Z.min (JS.ToIntegerOrInfinity (Num l)) (Z.of_nat 1))) with 1%nat by lia.
  reflexivity.
Qed.

(** A query with a single candidate that lies within the radius. *)
Lemma discover_single (this : DiscoveryService) (query : DiscoveryQuery)
    (places : list Place) (p : Place) (d r l : R) :
  Pipeline.candidates (DiscoveryQuery.category query) places = [p] ->
  DistanceUtil.calculateDistance (Pipeline.center query) (Place.location p) = Num d ->
  Pipeline.radius this query = Num r -> d <= r ->
  Pipeline.limit this query = Num l -> 1 <= l ->
  Pipeline.discover this query places = [Place.with_distance_km p (Num d)].
Proof.
  intros Hc Hd Hr Hdr Hl Hl1.
  unfold Pipeline.discover, Pipeline.sorted_in_radius.
  rewrite Hc, Hr, Hl. cbn [List.map]. unfold Pipeline.annotate. rewrite Hd.
  cbn [List.filter]. unfold Pipeline.within at 1. cbn [Place.distance_km Place.with_distance_km].
  rewrite (proj2 (le_Num d r) Hdr). cbn [stable_sort sort_insert].
  apply slice_singleton, Hl1.
Qed.

Lemma default_limit_absent (query : DiscoveryQuery) :
  JS.truthy_opt (DiscoveryQuery.limit query) = false ->
  Pipeline.limit default_service query = Num 10.
Proof.
  intros H. unfold Pipeline.limit, JS.or_else. unfold JS.truthy_opt in H.
  assert (Hm : Math.min (Num 10) (maxResults default_service) = Num 10).
  { cbn. rewrite Rmin_left by lra. reflexivity. }
  destruct (DiscoveryQuery.limit query) as [x|]; [rewrite H|]; exact Hm.
Qed.

Lemma default_radius_absent (query : DiscoveryQuery) :
  JS.truthy_opt (DiscoveryQuery.radius query) = false ->
  Pipeline.radius default_service query = Num 5.0.
Proof.
  intros H. unfold Pipeline.radius, JS.or_else. unfold JS.truthy_opt in H.
  destruct (DiscoveryQuery.radius query) as [x|]; [rewrite H|]; reflexivity.
Qed.

End Concrete.

(** ** The claims *)

Section Claims.
Import DiscoveryService.
Local Open Scope R_scope.

Lemma validates_limit_zero : validates default_service Examples.limit_zero.
Proof.
  apply validates_iff. cbn [Examples.limit_zero DiscoveryQuery.latitude
    DiscoveryQuery.longitude DiscoveryQuery.radius DiscoveryQuery.limit].
  split; [|split; [|split]].
  - apply isValidLatitude_true. eexists; split; [reflexivity | lra].
  - apply isValidLongitude_true. eexists; split; [reflexivity | lra].
  - exact I.
  - rewrite truthy_zero. reflexivity.
Qed.

Lemma validates_radius_zero : validates default_service Examples.radius_zero.
Proof.
  apply validates_iff. cbn [Examples.radius_zero DiscoveryQuery.latitude
    DiscoveryQuery.longitude DiscoveryQuery.radius DiscoveryQuery.limit].
  split; [|split; [|split]].
  - apply isValidLatitude_true. eexists; split; [reflexivity | lra].
  - apply isValidLongitude_true. eexists; split; [reflexivity | lra].
  - rewrite truthy_zero. reflexivity.
  - exact I.
Qed.

Lemma validates_limit_zero_restaurant :
  validates default_service Examples.limit_zero_restaurant.
Proof.
  apply validates_iff. cbn [Examples.limit_zero_restaurant DiscoveryQuery.latitude
    DiscoveryQuery.longitude DiscoveryQuery.radius DiscoveryQuery.limit].
  split; [|split; [|split]].
  - apply isValidLatitude_true. eexists; split; [reflexivity | lra].
  - apply isValidLongitude_true. eexists; split; [reflexivity | lra].
  - exact I.
  - rewrite truthy_zero. reflexivity.
Qed.

Lemma validates_invalid_category : validates default_service Examples.invalid_category.
Proof.
  apply validates_iff. cbn [Examples.invalid_category DiscoveryQuery.latitude
    DiscoveryQuery.longitude DiscoveryQuery.radius DiscoveryQuery.limit].
  split; [|split; [|split]].
  - apply isValidLatitude_true. eexists; split; [reflexivity | lra].
  - apply isValidLongitude_true. eexists; split; [reflexivity | lra].
  - exact I.
  - exact I.
Qed.

Lemma validates_limit_three : validates default_service Examples.limit_three.
Proof.
  apply validates_iff. cbn [Examples.limit_three DiscoveryQuery.latitude
    DiscoveryQuery.longitude DiscoveryQuery.radius DiscoveryQuery.limit].
  split; [|split; [|split]].
  - apply isValidLatitude_true. eexists; split; [reflexivity | lra].
  - apply isValidLongitude_true. eexists; split; [reflexivity | lra].
  - exact I.
  - apply andb_false_intro2. apply orb_false_intro.
    + apply lt_Num_false. lra.
    + unfold JS.gt. apply lt_Num_false.
      change (maxResults default_service) with (Num 50). lra.
Qed.

(** What [discoverPlaces] returns, read back from the store. *)
Lemma discoverPlaces_returns (this : DiscoveryService) (query : DiscoveryQuery)
    (w : World) (es0 : list (loc * Place)) :
  is_array (heap w) (MockDataService.mockPlaces (mockDataService this)) es0 ->
  validates this query ->
  exists resp w',
    run (discoverPlaces this query) w = (Ok resp, w') /\
    places_of (heap w') (DiscoveryResponse.results resp) =
      Some (Pipeline.discover this query (List.map snd es0)) /\
    DiscoveryResponse.total resp =
      List.length (Pipeline.discover this query (List.map snd es0)) /\
    DiscoveryResponse.query resp =
      {| DiscoveryQuery.latitude := DiscoveryQuery.latitude query;
         DiscoveryQuery.longitude := DiscoveryQuery.longitude query;
         DiscoveryQuery.radius := Some (Pipeline.radius this query);
         DiscoveryQuery.category := DiscoveryQuery.category query;
         DiscoveryQuery.limit := Some (Pipeline.limit this query) |}.
Proof.
  intros H0 Hv.
  destruct (discoverPlaces_validated this query w es0 H0 Hv)
    as (resp & w' & es & Hrun & Hes & Hps & _ & _ & _ & Htot & Hq & _).
  exists resp, w'. split; [exact Hrun|]. split; [|split].
  - rewrite (places_of_is_array _ _ _ Hes), Hps. reflexivity.
  - rewrite Htot, <- Hps, length_map. reflexivity.
  - exact Hq.
Qed.

Lemma discoverPlaces_initial (query : DiscoveryQuery) (clock : nat -> number) :
  validates default_service query ->
  exists resp w',
    run (discoverPlaces default_service query) (initial_world clock) = (Ok resp, w') /\
    places_of (heap w') (DiscoveryResponse.results resp) =
      Some (Pipeline.discover default_service query MockDataService.fixture) /\
    DiscoveryResponse.total resp =
      List.length (Pipeline.discover default_service query MockDataService.fixture) /\
    DiscoveryResponse.query resp =
      {| DiscoveryQuery.latitude := DiscoveryQuery.latitude query;
         DiscoveryQuery.longitude := DiscoveryQuery.longitude query;
         DiscoveryQuery.radius := Some (Pipeline.radius default_service query);
         DiscoveryQuery.category := DiscoveryQuery.category query;
         DiscoveryQuery.limit := Some (Pipeline.limit default_service query) |}.
Proof.
  intros Hv.
  rewrite <- initial_places.
  apply discoverPlaces_returns; [exact initial_is_array | exact Hv].
Qed.

Lemma discover_radius_zero :
  Pipeline.discover default_service Examples.radius_zero MockDataService.fixture =
  [Place.with_distance_km Examples.rest_001 (Num 1.11)].
Proof.
  apply (discover_single _ _ _ _ _ 5.0 10).
  - exact candidates_restaurant.
  - rewrite <- distanceR_hundredth. apply calculateDistance_Num; lra.
  - apply default_radius_absent. cbn. apply truthy_zero.
  - lra.
  - apply default_limit_absent. reflexivity.
  - lra.
Qed.

Lemma discover_limit_zero_restaurant :
  Pipeline.discover default_service Examples.limit_zero_restaurant MockDataService.fixture =
  [Place.with_distance_km Examples.rest_001 (Num 0)].
Proof.
  apply (discover_single _ _ _ _ _ 5.0 10).
  - exact candidates_restaurant.
  - rewrite <- (distanceR_self 40.7130 (-74.0050)).
    apply calculateDistance_Num; lra.
  - apply default_radius_absent. reflexivity.
  - lra.
  - apply default_limit_absent. cbn. apply truthy_zero.
  - lra.
Qed.





(** C6.  For every latitude, longitude and optional category,
    [findNearestPlace] ends as the call of [discoverPlaces] with
    [radius = maxRadius] and [limit = 1] ends: when that call returns a
    response, it returns the first element of its [results], or [null]
    (here [None]) when [results] is empty; when that call throws, it throws
    the same error. *)
Theorem findNearestPlace_first_result_or_null (this : DiscoveryService)
    (latitude longitude : number) (category : option string) (w : World)
    (es0 : list (loc * Place)) :
  is_array (heap w) (MockDataService.mockPlaces (mockDataService this)) es0 ->
  match run (discoverPlaces this (nearest_query this latitude longitude category)) w with
  | (Ok response, w') =>
      exists results,
        array_at (heap w') (DiscoveryResponse.results response) = Some results /\
        run (findNearestPlace this latitude longitude category) w =
          (Ok (hd_error results), w')
  | (Throw e, w') =>
      run (findNearestPlace this latitude longitude category) w = (Throw e, w')
  end.
Proof.
  intros H0. set (query := nearest_query this latitude longitude category).
  destruct (validateQuery_pure this query) as [Hv | (e & field & Hr & _)].
  - destruct (discoverPlaces_validated this query w es0 H0 Hv)
      as (resp & w' & es & Hrun & Hes & _).
    rewrite Hrun. exists (List.map fst es). split.
    + unfold array_at. destruct Hes as [-> _]. reflexivity.
    + unfold findNearestPlace. fold query.
      rewrite (run_bind_ok _ _ _ _ _ Hrun).
      rewrite (run_bind_ok _ _ _ _ _ (run_length _ _ _ Hes)).
      destruct es as [|e es]; [reflexivity|].
      cbn [List.length Nat.ltb Nat.leb]. rewrite (run_get _ _ _ _ Hes). reflexivity.
  - pose proof (discoverPlaces_rejected this query e w Hr) as Hrun.
    rewrite Hrun. unfold findNearestPlace. fold query.
    apply run_bind_throw, Hrun.
Qed.

Lemma findNearestPlace_first_result_or_null_witness :
  match run (discoverPlaces default_service
               (nearest_query default_service (Num 40.7128) (Num (-74.0060)) None))
            (initial_world Examples.steady_clock) with
  | (Ok response, w') =>
      exists results,
        array_at (heap w') (DiscoveryResponse.results response) = Some results /\
        run (findNearestPlace default_service (Num 40.7128) (Num (-74.0060)) None)
            (initial_world Examples.steady_clock) = (Ok (hd_error results), w')
  | (Throw e, w') =>
      run (findNearestPlace default_service (Num 40.7128) (Num (-74.0060)) None)
          (initial_world Examples.steady_clock) = (Throw e, w')
  end.
Proof.
  exact (findNearestPlace_first_result_or_null default_service (Num 40.7128)
           (Num (-74.0060)) None (initial_world Examples.steady_clock) _ initial_is_array).
Defined.



Lemma run_getAvailableCategories (this : MockDataService) (w : World)
    (es : list (loc * Place)) :
  is_array (heap w) (MockDataService.mockPlaces this) es ->
  run (MockDataService.getAvailableCategories this) w =
  (Ok (Set_values [] (List.map (fun e => Place.category (snd e)) es)),
   add_event w (RepositoryCall "getAvailableCategories")).
Proof.
  intros H. unfold MockDataService.getAvailableCategories.
  rewrite (run_bind_ok _ _ _ _ _ (run_emit _ _)).
  rewrite (run_bind_ok _ _ _ _ _ (run_map_string _ (add_event w _) _ es H)).
  reflexivity.
Qed.

Lemma filter_partition_length {A} (f : A -> bool) (xs : list A) :
  (List.length (List.filter f xs) + List.length (List.filter (fun x => negb (f x)) xs)
   = List.length xs)%nat.
Proof.
  induction xs as [|x xs IH]; cbn; [reflexivity|].
  destruct (f x); cbn; lia.
Qed.

(** C9.  [getDataStatistics] returns a partition of the stored places:
    [totalPlaces] is the length of the repository array, and
    [openPlaces + closedPlaces = totalPlaces]. *)
Theorem getDataStatistics_partitions_places (this : MockDataService) (w : World)
    (es : list (loc * Place)) :
  is_array (heap w) (MockDataService.mockPlaces this) es ->
  exists stats w',
    run (MockDataService.getDataStatistics this) w = (Ok stats, w') /\
    MockDataService.totalPlaces stats = List.length es /\
    (MockDataService.openPlaces stats + MockDataService.closedPlaces stats
     = MockDataService.totalPlaces stats)%nat.
Proof.
  intros H.
  set (w1 := add_event w (RepositoryCall "getDataStatistics")).
  set (w2 := add_event w1 (RepositoryCall "getAvailableCategories")).
  set (open := List.filter (fun e : loc * Place => Place.open_now (snd e)) es).
  set (closed := List.filter (fun e : loc * Place => negb (Place.open_now (snd e))) es).
  set (w3 := set_heap w2 (heap w2 ++ [ArrayObj (List.map fst open)])).
  set (w4 := set_heap w3 (heap w3 ++ [ArrayObj (List.map fst closed)])).
  assert (H2 : is_array (heap w2) (MockDataService.mockPlaces this) es) by exact H.
  assert (Ho : is_array (heap w3) (List.length (heap w2)) open).
  { apply is_array_new, Forall_filter_bool, H. }
  assert (H3 : is_array (heap w3) (MockDataService.mockPlaces this) es).
  { apply is_array_app, H. }
  assert (Hc : is_array (heap w4) (List.length (heap w3)) closed).
  { apply is_array_new, Forall_filter_bool, H3. }
  eexists _, w4. split.
  - unfold MockDataService.getDataStatistics.
    rewrite (run_bind_ok _ _ _ _ _ (run_emit _ _)).
    rewrite (run_bind_ok _ _ _ _ _ (run_length w1 _ es H)).
    rewrite (run_bind_ok _ _ _ _ _ (run_getAvailableCategories this w1 es H)).
    rewrite (run_bind_ok _ _ _ _ _ (run_filter _ w2 _ es H2)).
    rewrite (run_bind_ok _ _ _ _ _ (run_length w3 _ open Ho)).
    rewrite (run_bind_ok _ _ _ _ _ (run_filter _ w3 _ es H3)).
    rewrite (run_bind_ok _ _ _ _ _ (run_length w4 _ closed Hc)).
    reflexivity.
  - cbn [MockDataService.totalPlaces MockDataService.openPlaces MockDataService.closedPlaces].
    split; [reflexivity|]. apply filter_partition_length.
Qed.

Lemma getDataStatistics_partitions_places_witness :
  exists stats w',
    run (MockDataService.getDataStatistics initial_repository)
        (initial_world Examples.steady_clock) = (Ok stats, w') /\
    MockDataService.totalPlaces stats =
      List.length (combine (seq 0 (List.length MockDataService.fixture))
                           MockDataService.fixture) /\
    (MockDataService.openPlaces stats + MockDataService.closedPlaces stats
     = MockDataService.totalPlaces stats)%nat.
Proof.
  exact (getDataStatistics_partitions_places initial_repository
           (initial_world Examples.steady_clock) _ initial_is_array).
Defined.

Lemma step_filter (pred : Place -> bool) (w : World) (a : loc) (es : list (loc * Place)) :
  is_array (heap w) a es ->
  exists a' w' es',
    run (Array.filter pred a) w = (Ok a', w') /\
    is_array (heap w') a' es' /\
    List.map snd es' = List.filter pred (List.map snd es).
Proof.
  intros H. eexists _, _, _. split; [apply (run_filter pred), H|].
  split; [apply is_array_new, Forall_filter_bool, H | apply filter_map_snd].
Qed.

Lemma step_category (category : option string) (w : World) (a : loc)
    (es : list (loc * Place)) :
  is_array (heap w) a es ->
  exists a' w' es',
    run (match category with
         | Some c =>
             if negb (String.eqb c EmptyString) then
               Array.filter
                 (fun place => String.eqb (JS.toLowerCase (Place.category place))
                                          (JS.toLowerCase c)) a
             else ret a
         | None => ret a
         end) w = (Ok a', w') /\
    is_array (heap w') a' es' /\
    List.map snd es' = Pipeline.candidates category (List.map snd es).
Proof.
  intros H. unfold Pipeline.candidates.
  destruct category as [c|]; [destruct (negb (String.eqb c EmptyString))|].
  - apply (step_filter (Pipeline.matches_category c)), H.
  - exists a, w, es. auto.
  - exists a, w, es. auto.
Qed.

Lemma step_open (openNow : option bool) (w : World) (a : loc) (es : list (loc * Place)) :
  is_array (heap w) a es ->
  exists a' w' es',
    run (match openNow with
         | Some o => Array.filter (fun place => Bool.eqb (Place.open_now place) o) a
         | None => ret a
         end) w = (Ok a', w') /\
    is_array (heap w') a' es' /\
    List.map snd es' = open_filter openNow (List.map snd es).
Proof.
  intros H. unfold open_filter. destruct openNow as [o|].
  - apply step_filter, H.
  - exists a, w, es. auto.
Qed.

(** C10.  [queryPlaces] with a limit that is [0] or negative skips the
    limit step: the call runs exactly as the call without a limit does, and
    returns all the places that match the category and [openNow] filters. *)
Theorem queryPlaces_nonpositive_limit_returns_all (this : MockDataService) (w : World)
    (es : list (loc * Place)) (category : option string) (openNow : option bool)
    (l : R) :
  is_array (heap w) (MockDataService.mockPlaces this) es ->
  l <= 0 ->
  run (MockDataService.queryPlaces this
         (Some {| MockDataService.category := category;
                  MockDataService.openNow := openNow;
                  MockDataService.limit := Some (Num l) |})) w =
  run (MockDataService.queryPlaces this
         (Some {| MockDataService.category := category;
                  MockDataService.openNow := openNow;
                  MockDataService.limit := None |})) w /\
  exists results w',
    run (MockDataService.queryPlaces this
           (Some {| MockDataService.category := category;
                    MockDataService.openNow := openNow;
                    MockDataService.limit := Some (Num l) |})) w = (Ok results, w') /\
    places_of (heap w') results =
      Some (open_filter openNow (Pipeline.candidates category (List.map snd es))).
Proof.
  intros H Hl.
  assert (Hskip : truthy (Num l) && JS.gt (Num l) (Num 0) = false).
  { apply andb_false_intro2. apply lt_Num_false. exact Hl. }
  unfold MockDataService.queryPlaces.
  cbn [MockDataService.category MockDataService.openNow MockDataService.limit].
  rewrite Hskip. split; [reflexivity|].
  rewrite (run_bind_ok _ _ _ _ _ (run_emit _ _)).
  set (w1 := add_event w (RepositoryCall "queryPlaces")).
  rewrite (run_bind_ok _ _ _ _ _ (run_spread w1 _ es H)).
  set (w2 := set_heap w1 _).
  assert (H2 : is_array (heap w2) (List.length (heap w1)) es) by (apply is_array_new, H).
  destruct (step_category category w2 _ es H2) as (a3 & w3 & es3 & Hrun3 & H3 & Hps3).
  rewrite (run_bind_ok _ _ _ _ _ Hrun3).
  destruct (step_open openNow w3 a3 es3 H3) as (a4 & w4 & es4 & Hrun4 & H4 & Hps4).
  rewrite (run_bind_ok _ _ _ _ _ Hrun4).
  exists a4, w4. split; [reflexivity|].
  rewrite (places_of_is_array _ _ _ H4), Hps4, Hps3. reflexivity.
Qed.

Lemma queryPlaces_nonpositive_limit_returns_all_witness :
  run (MockDataService.queryPlaces initial_repository
         (Some {| MockDataService.category := Some "cafe"%string;
                  MockDataService.openNow := Some true;
                  MockDataService.limit := Some (Num (-1)) |}))
      (initial_world Examples.steady_clock) =
  run (MockDataService.queryPlaces initial_repository
         (Some {| MockDataService.category := Some "cafe"%string;
                  MockDataService.openNow := Some true;
                  MockDataService.limit := None |}))
      (initial_world Examples.steady_clock) /\
  exists results w',
    run (MockDataService.queryPlaces initial_repository
           (Some {| MockDataService.category := Some "cafe"%string;
                    MockDataService.openNow := Some true;
                    MockDataService.limit := Some (Num (-1)) |}))
        (initial_world Examples.steady_clock) = (Ok results, w') /\
    places_of (heap w') results =
      Some (open_filter (Some true)
              (Pipeline.candidates (Some "cafe"%string)
                 (List.map snd (combine (seq 0 (List.length MockDataService.fixture))
                                        MockDataService.fixture)))).
Proof.
  apply (queryPlaces_nonpositive_limit_returns_all initial_repository
           (initial_world Examples.steady_clock) _ (Some "cafe"%string) (Some true) (-1)
           initial_is_array).
  lra.
Defined.

Lemma known_categories_lower_case :
  Forall (fun c => JS.toLowerCase c = c) PlaceCategory.values.
Proof. repeat constructor. Qed.

Lemma toLowerCase_known (c : string) :
  In c PlaceCategory.values -> JS.toLowerCase c = c.
Proof.
  intros H. pose proof known_categories_lower_case as Hk.
  rewrite List.Forall_forall in Hk. apply Hk, H.
Qed.

Lemma fixture_categories :
  List.map Place.category MockDataService.fixture =
  [PlaceCategory.RESTAURANT; PlaceCategory.CAFE; PlaceCategory.BAR; PlaceCategory.SHOP;
   PlaceCategory.HOTEL; PlaceCategory.ATTRACTION; PlaceCategory.PARK;
   PlaceCategory.HOSPITAL; PlaceCategory.GAS_STATION; PlaceCategory.BANK;
   PlaceCategory.GYM; PlaceCategory.PHARMACY].
Proof. reflexivity. Qed.

Lemma fixture_categories_known :
  Forall (fun p => In (Place.category p) PlaceCategory.values) MockDataService.fixture.
Proof.
  apply (proj1 (List.Forall_map Place.category (fun c => In c PlaceCategory.values) _)).
  rewrite fixture_categories.
  repeat (apply List.Forall_cons; [cbn; tauto|]). apply List.Forall_nil.
Qed.

(** No stored place matches a category whose lower-case form is unknown. *)
Lemma candidates_unknown (c : string) (places : list Place) :
  Forall (fun p => In (Place.category p) PlaceCategory.values) places ->
  ~ In (JS.toLowerCase c) PlaceCategory.values ->
  List.filter (Pipeline.matches_category c) places = [].
Proof.
  intros Hk Hc. induction Hk as [|p ps Hp _ IH]; [reflexivity|].
  cbn [List.filter]. rewrite IH.
  destruct (Pipeline.matches_category c p) eqn:Hm; [|reflexivity].
  exfalso. apply Hc. unfold Pipeline.matches_category in Hm.
  apply String.eqb_eq in Hm. rewrite <- Hm, (toLowerCase_known _ Hp). exact Hp.
Qed.

Lemma discover_no_candidates (this : DiscoveryService) (query : DiscoveryQuery)
    (places : list Place) :
  Pipeline.candidates (DiscoveryQuery.category query) places = [] ->
  Pipeline.discover this query places = [].
Proof.
  intros Hc. unfold Pipeline.discover, Pipeline.sorted_in_radius. rewrite Hc.
  cbn [List.map List.filter stable_sort]. unfold slice. cbn [List.length].
  rewrite skipn_nil. apply firstn_nil.
Qed.

Lemma repository_calls_add_log (w : World) (msg : list fragment) :
  repository_calls (add_event w (LoggerLog msg)) = repository_calls w.
Proof.
  unfold repository_calls. cbn [events add_event].
  rewrite flat_map_app. cbn. apply app_nil_r.
Qed.

Lemma repository_calls_add_error (w : World) (msg : list fragment) :
  repository_calls (add_event w (LoggerError msg)) = repository_calls w.
Proof.
  unfold repository_calls. cbn [events add_event].
  rewrite flat_map_app. cbn. apply app_nil_r.
Qed.

(** C3, as amended.  For a query that passes validation and whose category
    is present, non-empty and, in lower case, not a known category,
    [discoverPlaces] does not fail: no stored place matches, and it returns
    a response with empty [results] and [total = 0].  Whenever validation
    rejects a query, [discoverPlaces] throws that error without any
    repository method having been called and without touching the store. *)
Theorem discoverPlaces_unknown_category_yields_nothing (this : DiscoveryService)
    (query : DiscoveryQuery) (w : World) (es0 : list (loc * Place)) (c : string) :
  is_array (heap w) (MockDataService.mockPlaces (mockDataService this)) es0 ->
  Forall (fun e => In (Place.category (snd e)) PlaceCategory.values) es0 ->
  validates this query ->
  DiscoveryQuery.category query = Some c ->
  c <> EmptyString ->
  ~ In (JS.toLowerCase c) PlaceCategory.values ->
  (exists response w',
     run (discoverPlaces this query) w = (Ok response, w') /\
     places_of (heap w') (DiscoveryResponse.results response) = Some [] /\
     DiscoveryResponse.total response = 0%nat) /\
  (forall (rejected : DiscoveryQuery) (e : Error),
     rejects this rejected e ->
     exists w',
       run (discoverPlaces this rejected) w = (Throw e, w') /\
       repository_calls w' = repository_calls w /\
       heap w' = heap w).
Proof.
  intros H0 Hk Hv Hcat Hne Hunknown. split.
  - destruct (discoverPlaces_returns this query w es0 H0 Hv)
      as (resp & w' & Hrun & Hp & Ht & _).
    assert (Hd : Pipeline.discover this query (List.map snd es0) = []).
    { apply discover_no_candidates. rewrite Hcat. unfold Pipeline.candidates.
      apply String.eqb_neq in Hne. rewrite Hne. cbn [negb].
      apply candidates_unknown; [|exact Hunknown].
      apply Forall_map. exact Hk. }
    rewrite Hd in Hp, Ht. exists resp, w'. auto.
  - intros rejected e Hr. eexists. split; [apply discoverPlaces_rejected, Hr|].
    split; [|reflexivity].
    rewrite repository_calls_add_error, repository_calls_add_log. reflexivity.
Qed.

Lemma initial_categories_known :
  Forall (fun e : loc * Place => In (Place.category (snd e)) PlaceCategory.values)
         (combine (seq 0 (List.length MockDataService.fixture)) MockDataService.fixture).
Proof.
  pose proof fixture_categories_known as H. rewrite <- initial_places in H.
  apply List.Forall_map in H. exact H.
Qed.

Lemma invalid_category_unknown :
  ~ In (JS.toLowerCase "invalid_category") PlaceCategory.values.
Proof. intros H. vm_compute in H. intuition discriminate. Qed.

Lemma discoverPlaces_unknown_category_yields_nothing_witness :
  (exists response w',
     run (discoverPlaces default_service Examples.invalid_category)
         (initial_world Examples.steady_clock) = (Ok response, w') /\
     places_of (heap w') (DiscoveryResponse.results response) = Some [] /\
     DiscoveryResponse.total response = 0%nat) /\
  (forall (rejected : DiscoveryQuery) (e : Error),
     rejects default_service rejected e ->
     exists w',
       run (discoverPlaces default_service rejected)
           (initial_world Examples.steady_clock) = (Throw e, w') /\
       repository_calls w' = repository_calls (initial_world Examples.steady_clock) /\
       heap w' = heap (initial_world Examples.steady_clock)).
Proof.
  apply (discoverPlaces_unknown_category_yields_nothing default_service
           Examples.invalid_category (initial_world Examples.steady_clock) _
           "invalid_category"%string initial_is_array initial_categories_known
           validates_invalid_category).
  - reflexivity.
  - discriminate.
  - exact invalid_category_unknown.
Defined.

(** C3, as stated, fails: the category [invalid_category] is not a known
    category and the query is otherwise valid, yet [discoverPlaces] does not
    throw. *)
Lemma discoverPlaces_invalid_category_not_rejected :
  DiscoveryQuery.category Examples.invalid_category = Some "invalid_category"%string /\
  ~ In "invalid_category"%string PlaceCategory.values /\
  validates default_service Examples.invalid_category /\
  ~ exists e w',
      run (discoverPlaces default_service Examples.invalid_category)
          (initial_world Examples.steady_clock) = (Throw e, w').
Proof.
  split; [reflexivity|]. split; [exact invalid_category_unknown|].
  split; [exact validates_invalid_category|].
  intros (e & w' & Hthrow).
  destruct (discoverPlaces_initial Examples.invalid_category Examples.steady_clock
              validates_invalid_category) as (resp & w'' & Hrun & _).
  rewrite Hrun in Hthrow. discriminate.
Qed.

(** C1.  The query with [radius: 0] passes [validateQuery] and is answered
    with the default radius 5: the place returned has [distance_km = 1.11],
    which is not within the radius 0 of the query. *)
Theorem discoverPlaces_radius_zero_returns_distant_place :
  exists response w',
    validates default_service Examples.radius_zero /\
    DiscoveryQuery.radius Examples.radius_zero = Some (Num 0) /\
    run (discoverPlaces default_service Examples.radius_zero)
        (initial_world Examples.steady_clock) = (Ok response, w') /\
    places_of (heap w') (DiscoveryResponse.results response) =
      Some [Place.with_distance_km Examples.rest_001 (Num 1.11)] /\
    JS.le (Num 1.11) (Num 0) = false /\
    DiscoveryQuery.radius (DiscoveryResponse.query response) = Some (Num 5.0).
Proof.
  destruct (discoverPlaces_initial Examples.radius_zero Examples.steady_clock
              validates_radius_zero) as (resp & w' & Hrun & Hp & _ & Hq).
  rewrite discover_radius_zero in Hp.
  exists resp, w'.
  split; [exact validates_radius_zero|]. split; [reflexivity|].
  split; [exact Hrun|]. split; [exact Hp|]. split.
  - apply le_Num_false. lra.
  - rewrite Hq. cbn [DiscoveryQuery.radius]. f_equal.
    apply default_radius_absent. cbn. apply truthy_zero.
Qed.

(** C2.  The query with [limit: 0] is not rejected: it passes
    [validateQuery], and [discoverPlaces] returns a response that reports
    the limit 10. *)
Theorem discoverPlaces_limit_zero_not_rejected :
  exists response w',
    validates default_service Examples.limit_zero /\
    DiscoveryQuery.limit Examples.limit_zero = Some (Num 0) /\
    run (discoverPlaces default_service Examples.limit_zero)
        (initial_world Examples.steady_clock) = (Ok response, w') /\
    DiscoveryQuery.limit (DiscoveryResponse.query response) = Some (Num 10).
Proof.
  destruct (discoverPlaces_initial Examples.limit_zero Examples.steady_clock
              validates_limit_zero) as (resp & w' & Hrun & _ & _ & Hq).
  exists resp, w'. split; [exact validates_limit_zero|]. split; [reflexivity|].
  split; [exact Hrun|].
  rewrite Hq. cbn [DiscoveryQuery.limit]. f_equal.
  apply default_limit_absent. cbn. apply truthy_zero.
Qed.

(** C4.  The query with [limit: 0] passes [validateQuery] and is answered
    with one place, more than [min(0, maxResults) = 0]. *)
Theorem discoverPlaces_limit_zero_returns_a_place :
  exists response w' place,
    validates default_service Examples.limit_zero_restaurant /\
    DiscoveryQuery.limit Examples.limit_zero_restaurant = Some (Num 0) /\
    run (discoverPlaces default_service Examples.limit_zero_restaurant)
        (initial_world Examples.steady_clock) = (Ok response, w') /\
    places_of (heap w') (DiscoveryResponse.results response) = Some [place] /\
    place = Place.with_distance_km Examples.rest_001 (Num 0) /\
    DiscoveryResponse.total response = 1%nat /\
    JS.le (Num (INR 1)) (Math.min (Num 0) (maxResults default_service)) = false.
Proof.
  destruct (discoverPlaces_initial Examples.limit_zero_restaurant Examples.steady_clock
              validates_limit_zero_restaurant) as (resp & w' & Hrun & Hp & Ht & _).
  rewrite discover_limit_zero_restaurant in Hp, Ht.
  eexists resp, w', _.
  split; [exact validates_limit_zero_restaurant|]. split; [reflexivity|].
  split; [exact Hrun|]. split; [exact Hp|]. split; [reflexivity|]. split; [exact Ht|].
  cbn [Math.min maxResults default_service DiscoveryService.new ConfigService_get
       discovery_maxResults].
  apply le_Num_false. rewrite Rmin_left by lra. change (INR 1) with 1. lra.
Qed.

(** For a query that passes validation, every returned place lies within
    the radius the code uses, [query.radius || defaultRadius], and the
    results are in non-decreasing order of distance. *)
Theorem discoverPlaces_within_radius_and_sorted (this : DiscoveryService)
    (query : DiscoveryQuery) (w : World) (es0 : list (loc * Place)) :
  is_array (heap w) (MockDataService.mockPlaces (mockDataService this)) es0 ->
  validates this query ->
  exists response w' results,
    run (discoverPlaces this query) w = (Ok response, w') /\
    places_of (heap w') (DiscoveryResponse.results response) = Some results /\
    Forall (fun place =>
              JS.le (Place.distance_km place)
                    (JS.or_else (DiscoveryQuery.radius query) (defaultRadius this)) = true)
           results /\
    Sorted distance_le results.
Proof.
  intros H0 Hv.
  destruct (discoverPlaces_returns this query w es0 H0 Hv) as (resp & w' & Hrun & Hp & _).
  exists resp, w', (Pipeline.discover this query (List.map snd es0)).
  split; [exact Hrun|]. split; [exact Hp|].
  split; [apply discover_within | apply discover_sorted].
Qed.

Lemma discoverPlaces_within_radius_and_sorted_witness :
  exists response w' results,
    run (discoverPlaces default_service Examples.radius_zero)
        (initial_world Examples.steady_clock) = (Ok response, w') /\
    places_of (heap w') (DiscoveryResponse.results response) = Some results /\
    Forall (fun place =>
              JS.le (Place.distance_km place)
                    (JS.or_else (DiscoveryQuery.radius Examples.radius_zero)
                                (defaultRadius default_service)) = true)
           results /\
    Sorted distance_le results.
Proof.
  exact (discoverPlaces_within_radius_and_sorted default_service Examples.radius_zero
           (initial_world Examples.steady_clock) _ initial_is_array validates_radius_zero).
Defined.

(** A validated limit that is truthy is a number between 1 and [maxResults]. *)
Lemma validated_limit (this : DiscoveryService) (query : DiscoveryQuery)
    (l : number) (m : R) :
  validates this query -> maxResults this = Num m ->
  DiscoveryQuery.limit query = Some l -> truthy l = true ->
  exists x, l = Num x /\ 1 <= x <= m.
Proof.
  intros (_ & _ & _ & Hl)%validates_iff Hm Hq Ht. rewrite Hq, Ht, Hm in Hl.
  cbn [andb] in Hl. apply orb_false_elim in Hl as [H1 H2].
  destruct l as [|x]; [discriminate|].
  exists x. unfold JS.gt in H2. apply lt_Num_false in H1, H2. auto.
Qed.

(** For a query that passes validation, the number of results is at most
    [min(limit, maxResults)] when the limit is absent (then 10) or truthy,
    for a non-negative [maxResults]. *)
Theorem discoverPlaces_length_within_limit (this : DiscoveryService)
    (query : DiscoveryQuery) (w : World) (es0 : list (loc * Place)) (m : R) :
  is_array (heap w) (MockDataService.mockPlaces (mockDataService this)) es0 ->
  validates this query ->
  maxResults this = Num m -> 0 <= m ->
  match DiscoveryQuery.limit query with
  | Some l => truthy l = true
  | None => True
  end ->
  exists response w' results,
    run (discoverPlaces this query) w = (Ok response, w') /\
    places_of (heap w') (DiscoveryResponse.results response) = Some results /\
    JS.le (Num (INR (List.length results)))
          (Math.min (match DiscoveryQuery.limit query with
                     | Some l => l
                     | None => Num 10
                     end) (maxResults this)) = true.
Proof.
  intros H0 Hv Hm Hm0 Hl.
  destruct (discoverPlaces_returns this query w es0 H0 Hv) as (resp & w' & Hrun & Hp & _).
  exists resp, w', (Pipeline.discover this query (List.map snd es0)).
  split; [exact Hrun|]. split; [exact Hp|].
  unfold Pipeline.discover, Pipeline.limit, JS.or_else. rewrite Hm.
  destruct (DiscoveryQuery.limit query) as [l|] eqn:Hq.
  - rewrite Hl. destruct (validated_limit this query l m Hv Hm Hq Hl) as (x & -> & Hx).
    cbn [Math.min]. apply le_Num, slice_length_le.
    apply Rmin_glb; lra.
  - cbn [Math.min]. apply le_Num, slice_length_le. apply Rmin_glb; lra.
Qed.

Lemma discoverPlaces_length_within_limit_witness :
  exists response w' results,
    run (discoverPlaces default_service Examples.limit_three)
        (initial_world Examples.steady_clock) = (Ok response, w') /\
    places_of (heap w') (DiscoveryResponse.results response) = Some results /\
    JS.le (Num (INR (List.length results)))
          (Math.min (match DiscoveryQuery.limit Examples.limit_three with
                     | Some l => l
                     | None => Num 10
                     end) (maxResults default_service)) = true.
Proof.
  apply (discoverPlaces_length_within_limit default_service Examples.limit_three
           (initial_world Examples.steady_clock) _ 50 initial_is_array
           validates_limit_three).
  - reflexivity.
  - lra.
  - apply truthy_Num. lra.
Defined.

(** Latitude 91, longitude -181 and radius 0.05 are rejected with an error
    whose message names the field. *)
Theorem discoverPlaces_rejects_out_of_range (this : DiscoveryService)
    (query : DiscoveryQuery) (w : World) :
  (DiscoveryQuery.latitude query = Num 91 ->
   exists e w', run (discoverPlaces this query) w = (Throw e, w') /\
                InvalidArgument e "latitude") /\
  (DistanceUtil.isValidLatitude (DiscoveryQuery.latitude query) = true ->
   DiscoveryQuery.longitude query = Num (-181) ->
   exists e w', run (discoverPlaces this query) w = (Throw e, w') /\
                InvalidArgument e "longitude") /\
  (DistanceUtil.isValidLatitude (DiscoveryQuery.latitude query) = true ->
   DistanceUtil.isValidLongitude (DiscoveryQuery.longitude query) = true ->
   DiscoveryQuery.radius query = Some (Num 0.05) ->
   exists e w', run (discoverPlaces this query) w = (Throw e, w') /\
                InvalidArgument e "radius").
Proof.
  assert (Hthrow : forall e field,
            rejects this query e -> InvalidArgument e field ->
            exists e' w', run (discoverPlaces this query) w = (Throw e', w') /\
                          InvalidArgument e' field).
  { intros e field Hr Hi. exists e. eexists. split; [apply discoverPlaces_rejected, Hr | exact Hi]. }
  split; [|split].
  - intros Hlat.
    apply (Hthrow {| message := [Str "Invalid latitude: ";
                                 Val (DiscoveryQuery.latitude query);
                                 Str ". Must be between -90 and 90."] |});
      [|reflexivity].
    intros w0. unfold validateQuery, run, bind, throw.
    assert (Hf : DistanceUtil.isValidLatitude (DiscoveryQuery.latitude query) = false).
    { rewrite Hlat. unfold DistanceUtil.isValidLatitude. cbn [isNaN negb andb].
      rewrite (proj2 (le_Num_false 91 90)) by lra. apply andb_false_r. }
    rewrite Hf. reflexivity.
  - intros Hlat Hlng.
    apply (Hthrow {| message := [Str "Invalid longitude: ";
                                 Val (DiscoveryQuery.longitude query);
                                 Str ". Must be between -180 and 180."] |});
      [|reflexivity].
    intros w0. unfold validateQuery, run, bind, throw, ret. rewrite Hlat. cbn [negb].
    assert (Hf : DistanceUtil.isValidLongitude (DiscoveryQuery.longitude query) = false).
    { rewrite Hlng. unfold DistanceUtil.isValidLongitude, JS.ge. cbn [isNaN negb andb].
      rewrite (proj2 (le_Num_false (-180) (-181))) by lra. reflexivity. }
    rewrite Hf. reflexivity.
  - intros Hlat Hlng Hrad.
    apply (Hthrow {| message := [Str "Invalid radius: "; Val (Num 0.05);
                                 Str ". Must be between 0.1 and ";
                                 Val (maxRadius this); Str " km."] |});
      [|reflexivity].
    intros w0. unfold validateQuery, run, bind, throw, ret. rewrite Hlat, Hlng, Hrad.
    cbn [negb].
    assert (Ht : truthy (Num 0.05) = true) by (apply truthy_Num; lra).
    assert (Hlt : JS.lt (Num 0.05) (Num 0.1) = true) by (apply lt_Num; lra).
    rewrite Ht, Hlt. reflexivity.
Qed.

(** Repeating a query gives the same places and the same total: the first
    call leaves the repository as it was. *)
Theorem discoverPlaces_repeatable (this : DiscoveryService) (query : DiscoveryQuery)
    (w : World) (es0 : list (loc * Place)) :
  is_array (heap w) (MockDataService.mockPlaces (mockDataService this)) es0 ->
  validates this query ->
  exists first w1 second w2 results,
    run (discoverPlaces this query) w = (Ok first, w1) /\
    run (discoverPlaces this query) w1 = (Ok second, w2) /\
    places_of (heap w1) (DiscoveryResponse.results first) = Some results /\
    places_of (heap w2) (DiscoveryResponse.results second) = Some results /\
    DiscoveryResponse.total first = DiscoveryResponse.total second.
Proof.
  intros H0 Hv.
  destruct (discoverPlaces_validated this query w es0 H0 Hv)
    as (r1 & w1 & es1 & Hrun1 & Hes1 & Hps1 & _ & _ & Hu1 & Ht1 & _).
  assert (H1 : is_array (heap w1) (MockDataService.mockPlaces (mockDataService this)) es0).
  { eapply is_array_agree; [exact Hu1 | exact H0]. }
  destruct (discoverPlaces_returns this query w1 es0 H1 Hv)
    as (r2 & w2 & Hrun2 & Hp2 & Ht2 & _).
  exists r1, w1, r2, w2, (Pipeline.discover this query (List.map snd es0)).
  split; [exact Hrun1|]. split; [exact Hrun2|]. split; [|split; [exact Hp2|]].
  - rewrite (places_of_is_array _ _ _ Hes1), Hps1. reflexivity.
  - rewrite Ht1, Ht2, <- Hps1, length_map. reflexivity.
Qed.

Lemma discoverPlaces_repeatable_witness :
  exists first w1 second w2 results,
    run (discoverPlaces default_service Examples.limit_zero_restaurant)
        (initial_world Examples.steady_clock) = (Ok first, w1) /\
    run (discoverPlaces default_service Examples.limit_zero_restaurant) w1 = (Ok second, w2) /\
    places_of (heap w1) (DiscoveryResponse.results first) = Some results /\
    places_of (heap w2) (DiscoveryResponse.results second) = Some results /\
    DiscoveryResponse.total first = DiscoveryResponse.total second.
Proof.
  exact (discoverPlaces_repeatable default_service Examples.limit_zero_restaurant
           (initial_world Examples.steady_clock) _ initial_is_array
           validates_limit_zero_restaurant).
Defined.

(** On the fixture data the statistics are 12 places, 12 categories, 11
    open and 1 closed. *)
Theorem getDataStatistics_initial (clock : nat -> number) :
  exists w',
    run (MockDataService.getDataStatistics initial_repository) (initial_world clock) =
    (Ok {| MockDataService.totalPlaces := 12;
           MockDataService.categoriesCount := 12;
           MockDataService.openPlaces := 11;
           MockDataService.closedPlaces := 1 |}, w').
Proof.
  set (es := combine (seq 0 (List.length MockDataService.fixture)) MockDataService.fixture).
  pose proof initial_is_array as H. fold es in H.
  set (w := initial_world clock).
  set (w1 := add_event w (RepositoryCall "getDataStatistics")).
  set (w2 := add_event w1 (RepositoryCall "getAvailableCategories")).
  set (open := List.filter (fun e : loc * Place => Place.open_now (snd e)) es).
  set (closed := List.filter (fun e : loc * Place => negb (Place.open_now (snd e))) es).
  set (w3 := set_heap w2 (heap w2 ++ [ArrayObj (List.map fst open)])).
  set (w4 := set_heap w3 (heap w3 ++ [ArrayObj (List.map fst closed)])).
  assert (Ho : is_array (heap w3) (List.length (heap w2)) open).
  { apply is_array_new, Forall_filter_bool, H. }
  assert (H3 : is_array (heap w3) (MockDataService.mockPlaces initial_repository) es).
  { apply is_array_app, H. }
  assert (Hc : is_array (heap w4) (List.length (heap w3)) closed).
  { apply is_array_new, Forall_filter_bool, H3. }
  exists w4. unfold MockDataService.getDataStatistics.
  rewrite (run_bind_ok _ _ _ _ _ (run_emit _ _)).
  rewrite (run_bind_ok _ _ _ _ _ (run_length w1 _ es H)).
  rewrite (run_bind_ok _ _ _ _ _ (run_getAvailableCategories initial_repository w1 es H)).
  rewrite (run_bind_ok _ _ _ _ _ (run_filter _ w2 _ es H)).
  rewrite (run_bind_ok _ _ _ _ _ (run_length w3 _ open Ho)).
  rewrite (run_bind_ok _ _ _ _ _ (run_filter _ w3 _ es H3)).
  rewrite (run_bind_ok _ _ _ _ _ (run_length w4 _ closed Hc)).
  reflexivity.
Qed.

(** With a category that no place has, [findNearestPlace] returns [null]
    and throws nothing. *)
Theorem findNearestPlace_unknown_category_null (clock : nat -> number) :
  exists w',
    run (findNearestPlace default_service (Num 40.7128) (Num (-74.0060))
           (Some "invalid_category"%string)) (initial_world clock) = (Ok None, w').
Proof.
  set (query := nearest_query default_service (Num 40.7128) (Num (-74.0060))
                  (Some "invalid_category"%string)).
  assert (Hv : validates default_service query).
  { apply validates_iff. cbn [query nearest_query DiscoveryQuery.latitude
      DiscoveryQuery.longitude DiscoveryQuery.radius DiscoveryQuery.limit].
    split; [|split; [|split]].
    - apply isValidLatitude_true. eexists; split; [reflexivity | lra].
    - apply isValidLongitude_true. eexists; split; [reflexivity | lra].
    - apply andb_false_intro2. apply orb_false_intro.
      + apply lt_Num_false. lra.
      + unfold JS.gt. apply lt_Num_false. lra.
    - apply andb_false_intro2. apply orb_false_intro.
      + apply lt_Num_false. lra.
      + unfold JS.gt. apply lt_Num_false. lra. }
  destruct (discoverPlaces_validated default_service query (initial_world clock)
              (combine (seq 0 (List.length MockDataService.fixture)) MockDataService.fixture)
              initial_is_array Hv) as (resp & w' & es & Hrun & Hes & Hps & _).
  assert (Hnil : es = []).
  { rewrite initial_places in Hps.
    rewrite (discover_no_candidates default_service query) in Hps
      by exact candidates_invalid_category.
    destruct es; [reflexivity | discriminate]. }
  subst es. exists w'. unfold findNearestPlace. fold query.
  rewrite (run_bind_ok _ _ _ _ _ Hrun).
  rewrite (run_bind_ok _ _ _ _ _ (run_length _ _ _ Hes)). reflexivity.
Qed.

End Claims.

(** ** [DistanceUtil]: range, symmetry, arcs *)

Section DistanceMore.
Local Open Scope R_scope.

(** The haversine term lies in [[0, 1]] for all real arguments: it is a
    weighted mean of [sin^2 u] and [(1 + cos (p1 + p2)) / 2]. *)
Lemma hav_unit_interval (la1 lo1 la2 lo2 : R) : 0 <= hav la1 lo1 la2 lo2 <= 1.
Proof.
  unfold hav.
  set (u := (la2 - la1) * (PI / 180) / 2).
  set (v := (lo2 - lo1) * (PI / 180) / 2).
  set (p1 := la1 * (PI / 180)). set (p2 := la2 * (PI / 180)).
  pose proof (sin2_cos2 v) as Hv. unfold Rsqr in Hv.
  pose proof (sin2_cos2 u) as Hu2. unfold Rsqr in Hu2.
  pose proof (cos_2a_sin u) as Hu.
  replace (2 * u) with (p2 - p1) in Hu by (unfold u, p1, p2; lra).
  rewrite cos_minus in Hu.
  pose proof (cos_plus p2 p1) as Hp.
  pose proof (COS_bound (p2 + p1)) as [Hb1 Hb2].
  assert (HA : 0 <= sin u * sin u <= 1) by nra.
  assert (Ht : 0 <= sin v * sin v <= 1) by nra.
  assert (HB : 0 <= sin u * sin u + cos p1 * cos p2 <= 1) by lra.
  assert (0 <= (1 - sin v * sin v) * (sin u * sin u) <= 1 - sin v * sin v).
  { split; [apply Rmult_le_pos; lra|].
    rewrite <- (Rmult_1_r (1 - sin v * sin v)) at 2. apply Rmult_le_compat_l; lra. }
  assert (0 <= sin v * sin v * (sin u * sin u + cos p1 * cos p2) <= sin v * sin v).
  { split; [apply Rmult_le_pos; lra|].
    rewrite <- (Rmult_1_r (sin v * sin v)) at 2. apply Rmult_le_compat_l; lra. }
  replace (sin u * sin u + cos p1 * cos p2 * sin v * sin v)
    with ((1 - sin v * sin v) * (sin u * sin u) +
          sin v * sin v * (sin u * sin u + cos p1 * cos p2)) by ring.
  lra.
Qed.

Lemma calculateDistance_numbers (la1 lo1 la2 lo2 : R) :
  DistanceUtil.calculateDistance {| lat := Num la1; lng := Num lo1 |}
                                 {| lat := Num la2; lng := Num lo2 |}
  = Num (distanceR la1 lo1 la2 lo2).
Proof.
  pose proof (hav_unit_interval la1 lo1 la2 lo2) as Hb.
  unfold DistanceUtil.calculateDistance, DistanceUtil.toRadians,
    DistanceUtil.EARTH_RADIUS_KM, Math.PI, lat, lng.
  cbv zeta.
  rewrite !(div_Num _ 180) by lra.
  rewrite !sub_Num, !mul_Num.
  rewrite !(div_Num _ 2) by lra.
  unfold Math.sin, Math.cos.
  rewrite !mul_Num, !add_Num.
  fold (hav la1 lo1 la2 lo2).
  rewrite sub_Num.
  rewrite !sqrt_Num by lra.
  unfold Math.atan2. rewrite !mul_Num. unfold Math.round.
  rewrite div_Num by lra. reflexivity.
Qed.

(** The angle of a point of the closed first quadrant. *)
Lemma atan2R_first_quadrant (y x : R) :
  0 <= y -> 0 <= x -> 0 <= Math.atan2R y x <= PI / 2.
Proof.
  intros Hy Hx. pose proof PI_RGT_0 as HPI. unfold Math.atan2R.
  destruct (Rlt_dec 0 x) as [Hpos|Hnpos].
  - pose proof (atan_bound (y / x)) as [_ Hub].
    assert (0 <= y / x) as Hq.
    { unfold Rdiv. apply Rmult_le_pos; [exact Hy|]. left. apply Rinv_0_lt_compat, Hpos. }
    split; [|lra].
    destruct Hq as [Hq|<-]; [|rewrite atan_0; lra].
    pose proof (atan_increasing 0 (y / x) Hq) as Hi. rewrite atan_0 in Hi. lra.
  - destruct (Rlt_dec x 0); [lra|].
    destruct (Rlt_dec 0 y); [lra|].
    destruct (Rlt_dec y 0); lra.
Qed.

Lemma distanceR_range (la1 lo1 la2 lo2 : R) :
  0 <= distanceR la1 lo1 la2 lo2 <= 6371 * PI + 0.005.
Proof.
  unfold distanceR. cbv zeta.
  pose proof (hav_unit_interval la1 lo1 la2 lo2) as [Ha0 Ha1].
  set (a := hav la1 lo1 la2 lo2) in *.
  pose proof (atan2R_first_quadrant (sqrt a) (sqrt (1 - a))
                (sqrt_pos _) (sqrt_pos _)) as [Ht0 Ht1].
  set (th := Math.atan2R (sqrt a) (sqrt (1 - a))) in *.
  pose proof (Zfloor_bound (6371 * (2 * th) * 100 + / 2)) as [Hf1 Hf2].
  assert (0 <= Zfloor (6371 * (2 * th) * 100 + / 2))%Z as Hz.
  { apply (Zfloor_lub 0). nra. }
  apply IZR_le in Hz. lra.
Qed.


Lemma PI_tight : 3.14159238 < PI < 3.14159393.
Proof.
  pose proof (PI_2_3_7_ineq 4) as [Hlo Hhi].
  unfold PI_2_3_7_tg, Ratan_seq, tg_alt in Hlo, Hhi.
  cbn [sum_f_R0 Nat.mul Nat.add pow] in Hlo, Hhi.
  repeat rewrite S_INR in Hlo. repeat rewrite S_INR in Hhi.
  change (INR 0) with 0 in Hlo, Hhi.
  split; lra.
Qed.

Lemma calculateDistance_NaN (a b : Coordinates) :
  isNaN (lat a) || isNaN (lng a) || isNaN (lat b) || isNaN (lng b) = true ->
  DistanceUtil.calculateDistance a b = NaN.
Proof.
  destruct a as [la1 lo1], b as [la2 lo2]. cbn [lat lng].
  unfold DistanceUtil.calculateDistance, DistanceUtil.toRadians, Math.PI, lat, lng.
  cbv zeta. rewrite !(div_Num _ 180) by lra.
  destruct la1 as [|la1], lo1 as [|lo1], la2 as [|la2], lo2 as [|lo2];
    cbn [isNaN orb]; intros H; try discriminate H; clear H;
    cbn [JS.sub JS.mul JS.add Math.sin Math.cos];
    rewrite ?(div_Num _ 2) by lra;
    cbn [JS.div JS.sub JS.mul JS.add Math.sin Math.cos Math.sqrt Math.atan2 Math.round];
    reflexivity.
Qed.

(** [calculateDistance] is symmetric for all arguments, [NaN] included. *)
Lemma calculateDistance_sym (a b : Coordinates) :
  DistanceUtil.calculateDistance a b = DistanceUtil.calculateDistance b a.
Proof.
  destruct (isNaN (lat a) || isNaN (lng a) || isNaN (lat b) || isNaN (lng b)) eqn:Hn.
  - rewrite (calculateDistance_NaN a b Hn). symmetry. apply calculateDistance_NaN.
    destruct (isNaN (lat a)), (isNaN (lng a)), (isNaN (lat b)), (isNaN (lng b));
      try discriminate Hn; reflexivity.
  - destruct a as [[|la1] [|lo1]], b as [[|la2] [|lo2]]; try discriminate Hn.
    rewrite !calculateDistance_numbers. f_equal. apply distanceR_sym.
Qed.

Lemma distanceR_max (la1 lo1 la2 lo2 : R) : distanceR la1 lo1 la2 lo2 <= 20015.09.
Proof.
  unfold distanceR. cbv zeta.
  pose proof (hav_unit_interval la1 lo1 la2 lo2) as [Ha0 Ha1].
  set (a := hav la1 lo1 la2 lo2) in *.
  pose proof (atan2R_first_quadrant (sqrt a) (sqrt (1 - a))
                (sqrt_pos _) (sqrt_pos _)) as [Ht0 Ht1].
  set (th := Math.atan2R (sqrt a) (sqrt (1 - a))) in *.
  pose proof PI_tight as HPI.
  assert (Zfloor (6371 * (2 * th) * 100 + / 2) <= 2001509)%Z as Hz.
  { pose proof (Zfloor_bound (6371 * (2 * th) * 100 + / 2)) as [Hf _].
    assert (IZR (Zfloor (6371 * (2 * th) * 100 + / 2)) < IZR 2001510) as Hlt by lra.
    apply lt_IZR in Hlt. lia. }
  apply IZR_le in Hz. lra.
Qed.

(** Two antipodal points on the equator are 20015.09 km apart. *)
Lemma distanceR_antipodal : distanceR 0 0 0 180 = 20015.09.
Proof.
  unfold distanceR, hav. cbv zeta.
  pose proof PI_tight as HPI.
  replace ((0 - 0) * (PI / 180) / 2) with 0 by lra.
  replace ((180 - 0) * (PI / 180) / 2) with (PI / 2) by lra.
  replace (0 * (PI / 180)) with 0 by lra.
  rewrite sin_0, cos_0, sin_PI2.
  replace (0 * 0 + 1 * 1 * 1 * 1) with 1 by ring.
  replace (1 - 1) with 0 by ring. rewrite sqrt_1, sqrt_0.
  assert (Ht : Math.atan2R 1 0 = PI / 2).
  { unfold Math.atan2R. destruct (Rlt_dec 0 0); [lra|].
    destruct (Rlt_dec 0 1); [reflexivity | lra]. }
  rewrite Ht. rewrite (Zfloor_eq 2001509).
  - lra.
  - split; lra.
Qed.

(** [calculateDistance] gives the same value for [a, b] and for [b, a],
    whatever the arguments, and checks no range.  When it gives a number,
    the number lies between 0 and 20015.09, which is what two antipodal
    points on the equator give.  With a [NaN] coordinate it gives [NaN]. *)
Theorem calculateDistance_range (a b : Coordinates) :
  DistanceUtil.calculateDistance a b = DistanceUtil.calculateDistance b a /\
  (forall d, DistanceUtil.calculateDistance a b = Num d -> 0 <= d <= 20015.09) /\
  (isNaN (lat a) || isNaN (lng a) || isNaN (lat b) || isNaN (lng b) = true ->
   DistanceUtil.calculateDistance a b = NaN) /\
  DistanceUtil.calculateDistance {| lat := Num 0; lng := Num 0 |}
                                 {| lat := Num 0; lng := Num 180 |} = Num 20015.09.
Proof.
  split; [apply calculateDistance_sym|]. split; [|split].
  - intros d Hd.
    destruct (isNaN (lat a) || isNaN (lng a) || isNaN (lat b) || isNaN (lng b)) eqn:Hn.
    { rewrite (calculateDistance_NaN a b Hn) in Hd. discriminate Hd. }
    destruct a as [[|la1] [|lo1]], b as [[|la2] [|lo2]]; try discriminate Hn.
    rewrite calculateDistance_numbers in Hd. injection Hd as <-.
    split; [apply distanceR_range | apply distanceR_max].
  - apply calculateDistance_NaN.
  - rewrite calculateDistance_numbers, distanceR_antipodal. reflexivity.
Qed.

(** [isWithinRadius] does not depend on which point is the centre, and a
    point whose coordinates are numbers is within radius [r] of itself
    exactly when [0 <= r]. *)
Theorem isWithinRadius_symmetric_reflexive (center point : Coordinates)
    (radiusKm : number) :
  DistanceUtil.isWithinRadius center point radiusKm =
  DistanceUtil.isWithinRadius point center radiusKm /\
  (forall la lo r,
     DistanceUtil.isWithinRadius {| lat := Num la; lng := Num lo |}
                                 {| lat := Num la; lng := Num lo |} (Num r) = true
     <-> 0 <= r).
Proof.
  unfold DistanceUtil.isWithinRadius. cbv zeta. split.
  - rewrite (calculateDistance_sym center point). reflexivity.
  - intros la lo r. rewrite calculateDistance_numbers, distanceR_self. apply le_Num.
Qed.

(** Two points on one meridian, less than 180 degrees of latitude apart:
    the distance is a number, within 0.01 km of the length of the arc
    between them, 6371 km times the difference of the latitudes in radians.
    (Rounding to two decimals accounts for 0.005; the bound leaves room for
    the rounding of binary64.) *)
Theorem calculateDistance_meridian (la1 la2 lo : R) :
  Rabs (la2 - la1) < 180 ->
  exists d,
    DistanceUtil.calculateDistance {| lat := Num la1; lng := Num lo |}
                                   {| lat := Num la2; lng := Num lo |} = Num d /\
    Rabs (d - 6371 * (Rabs (la2 - la1) * (PI / 180))) <= 0.01.
Proof.
  intros H. exists (distanceR la1 lo la2 lo).
  split; [apply calculateDistance_numbers|].
  rewrite (distanceR_same_lng _ _ _ H).
  pose proof (Zfloor_bound (6371 * (Rabs (la2 - la1) * (PI / 180)) * 100 + / 2))
    as [H1 H2].
  apply Rabs_le. lra.
Qed.

Lemma calculateDistance_meridian_witness :
  exists d,
    DistanceUtil.calculateDistance {| lat := Num 40.7230; lng := Num (-74.0050) |}
                                   {| lat := Num 40.7130; lng := Num (-74.0050) |} = Num d /\
    Rabs (d - 6371 * (Rabs (40.7130 - 40.7230) * (PI / 180))) <= 0.01.
Proof.
  apply (calculateDistance_meridian 40.7230 40.7130 (-74.0050)).
  replace (40.7130 - 40.7230) with (-0.01) by lra. rewrite Rabs_left; lra.
Defined.

End DistanceMore.

(** ** [MockDataService]: the methods of the repository *)

Section RepositoryArrays.

(** [getAllPlaces] returns a new array that holds the repository's own
    references, in the repository's order: the array is copied, the places
    are not. *)
Theorem getAllPlaces_copies_array_only (this : MockDataService) (w : World)
    (es : list (loc * Place)) :
  is_array (heap w) (MockDataService.mockPlaces this) es ->
  exists places w',
    run (MockDataService.getAllPlaces this) w = (Ok places, w') /\
    heap w' = heap w ++ [ArrayObj (List.map fst es)] /\
    places = List.length (heap w) /\
    places <> MockDataService.mockPlaces this /\
    is_array (heap w') places es /\
    is_array (heap w') (MockDataService.mockPlaces this) es.
Proof.
  intros H. eexists _, _. split; [apply run_getAllPlaces, H|].
  cbn [heap set_heap add_event].
  split; [reflexivity|]. split; [reflexivity|]. split; [|split].
  - destruct H as [Ha _]. apply lookup_lt_Some in Ha. lia.
  - apply is_array_new, H.
  - apply is_array_app, H.
Qed.

Lemma getAllPlaces_copies_array_only_witness :
  exists places w',
    run (MockDataService.getAllPlaces initial_repository)
        (initial_world Examples.steady_clock) = (Ok places, w') /\
    heap w' = heap (initial_world Examples.steady_clock) ++
              [ArrayObj (List.map fst
                 (combine (seq 0 (List.length MockDataService.fixture))
                          MockDataService.fixture))] /\
    places = List.length (heap (initial_world Examples.steady_clock)) /\
    places <> MockDataService.mockPlaces initial_repository /\
    is_array (heap w') places
      (combine (seq 0 (List.length MockDataService.fixture)) MockDataService.fixture) /\
    is_array (heap w') (MockDataService.mockPlaces initial_repository)
      (combine (seq 0 (List.length MockDataService.fixture)) MockDataService.fixture).
Proof.
  exact (getAllPlaces_copies_array_only initial_repository
           (initial_world Examples.steady_clock) _ initial_is_array).
Defined.

(** [getPlacesByCategory] returns, in a new array and in repository order,
    the references of exactly the stored places whose category and the
    argument have the same [toLowerCase()]: every stored place whose
    category is the argument is among them, and two arguments with the same
    lower-case form give the same result.  The repository array is left as
    it was. *)
Theorem getPlacesByCategory_case_insensitive (this : MockDataService) (w : World)
    (es : list (loc * Place)) (category : string) :
  is_array (heap w) (MockDataService.mockPlaces this) es ->
  exists places w',
    run (MockDataService.getPlacesByCategory this category) w = (Ok places, w') /\
    is_array (heap w') places
      (List.filter (fun e => String.eqb (JS.toLowerCase (Place.category (snd e)))
                                        (JS.toLowerCase category)) es) /\
    (forall e, In e es -> Place.category (snd e) = category ->
               In e (List.filter
                       (fun e => String.eqb (JS.toLowerCase (Place.category (snd e)))
                                            (JS.toLowerCase category)) es)) /\
    is_array (heap w') (MockDataService.mockPlaces this) es /\
    (List.length (heap w) <= places)%nat /\
    (forall other,
       JS.toLowerCase other = JS.toLowerCase category ->
       run (MockDataService.getPlacesByCategory this other) w = (Ok places, w')).
Proof.
  intros H. eexists _, _. split; [apply run_getPlacesByCategory, H|].
  cbn [heap set_heap add_event].
  split; [|split; [|split; [|split]]].
  - apply is_array_new, Forall_filter_bool, H.
  - intros e Hin Hc. apply filter_In. split; [exact Hin|].
    rewrite Hc. apply String.eqb_refl.
  - apply is_array_app, H.
  - lia.
  - intros other Ho. rewrite (run_getPlacesByCategory _ _ _ _ H).
    rewrite (List.filter_ext
               (fun e : loc * Place => Pipeline.matches_category other (snd e))
               (fun e : loc * Place => Pipeline.matches_category category (snd e))).
    + reflexivity.
    + intros e. unfold Pipeline.matches_category. rewrite Ho. reflexivity.
Qed.

Lemma getPlacesByCategory_case_insensitive_witness :
  exists places w',
    run (MockDataService.getPlacesByCategory initial_repository "Cafe")
        (initial_world Examples.steady_clock) = (Ok places, w') /\
    is_array (heap w') places
      (List.filter (fun e => String.eqb (JS.toLowerCase (Place.category (snd e)))
                                        (JS.toLowerCase "Cafe"))
         (combine (seq 0 (List.length MockDataService.fixture)) MockDataService.fixture)) /\
    (forall e,
       In e (combine (seq 0 (List.length MockDataService.fixture))
                     MockDataService.fixture) ->
       Place.category (snd e) = "Cafe"%string ->
       In e (List.filter
               (fun e => String.eqb (JS.toLowerCase (Place.category (snd e)))
                                    (JS.toLowerCase "Cafe"))
               (combine (seq 0 (List.length MockDataService.fixture))
                        MockDataService.fixture))) /\
    is_array (heap w') (MockDataService.mockPlaces initial_repository)
      (combine (seq 0 (List.length MockDataService.fixture)) MockDataService.fixture) /\
    (List.length (heap (initial_world Examples.steady_clock)) <= places)%nat /\
    (forall other,
       JS.toLowerCase other = JS.toLowerCase "Cafe" ->
       run (MockDataService.getPlacesByCategory initial_repository other)
           (initial_world Examples.steady_clock) = (Ok places, w')).
Proof.
  exact (getPlacesByCategory_case_insensitive initial_repository
           (initial_world Examples.steady_clock) _ "Cafe" initial_is_array).
Defined.

End RepositoryArrays.

Section RepositoryLookup.
Local Open Scope R_scope.

(** [getPlaceById] returns the repository's own reference to the first
    stored place with that id, the stored object and not a copy, and [null]
    (here [None]) exactly when no stored place has the id; it leaves the
    store as it is. *)
Theorem getPlaceById_returns_stored_object (this : MockDataService) (w : World)
    (es : list (loc * Place)) (id : string) :
  is_array (heap w) (MockDataService.mockPlaces this) es ->
  exists found w',
    run (MockDataService.getPlaceById this id) w = (Ok found, w') /\
    heap w' = heap w /\
    match found with
    | Some l =>
        exists place before after,
          es = before ++ (l, place) :: after /\
          Place.id place = id /\
          heap w !! l = Some (PlaceObj place) /\
          Forall (fun e => Place.id (snd e) <> id) before
    | None => Forall (fun e => Place.id (snd e) <> id) es
    end.
Proof.
  intros H. unfold MockDataService.getPlaceById.
  eexists _, _. split.
  { rewrite (run_bind_ok _ _ _ _ _ (run_emit _ _)).
    apply (run_find _ (add_event w _) _ es), H. }
  split; [reflexivity|].
  destruct H as [_ Hes]. clear this.
  induction es as [|[l p] es IH]; cbn [List.find option_map snd fst].
  - constructor.
  - inversion Hes as [|? ? Hp Hes']; subst. cbn [fst snd] in Hp.
    destruct (String.eqb (Place.id p) id) eqn:Hid.
    + cbn [option_map fst]. exists p, [], es.
      apply String.eqb_eq in Hid. repeat split; auto.
    + apply String.eqb_neq in Hid. specialize (IH Hes').
      destruct (List.find (fun e => String.eqb (Place.id (snd e)) id) es) as [[l' p']|];
        cbn [option_map fst] in IH |- *.
      * destruct IH as (place & before & after & -> & Hi & Hl & Hb).
        exists place, ((l, p) :: before), after. repeat split; auto.
      * constructor; assumption.
Qed.

Lemma getPlaceById_returns_stored_object_witness :
  exists found w',
    run (MockDataService.getPlaceById initial_repository "cafe_002")
        (initial_world Examples.steady_clock) = (Ok found, w') /\
    heap w' = heap (initial_world Examples.steady_clock) /\
    match found with
    | Some l =>
        exists place before after,
          combine (seq 0 (List.length MockDataService.fixture)) MockDataService.fixture
            = before ++ (l, place) :: after /\
          Place.id place = "cafe_002"%string /\
          heap (initial_world Examples.steady_clock) !! l = Some (PlaceObj place) /\
          Forall (fun e : loc * Place => Place.id (snd e) <> "cafe_002"%string) before
    | None =>
        Forall (fun e : loc * Place => Place.id (snd e) <> "cafe_002"%string)
          (combine (seq 0 (List.length MockDataService.fixture)) MockDataService.fixture)
    end.
Proof.
  exact (getPlaceById_returns_stored_object initial_repository
           (initial_world Examples.steady_clock) _ "cafe_002" initial_is_array).
Defined.

(** *** [Set_values] *)

Lemma Set_values_In (seen xs : list string) (x : string) :
  In x (Set_values seen xs) <-> In x xs /\ ~ In x seen.
Proof.
  revert seen. induction xs as [|y ys IH]; intros seen; cbn [Set_values].
  - cbn. tauto.
  - destruct (existsb (String.eqb y) seen) eqn:He.
    + rewrite IH. apply existsb_exists in He as (z & Hz & Hyz).
      apply String.eqb_eq in Hyz. subst z. cbn [In]. split.
      * tauto.
      * intros [[->|Hx] Hn]; [contradiction | tauto].
    + assert (~ In y seen) as Hy.
      { intros Hin. apply Bool.not_true_iff_false in He. apply He.
        apply existsb_exists. exists y. split; [exact Hin | apply String.eqb_refl]. }
      cbn [In]. rewrite IH. cbn [In]. split.
      * intros [->|[Hx Hn]]; [tauto|]. tauto.
      * intros [[->|Hx] Hn]; [tauto|].
        destruct (string_dec y x) as [->|Hne]; [tauto|]. right. tauto.
Qed.

Lemma Set_values_NoDup (seen xs : list string) : List.NoDup (Set_values seen xs).
Proof.
  revert seen. induction xs as [|y ys IH]; intros seen; cbn [Set_values].
  - constructor.
  - destruct (existsb (String.eqb y) seen); [apply IH|].
    constructor; [|apply IH].
    rewrite Set_values_In. cbn [In]. tauto.
Qed.

Lemma Set_values_length (seen xs : list string) :
  (List.length (Set_values seen xs) <= List.length xs)%nat.
Proof.
  revert seen. induction xs as [|y ys IH]; intros seen; cbn [Set_values List.length].
  - lia.
  - destruct (existsb (String.eqb y) seen); cbn [List.length].
    + specialize (IH seen). lia.
    + specialize (IH (y :: seen)). lia.
Qed.

End RepositoryLookup.

Section RepositoryQuery.
Local Open Scope R_scope.

Lemma filter_andb {A} (f g : A -> bool) (xs : list A) :
  List.filter g (List.filter f xs) = List.filter (fun x => f x && g x) xs.
Proof.
  induction xs as [|x xs IH]; cbn [List.filter]; [reflexivity|].
  destruct (f x); cbn [List.filter andb]; [|exact IH].
  destruct (g x); rewrite IH; reflexivity.
Qed.

Lemma filter_all {A} (xs : list A) : List.filter (fun _ => true) xs = xs.
Proof. induction xs as [|x xs IH]; cbn [List.filter]; [|rewrite IH]; reflexivity. Qed.

Lemma filter_length_le {A} (f : A -> bool) (xs : list A) :
  (List.length (List.filter f xs) <= List.length xs)%nat.
Proof.
  induction xs as [|x xs IH]; cbn [List.filter List.length]; [lia|].
  destruct (f x); cbn [List.length]; lia.
Qed.

Lemma ToIntegerOrInfinity_pos (x : R) : 0 < x -> JS.ToIntegerOrInfinity (Num x) = Zfloor x.
Proof. intros H. cbn. destruct (Rlt_dec x 0); [lra | reflexivity]. Qed.

Lemma slice_prefix {A} (xs : list A) (x : R) :
  0 < x -> slice xs (Num 0) (Num x) = firstn (Z.to_nat (Zfloor x)) xs.
Proof.
  intros H. rewrite slice_from_zero, ToIntegerOrInfinity_pos by exact H.
  assert (0 <= Zfloor x)%Z as H0 by (apply (Zfloor_lub 0); lra).
  unfold relative_index. destruct (Z.ltb_spec (Zfloor x) 0); [lia|].
  destruct (Z.le_ge_cases (Zfloor x) (Z.of_nat (List.length xs))) as [Hle|Hge].
  - rewrite Z.min_l by exact Hle. reflexivity.
  - rewrite Z.min_r by exact Hge. rewrite Nat2Z.id.
    rewrite !firstn_all2; [reflexivity | lia | lia].
Qed.

(** The category and [openNow] steps of [queryPlaces] on an array. *)
Lemma step_category_entries (category : option string) (w : World) (a : loc)
    (es : list (loc * Place)) :
  is_array (heap w) a es ->
  exists a' w',
    run (match category with
         | Some c =>
             if negb (String.eqb c EmptyString) then
               Array.filter
                 (fun place => String.eqb (JS.toLowerCase (Place.category place))
                                          (JS.toLowerCase c)) a
             else ret a
         | None => ret a
         end) w = (Ok a', w') /\
    is_array (heap w') a'
      (List.filter (fun e =>
         match category with
         | Some c => if negb (String.eqb c EmptyString)
                     then Pipeline.matches_category c (snd e) else true
         | None => true
         end) es) /\
    (exists ext, heap w' = heap w ++ ext) /\ events w' = events w /\
    (List.length (heap w) <= a' \/ a' = a)%nat.
Proof.
  intros H.
  destruct category as [c|]; [destruct (negb (String.eqb c EmptyString))|].
  - eexists _, _. split; [apply (run_filter (Pipeline.matches_category c)), H|].
    cbn [heap set_heap events].
    split; [apply is_array_new, Forall_filter_bool, H|].
    split; [eexists; reflexivity|]. split; [reflexivity | left; lia].
  - exists a, w. rewrite filter_all. split; [reflexivity|]. split; [exact H|].
    split; [exists []; rewrite app_nil_r; reflexivity|]. auto.
  - exists a, w. rewrite filter_all. split; [reflexivity|]. split; [exact H|].
    split; [exists []; rewrite app_nil_r; reflexivity|]. auto.
Qed.

Lemma step_open_entries (openNow : option bool) (w : World) (a : loc)
    (es : list (loc * Place)) :
  is_array (heap w) a es ->
  exists a' w',
    run (match openNow with
         | Some o => Array.filter (fun place => Bool.eqb (Place.open_now place) o) a
         | None => ret a
         end) w = (Ok a', w') /\
    is_array (heap w') a'
      (List.filter (fun e =>
         match openNow with
         | Some o => Bool.eqb (Place.open_now (snd e)) o
         | None => true
         end) es) /\
    (exists ext, heap w' = heap w ++ ext) /\ events w' = events w /\
    (List.length (heap w) <= a' \/ a' = a)%nat.
Proof.
  intros H. destruct openNow as [o|].
  - eexists _, _. split; [apply (run_filter (fun p => Bool.eqb (Place.open_now p) o)), H|].
    cbn [heap set_heap events].
    split; [apply is_array_new, Forall_filter_bool, H|].
    split; [eexists; reflexivity|]. split; [reflexivity | left; lia].
  - exists a, w. rewrite filter_all. split; [reflexivity|]. split; [exact H|].
    split; [exists []; rewrite app_nil_r; reflexivity|]. auto.
Qed.

(** [queryPlaces] returns a new array that holds, in repository order, the
    repository's own references to the places that pass the category and
    [openNow] conditions, cut to the first [floor(limit)] of them when the
    limit is a positive number, and all of them when no limit is given; the
    repository array and every object are left as they were. *)
Theorem queryPlaces_filters_then_limits (this : MockDataService) (w : World)
    (es : list (loc * Place)) (filters : MockDataService.filters_t) :
  is_array (heap w) (MockDataService.mockPlaces this) es ->
  exists results w' n,
    run (MockDataService.queryPlaces this (Some filters)) w = (Ok results, w') /\
    is_array (heap w') results
      (firstn n (List.filter (fun e => query_matches filters (snd e)) es)) /\
    (forall l, MockDataService.limit filters = Some (Num l) -> 0 < l ->
               n = Z.to_nat (Zfloor l)) /\
    (MockDataService.limit filters = None -> n = List.length es) /\
    (List.length (heap w) <= results)%nat /\
    is_array (heap w') (MockDataService.mockPlaces this) es /\
    unchanged_below (List.length (heap w)) (heap w) (heap w') /\
    repository_calls w' = repository_calls w ++ ["queryPlaces"%string] /\
    exists all w'',
      run (MockDataService.queryPlaces this None) w = (Ok all, w'') /\
      is_array (heap w'') all es.
Proof.
  intros H.
  assert (Hnone : exists all w'',
            run (MockDataService.queryPlaces this None) w = (Ok all, w'') /\
            is_array (heap w'') all es).
  { unfold MockDataService.queryPlaces.
    rewrite (run_bind_ok _ _ _ _ _ (run_emit _ _)).
    rewrite (run_bind_ok _ _ _ _ _ (run_spread (add_event w _) _ es H)).
    eexists _, _. split; [reflexivity|]. apply is_array_new, H. }
  destruct filters as [category openNow limit].
  unfold MockDataService.queryPlaces.
  cbn [MockDataService.category MockDataService.openNow MockDataService.limit].
  rewrite (run_bind_ok _ _ _ _ _ (run_emit _ _)).
  set (w1 := add_event w (RepositoryCall "queryPlaces")).
  rewrite (run_bind_ok _ _ _ _ _ (run_spread w1 _ es H)).
  set (w2 := set_heap w1 _).
  assert (H2 : is_array (heap w2) (List.length (heap w1)) es) by (apply is_array_new, H).
  destruct (step_category_entries category w2 _ es H2)
    as (a3 & w3 & Hrun3 & H3 & [x3 Hh3] & He3 & Ha3).
  rewrite (run_bind_ok _ _ _ _ _ Hrun3).
  destruct (step_open_entries openNow w3 a3 _ H3)
    as (a4 & w4 & Hrun4 & H4 & [x4 Hh4] & He4 & Ha4).
  rewrite (run_bind_ok _ _ _ _ _ Hrun4).
  rewrite filter_andb in H4.
  change (fun x : loc * Place => _ && _)
    with (fun e : loc * Place =>
            query_matches {| MockDataService.category := category;
                             MockDataService.openNow := openNow;
                             MockDataService.limit := limit |} (snd e)) in H4.
  clear H3.
  set (filtered := List.filter (fun e : loc * Place => query_matches _ (snd e)) es) in *.
  assert (Hlen2 : List.length (heap w2) = S (List.length (heap w))).
  { cbn [w2 w1 heap set_heap add_event]. rewrite length_app. cbn [List.length]. lia. }
  assert (Hlen4 : (List.length (heap w2) <= List.length (heap w4))%nat).
  { rewrite Hh4, Hh3, !length_app. lia. }
  assert (Hfresh : (List.length (heap w) <= a4)%nat).
  { cbn [w1 heap add_event] in Ha3. rewrite Hh3, length_app in Ha4. lia. }
  assert (Hfull : firstn (List.length es) filtered = filtered).
  { apply firstn_all2. apply filter_length_le. }
  assert (Hcalls : repository_calls w4 = repository_calls w ++ ["queryPlaces"%string]).
  { unfold repository_calls. rewrite He4, He3. cbn [w2 w1 events set_heap add_event].
    rewrite flat_map_app. reflexivity. }
  assert (Hrepo : is_array (heap w4) (MockDataService.mockPlaces this) es).
  { rewrite Hh4, Hh3. cbn [w2 w1 heap set_heap add_event].
    do 3 apply is_array_app. exact H. }
  assert (Hu : unchanged_below (List.length (heap w)) (heap w) (heap w4)).
  { rewrite Hh4, Hh3. cbn [w2 w1 heap set_heap add_event].
    rewrite <- !app_assoc. apply unchanged_below_app. lia. }
  assert (Hkeep : exists results w' n,
            run (ret a4 : M loc) w4 = (Ok results, w') /\
            is_array (heap w') results (firstn n filtered) /\
            n = List.length es /\
            (List.length (heap w) <= results)%nat /\
            is_array (heap w') (MockDataService.mockPlaces this) es /\
            unchanged_below (List.length (heap w)) (heap w) (heap w') /\
            repository_calls w' = repository_calls w ++ ["queryPlaces"%string]).
  { exists a4, w4, (List.length es). rewrite Hfull.
    split; [reflexivity|]. split; [exact H4|]. split; [reflexivity|].
    split; [exact Hfresh|]. split; [exact Hrepo|]. split; [exact Hu | exact Hcalls]. }
  destruct limit as [[|l]|].
  - (* NaN *)
    cbn [truthy andb].
    destruct Hkeep as (r & w' & n & Hr & Hr1 & Hn & Hr2 & Hr3 & Hr4 & Hr5).
    exists r, w', n. split; [exact Hr|]. split; [exact Hr1|].
    split; [intros l [=]|]. split; [intros [=]|].
    split; [exact Hr2|]. split; [exact Hr3|]. split; [exact Hr4|]. split; [exact Hr5 | exact Hnone].
  - destruct (Rlt_dec 0 l) as [Hpos|Hneg].
    + assert (Ht : truthy (Num l) && JS.gt (Num l) (Num 0) = true).
      { apply andb_true_intro. split; [apply truthy_Num; lra | apply lt_Num; exact Hpos]. }
      rewrite Ht.
      rewrite (run_bind_ok _ _ _ _ _ (run_slice w4 a4 _ (Num 0) (Num l) H4)).
      eexists _, _, (Z.to_nat (Zfloor l)). split; [reflexivity|].
      cbn [heap set_heap]. split.
      { rewrite slice_map, slice_prefix by exact Hpos.
        apply is_array_new. apply Forall_take. apply H4. }
      split; [intros l' [= <-] _; reflexivity|]. split; [intros [=]|].
      split; [lia|]. split; [apply is_array_app, Hrepo|].
      split; [|split; [exact Hcalls | exact Hnone]].
      eapply unchanged_below_trans; [exact Hu|]. apply unchanged_below_app. lia.
    + assert (Ht : truthy (Num l) && JS.gt (Num l) (Num 0) = false).
      { apply andb_false_intro2. apply lt_Num_false. lra. }
      rewrite Ht.
      destruct Hkeep as (r & w' & n & Hr & Hr1 & Hn & Hr2 & Hr3 & Hr4 & Hr5).
      exists r, w', n. split; [exact Hr|]. split; [exact Hr1|].
      split; [intros l' [= <-] Hl; lra|]. split; [intros [=]|].
      split; [exact Hr2|]. split; [exact Hr3|]. split; [exact Hr4|].
      split; [exact Hr5 | exact Hnone].
  - destruct Hkeep as (r & w' & n & Hr & Hr1 & Hn & Hr2 & Hr3 & Hr4 & Hr5).
    exists r, w', n. split; [exact Hr|]. split; [exact Hr1|].
    split; [intros l [=]|]. split; [intros _; exact Hn|].
    split; [exact Hr2|]. split; [exact Hr3|]. split; [exact Hr4|]. split; [exact Hr5 | exact Hnone].
Qed.

Lemma queryPlaces_filters_then_limits_witness :
  exists results w' n,
    run (MockDataService.queryPlaces initial_repository
           (Some {| MockDataService.category := None;
                    MockDataService.openNow := Some true;
                    MockDataService.limit := Some (Num 2.5) |}))
        (initial_world Examples.steady_clock) = (Ok results, w') /\
    is_array (heap w') results
      (firstn n
         (List.filter
            (fun e => query_matches {| MockDataService.category := None;
                                       MockDataService.openNow := Some true;
                                       MockDataService.limit := Some (Num 2.5) |} (snd e))
            (combine (seq 0 (List.length MockDataService.fixture))
                     MockDataService.fixture))) /\
    (forall l, Some (Num 2.5) = Some (Num l) -> 0 < l -> n = Z.to_nat (Zfloor l)) /\
    (Some (Num 2.5) = None ->
     n = List.length (combine (seq 0 (List.length MockDataService.fixture))
                              MockDataService.fixture)) /\
    (List.length (heap (initial_world Examples.steady_clock)) <= results)%nat /\
    is_array (heap w') (MockDataService.mockPlaces initial_repository)
      (combine (seq 0 (List.length MockDataService.fixture)) MockDataService.fixture) /\
    unchanged_below (List.length (heap (initial_world Examples.steady_clock)))
      (heap (initial_world Examples.steady_clock)) (heap w') /\
    repository_calls w' =
      repository_calls (initial_world Examples.steady_clock) ++ ["queryPlaces"%string] /\
    exists all w'',
      run (MockDataService.queryPlaces initial_repository None)
          (initial_world Examples.steady_clock) = (Ok all, w'') /\
      is_array (heap w'') all
        (combine (seq 0 (List.length MockDataService.fixture)) MockDataService.fixture).
Proof.
  exact (queryPlaces_filters_then_limits initial_repository
           (initial_world Examples.steady_clock) _
           {| MockDataService.category := None;
              MockDataService.openNow := Some true;
              MockDataService.limit := Some (Num 2.5) |} initial_is_array).
Defined.

End RepositoryQuery.

Section RepositoryStatistics.
Import DiscoveryService.
Local Open Scope R_scope.

Lemma Set_values_sublist (seen xs : list string) : sublist (Set_values seen xs) xs.
Proof.
  revert seen. induction xs as [|y ys IH]; intros seen; cbn [Set_values].
  - constructor.
  - destruct (existsb (String.eqb y) seen).
    + apply sublist_cons, IH.
    + apply sublist_skip, IH.
Qed.



Lemma run_getServiceStatistics (this : DiscoveryService) (w : World)
    (es : list (loc * Place)) :
  is_array (heap w) (MockDataService.mockPlaces (mockDataService this)) es ->
  exists w',
    run (getServiceStatistics this) w =
      (Ok {| dataStats :=
               {| MockDataService.totalPlaces := List.length es;
                  MockDataService.categoriesCount :=
                    List.length
                      (Set_values []
                         (List.map (fun e : loc * Place => Place.category (snd e)) es));
                  MockDataService.openPlaces :=
                    List.length
                      (List.filter (fun e : loc * Place => Place.open_now (snd e)) es);
                  MockDataService.closedPlaces :=
                    List.length
                      (List.filter (fun e : loc * Place => negb (Place.open_now (snd e)))
                         es) |};
             config := (defaultRadius this, maxRadius this, maxResults this) |}, w') /\
    is_array (heap w') (MockDataService.mockPlaces (mockDataService this)) es /\
    unchanged_below (List.length (heap w)) (heap w) (heap w').
Proof.
  intros H.
  set (repo := mockDataService this) in *.
  set (w1 := add_event w (RepositoryCall "getDataStatistics")).
  set (w2 := add_event w1 (RepositoryCall "getAvailableCategories")).
  set (open := List.filter (fun e : loc * Place => Place.open_now (snd e)) es).
  set (closed := List.filter (fun e : loc * Place => negb (Place.open_now (snd e))) es).
  set (w3 := set_heap w2 (heap w2 ++ [ArrayObj (List.map fst open)])).
  set (w4 := set_heap w3 (heap w3 ++ [ArrayObj (List.map fst closed)])).
  assert (H2 : is_array (heap w2) (MockDataService.mockPlaces repo) es) by exact H.
  assert (Ho : is_array (heap w3) (List.length (heap w2)) open).
  { apply is_array_new, Forall_filter_bool, H. }
  assert (H3 : is_array (heap w3) (MockDataService.mockPlaces repo) es).
  { apply is_array_app, H. }
  assert (Hc : is_array (heap w4) (List.length (heap w3)) closed).
  { apply is_array_new, Forall_filter_bool, H3. }
  set (cats := Set_values [] (List.map (fun e : loc * Place => Place.category (snd e)) es)).
  exists w4. split; [|split].
  - unfold getServiceStatistics. fold repo.
    assert (Hstats : run (MockDataService.getDataStatistics repo) w =
              (Ok {| MockDataService.totalPlaces := List.length es;
                     MockDataService.categoriesCount := List.length cats;
                     MockDataService.openPlaces := List.length open;
                     MockDataService.closedPlaces := List.length closed |}, w4)).
    { unfold MockDataService.getDataStatistics.
      rewrite (run_bind_ok _ _ _ _ _ (run_emit _ _)).
      rewrite (run_bind_ok _ _ _ _ _ (run_length w1 _ es H)).
      rewrite (run_bind_ok _ _ _ _ _ (run_getAvailableCategories repo w1 es H)).
      rewrite (run_bind_ok _ _ _ _ _ (run_filter _ w2 _ es H2)).
      rewrite (run_bind_ok _ _ _ _ _ (run_length w3 _ open Ho)).
      rewrite (run_bind_ok _ _ _ _ _ (run_filter _ w3 _ es H3)).
      rewrite (run_bind_ok _ _ _ _ _ (run_length w4 _ closed Hc)).
      reflexivity. }
    rewrite (run_bind_ok _ _ _ _ _ Hstats). reflexivity.
  - apply is_array_app, H3.
  - cbn [w4 w3 w2 w1 heap set_heap add_event]. rewrite <- app_assoc.
    apply unchanged_below_app. lia.
Qed.

(** [getServiceStatistics] reports the three configured values as they
    are, and data statistics in which [categoriesCount] is the number of
    categories that [getAvailableCategories] returns: at most
    [totalPlaces], and at least 1 when there is a place.  The repository
    is left as it was. *)
Theorem getServiceStatistics_counts (this : DiscoveryService) (w : World)
    (es : list (loc * Place)) :
  is_array (heap w) (MockDataService.mockPlaces (mockDataService this)) es ->
  exists stats w' categories w'',
    run (getServiceStatistics this) w = (Ok stats, w') /\
    config stats = (defaultRadius this, maxRadius this, maxResults this) /\
    run (getAvailableCategories this) w = (Ok categories, w'') /\
    MockDataService.categoriesCount (dataStats stats) = List.length categories /\
    (MockDataService.categoriesCount (dataStats stats)
     <= MockDataService.totalPlaces (dataStats stats))%nat /\
    (es <> [] -> (1 <= MockDataService.categoriesCount (dataStats stats))%nat) /\
    is_array (heap w') (MockDataService.mockPlaces (mockDataService this)) es /\
    unchanged_below (List.length (heap w)) (heap w) (heap w').
Proof.
  intros H.
  destruct (run_getServiceStatistics this w es H) as (w' & Hrun & Hrepo & Hu).
  eexists _, w', _, _. split; [exact Hrun|].
  cbn [config dataStats MockDataService.categoriesCount MockDataService.totalPlaces].
  split; [reflexivity|].
  split; [apply (run_getAvailableCategories (mockDataService this)), H|].
  split; [reflexivity|]. split; [|split; [|split; [exact Hrepo | exact Hu]]].
  - etransitivity; [apply Set_values_length|]. rewrite length_map. lia.
  - intros Hne. destruct es as [|e es']; [congruence|].
    cbn [List.map Set_values existsb List.length]. lia.
Qed.

Lemma getServiceStatistics_counts_witness :
  exists stats w' categories w'',
    run (getServiceStatistics default_service) (initial_world Examples.steady_clock)
      = (Ok stats, w') /\
    config stats = (defaultRadius default_service, maxRadius default_service,
                    maxResults default_service) /\
    run (getAvailableCategories default_service) (initial_world Examples.steady_clock)
      = (Ok categories, w'') /\
    MockDataService.categoriesCount (dataStats stats) = List.length categories /\
    (MockDataService.categoriesCount (dataStats stats)
     <= MockDataService.totalPlaces (dataStats stats))%nat /\
    (combine (seq 0 (List.length MockDataService.fixture)) MockDataService.fixture <> [] ->
     (1 <= MockDataService.categoriesCount (dataStats stats))%nat) /\
    is_array (heap w') (MockDataService.mockPlaces (mockDataService default_service))
      (combine (seq 0 (List.length MockDataService.fixture)) MockDataService.fixture) /\
    unchanged_below (List.length (heap (initial_world Examples.steady_clock)))
      (heap (initial_world Examples.steady_clock)) (heap w').
Proof.
  exact (getServiceStatistics_counts default_service
           (initial_world Examples.steady_clock) _ initial_is_array).
Defined.

(** *** The constructor *)

Lemma fixture_ids_distinct : List.NoDup (List.map Place.id MockDataService.fixture).
Proof.
  cbn [List.map MockDataService.fixture MockDataService.place Place.id].
  repeat (apply List.NoDup_cons;
          [cbn [In]; intros Hin;
           repeat (destruct Hin as [Hin|Hin]; [discriminate Hin|]); exact Hin|]).
  apply List.NoDup_nil.
Qed.

Lemma fixture_coordinates_valid :
  Forall (fun p => DistanceUtil.isValidCoordinates (Place.location p) = true /\
                   Place.distance_km p = Num 0)
         MockDataService.fixture.
Proof.
  unfold MockDataService.fixture.
  repeat (apply List.Forall_cons;
          [split; [|reflexivity];
           apply isValidCoordinates_true; eexists _, _;
           split; [reflexivity | split; lra]|]).
  apply List.Forall_nil.
Qed.

(** In whatever world it runs, the constructor of [MockDataService]
    allocates the twelve places of the initialiser and one array of
    references to them, in the initialiser's order, and touches no cell that
    existed; the places have pairwise distinct ids, a category of
    [PlaceCategory], coordinates that [isValidCoordinates] accepts and
    [distance_km] 0. *)
Theorem MockDataService_new_allocates_fixture (w : World) :
  exists this w',
    run MockDataService.new w = (Ok this, w') /\
    is_array (heap w') (MockDataService.mockPlaces this)
      (combine (seq (List.length (heap w)) 12) MockDataService.fixture) /\
    Forall (fun e => (List.length (heap w) <= fst e)%nat)
      (combine (seq (List.length (heap w)) 12) MockDataService.fixture) /\
    unchanged_below (List.length (heap w)) (heap w) (heap w') /\
    events w' = events w /\
    List.NoDup (List.map Place.id MockDataService.fixture) /\
    Forall (fun p => In (Place.category p) PlaceCategory.values /\
                     DistanceUtil.isValidCoordinates (Place.location p) = true /\
                     Place.distance_km p = Num 0)
           MockDataService.fixture.
Proof.
  eexists _, _. split.
  { unfold MockDataService.new.
    rewrite (run_bind_ok _ _ _ _ _ (run_alloc_all (fun p => p) _ _)).
    rewrite (run_bind_ok _ _ _ _ _ (run_alloc _ _)).
    reflexivity. }
  cbn [heap set_heap events MockDataService.mockPlaces].
  split; [|split; [|split; [|split; [reflexivity|split]]]].
  - pose proof (Forall_allocated (fun p => p) MockDataService.fixture (heap w)
                  [ArrayObj (seq (List.length (heap w)) (List.length MockDataService.fixture))])
      as Hf.
    rewrite map_id in Hf. rewrite <- app_assoc.
    split; [|exact Hf].
    rewrite map_fst_combine by (rewrite length_seq; reflexivity).
    rewrite app_assoc, lookup_app_r by (rewrite length_app; lia).
    rewrite length_app, Nat.sub_diag. reflexivity.
  - exact (Forall_fst_combine_seq (List.length (heap w)) MockDataService.fixture).
  - rewrite <- app_assoc. apply unchanged_below_app. lia.
  - exact fixture_ids_distinct.
  - pose proof fixture_categories_known as Hk.
    pose proof fixture_coordinates_valid as Hc.
    revert Hk Hc. generalize MockDataService.fixture as ps.
    induction ps as [|p ps IH]; intros Hk Hc; [apply List.Forall_nil|].
    inversion Hk; inversion Hc; subst. apply List.Forall_cons; [tauto | auto].
Qed.

End RepositoryStatistics.

(** ** [DiscoveryService]: which places are returned *)

Section SortingMore.
Local Open Scope R_scope.

Lemma sort_insert_perm {A} (cmp : A -> A -> number) (x : A) (ys : list A) :
  Permutation (sort_insert cmp x ys) (x :: ys).
Proof.
  induction ys as [|y ys IH]; cbn [sort_insert]; [reflexivity|].
  destruct (JS.gt (cmp x y) (Num 0)); [|reflexivity].
  rewrite IH. apply perm_swap.
Qed.

Lemma stable_sort_perm {A} (cmp : A -> A -> number) (xs : list A) :
  Permutation (stable_sort cmp xs) xs.
Proof.
  induction xs as [|x xs IH]; cbn [stable_sort]; [reflexivity|].
  rewrite sort_insert_perm, IH. reflexivity.
Qed.

Lemma distance_le_trans (a b c : Place) :
  distance_le a b -> distance_le b c -> distance_le a c.
Proof.
  unfold distance_le. intros (x & y & Hx & Hy & Hxy)%le_true (y' & z & Hy' & Hz & Hyz)%le_true.
  rewrite Hx, Hz. rewrite Hy in Hy'. injection Hy' as <-. apply le_Num. lra.
Qed.

Lemma StronglySorted_app_le {A} (R : A -> A -> Prop) (l1 l2 : list A) :
  StronglySorted R (l1 ++ l2) -> forall x y, In x l1 -> In y l2 -> R x y.
Proof.
  induction l1 as [|a l1 IH]; intros Hs x y Hx Hy; [destruct Hx|].
  cbn in Hs. apply StronglySorted_inv in Hs as [Hs Ha].
  destruct Hx as [<-|Hx].
  - apply (proj1 (List.Forall_forall _ _) Ha). apply in_or_app. right. exact Hy.
  - apply IH; assumption.
Qed.

(** The first [n] elements of a sorted list are the [n] least: an element
    that is not among them is no less than each of them. *)
Lemma firstn_least (n : nat) (xs : list Place) (p : Place) :
  Sorted distance_le xs -> In p xs ->
  In p (firstn n xs) \/ Forall (fun r => distance_le r p) (firstn n xs).
Proof.
  intros Hs Hp.
  apply Sorted_StronglySorted in Hs; [|intros a b c; apply distance_le_trans].
  rewrite <- (firstn_skipn n xs) in Hp, Hs.
  apply in_app_or in Hp as [Hp|Hp]; [left; exact Hp|].
  right. apply List.Forall_forall. intros r Hr.
  apply (StronglySorted_app_le _ _ _ Hs); assumption.
Qed.

Lemma slice_all {A} (xs : list A) (l : R) :
  INR (List.length xs) <= l -> slice xs (Num 0) (Num l) = xs.
Proof.
  intros Hl. destruct xs as [|x xs'] eqn:Hxs.
  - unfold slice. rewrite skipn_nil, firstn_nil. reflexivity.
  - rewrite <- Hxs in *.
    assert (0 < INR (List.length xs)).
    { apply lt_0_INR. rewrite Hxs. cbn [List.length]. lia. }
    rewrite slice_prefix by lra. apply firstn_all2.
    assert (Z.of_nat (List.length xs) <= Zfloor l)%Z.
    { apply Zfloor_lub. rewrite <- INR_IZR_INZ. exact Hl. }
    lia.
Qed.

End SortingMore.

Section DiscoveryNearest.
Import DiscoveryService.
Local Open Scope R_scope.

Lemma in_radius_measured (radius : number) (places : list Place) :
  Forall measured (List.filter (Pipeline.within radius) places).
Proof.
  eapply Forall_impl; [apply Forall_filter_true|].
  intros p Hp. eapply within_measured, Hp.
Qed.



End DiscoveryNearest.

(** ** [validateQuery]: what is accepted *)

Section Validation.
Import DiscoveryService.
Local Open Scope R_scope.

Lemma guard_false (lo hi : R) (x : number) :
  truthy x && (JS.lt x (Num lo) || JS.gt x (Num hi)) = false <->
  absent_or_in_range lo hi (Some x).
Proof.
  destruct x as [|a]; cbn [absent_or_in_range].
  - cbn. tauto.
  - destruct (Req_dec_T a 0) as [H0|H0].
    + subst a. rewrite truthy_zero. cbn [andb]. tauto.
    + rewrite (proj2 (truthy_Num a) H0). cbn [andb].
      rewrite orb_false_iff. unfold JS.gt. rewrite !lt_Num_false. split.
      * intros [H1 H2]. right. lra.
      * intros [H|H]; [contradiction | lra].
Qed.

(** [validateQuery] accepts a query exactly when the latitude is a number
    in [-90 .. 90], the longitude a number in [-180 .. 180], the radius
    absent, [NaN], 0 or in [0.1 .. maxRadius], and the limit absent, [NaN],
    0 or in [1 .. maxResults]; otherwise it throws the error of the first of
    latitude, longitude, radius, limit that fails, in this order. *)
Theorem validateQuery_accepts_exactly (this : DiscoveryService) (query : DiscoveryQuery)
    (maxR maxN : R) :
  maxRadius this = Num maxR ->
  maxResults this = Num maxN ->
  (validates this query <->
   latitude_ok query /\ longitude_ok query /\ radius_ok maxR query /\ limit_ok maxN query) /\
  (~ latitude_ok query ->
   rejects this query
     {| message := [Str "Invalid latitude: "; Val (DiscoveryQuery.latitude query);
                    Str ". Must be between -90 and 90."] |}) /\
  (latitude_ok query -> ~ longitude_ok query ->
   rejects this query
     {| message := [Str "Invalid longitude: "; Val (DiscoveryQuery.longitude query);
                    Str ". Must be between -180 and 180."] |}) /\
  (latitude_ok query -> longitude_ok query -> ~ radius_ok maxR query ->
   exists e, rejects this query e /\ InvalidArgument e "radius") /\
  (latitude_ok query -> longitude_ok query -> radius_ok maxR query ->
   ~ limit_ok maxN query ->
   exists e, rejects this query e /\ InvalidArgument e "limit").
Proof.
  intros HR HN.
  assert (Hlat : DistanceUtil.isValidLatitude (DiscoveryQuery.latitude query) = true
                 <-> latitude_ok query) by apply isValidLatitude_true.
  assert (Hlng : DistanceUtil.isValidLongitude (DiscoveryQuery.longitude query) = true
                 <-> longitude_ok query) by apply isValidLongitude_true.
  assert (Hrad : match DiscoveryQuery.radius query with
                 | Some r => truthy r && (JS.lt r (Num 0.1) || JS.gt r (maxRadius this))
                             = false
                 | None => True
                 end <-> radius_ok maxR query).
  { unfold radius_ok, absent_or_in_range. rewrite HR.
    destruct (DiscoveryQuery.radius query) as [r|].
    - apply guard_false.
    - reflexivity. }
  assert (Hlim : match DiscoveryQuery.limit query with
                 | Some l => truthy l && (JS.lt l (Num 1) || JS.gt l (maxResults this))
                             = false
                 | None => True
                 end <-> limit_ok maxN query).
  { unfold limit_ok, absent_or_in_range. rewrite HN. destruct (DiscoveryQuery.limit query) as [l|].
    - apply guard_false.
    - reflexivity. }
  split; [rewrite validates_iff; tauto|].
  split; [|split; [|split]].
  - intros Hn w. unfold validateQuery, run, bind, throw.
    destruct (DistanceUtil.isValidLatitude (DiscoveryQuery.latitude query));
      [tauto | reflexivity].
  - intros H1 Hn w. apply Hlat in H1. unfold validateQuery, run, bind, throw, ret.
    rewrite H1. cbn [negb].
    destruct (DistanceUtil.isValidLongitude (DiscoveryQuery.longitude query));
      [tauto | reflexivity].
  - intros H1 H2 Hn. apply Hlat in H1. apply Hlng in H2.
    destruct (DiscoveryQuery.radius query) as [r|] eqn:Hq; [|tauto].
    destruct (truthy r && (JS.lt r (Num 0.1) || JS.gt r (maxRadius this))) eqn:Hg;
      [|tauto].
    eexists. split; [intros w; unfold validateQuery, run, bind, throw, ret;
                     rewrite H1, H2, Hq, Hg; reflexivity | reflexivity].
  - intros H1 H2 H3 Hn. apply Hlat in H1. apply Hlng in H2. apply Hrad in H3.
    destruct (DiscoveryQuery.limit query) as [l|] eqn:Hq; [|tauto].
    destruct (truthy l && (JS.lt l (Num 1) || JS.gt l (maxResults this))) eqn:Hg;
      [|tauto].
    destruct (DiscoveryQuery.radius query) as [r|] eqn:Hr.
    + eexists. split; [intros w; unfold validateQuery, run, bind, throw, ret;
                       rewrite H1, H2, Hq, Hg, Hr, H3; reflexivity | reflexivity].
    + eexists. split; [intros w; unfold validateQuery, run, bind, throw, ret;
                       rewrite H1, H2, Hq, Hg, Hr; reflexivity | reflexivity].
Qed.

Lemma validateQuery_accepts_exactly_witness :
  (validates default_service Examples.radius_zero <->
   latitude_ok Examples.radius_zero /\ longitude_ok Examples.radius_zero /\
   radius_ok 50.0 Examples.radius_zero /\ limit_ok 50 Examples.radius_zero) /\
  (~ latitude_ok Examples.radius_zero ->
   rejects default_service Examples.radius_zero
     {| message := [Str "Invalid latitude: ";
                    Val (DiscoveryQuery.latitude Examples.radius_zero);
                    Str ". Must be between -90 and 90."] |}) /\
  (latitude_ok Examples.radius_zero -> ~ longitude_ok Examples.radius_zero ->
   rejects default_service Examples.radius_zero
     {| message := [Str "Invalid longitude: ";
                    Val (DiscoveryQuery.longitude Examples.radius_zero);
                    Str ". Must be between -180 and 180."] |}) /\
  (latitude_ok Examples.radius_zero -> longitude_ok Examples.radius_zero ->
   ~ radius_ok 50.0 Examples.radius_zero ->
   exists e, rejects default_service Examples.radius_zero e /\
             InvalidArgument e "radius") /\
  (latitude_ok Examples.radius_zero -> longitude_ok Examples.radius_zero ->
   radius_ok 50.0 Examples.radius_zero -> ~ limit_ok 50 Examples.radius_zero ->
   exists e, rejects default_service Examples.radius_zero e /\
             InvalidArgument e "limit").
Proof.
  apply (validateQuery_accepts_exactly default_service Examples.radius_zero 50.0 50);
    reflexivity.
Defined.

End Validation.

(** ** [discoverPlaces] and [findNearestPlace]: how a call ends *)

Section DiscoveryOutcome.
Import DiscoveryService.
Local Open Scope R_scope.

(** Over a well-formed repository [discoverPlaces] ends in one of two
    ways.  It returns a response when the query passes validation: then it
    has called exactly one repository method, [getPlacesByCategory] for a
    non-empty category and [getAllPlaces] otherwise, logged the start and
    the completion, and the response repeats the query with the radius and
    the limit that were used.  Or it throws the error of [validateQuery],
    an [Invalid ...] error, after logging the start and the failure; it
    throws nothing else. *)
Theorem discoverPlaces_returns_or_throws_invalid (this : DiscoveryService)
    (query : DiscoveryQuery) (w : World) (es0 : list (loc * Place)) :
  is_array (heap w) (MockDataService.mockPlaces (mockDataService this)) es0 ->
  (exists response w' completed,
     run (discoverPlaces this query) w = (Ok response, w') /\
     validates this query /\
     events w' = events w ++
       [LoggerLog [Str "Starting discovery query: "; Json query];
        RepositoryCall (if JS.truthy_str (DiscoveryQuery.category query)
                        then "getPlacesByCategory" else "getAllPlaces");
        LoggerLog completed] /\
     DiscoveryResponse.query response =
       {| DiscoveryQuery.latitude := DiscoveryQuery.latitude query;
          DiscoveryQuery.longitude := DiscoveryQuery.longitude query;
          DiscoveryQuery.radius :=
            Some (JS.or_else (DiscoveryQuery.radius query) (defaultRadius this));
          DiscoveryQuery.category := DiscoveryQuery.category query;
          DiscoveryQuery.limit :=
            Some (Math.min (JS.or_else (DiscoveryQuery.limit query) (Num 10))
                           (maxResults this)) |}) \/
  (exists e field w',
     run (discoverPlaces this query) w = (Throw e, w') /\
     rejects this query e /\
     InvalidArgument e field /\
     events w' = events w ++
       [LoggerLog [Str "Starting discovery query: "; Json query];
        LoggerError (Str "Discovery failed: " :: message e)] /\
     heap w' = heap w).
Proof.
  intros H0.
  destruct (validateQuery_pure this query) as [Hv | (e & field & Hr & Hi)].
  - left.
    destruct (discoverPlaces_validated this query w es0 H0 Hv)
      as (resp & w' & es & Hrun & _ & _ & _ & _ & _ & _ & Hq & completed & Hev).
    exists resp, w', completed. split; [exact Hrun|]. split; [exact Hv|].
    split; [|exact Hq].
    rewrite Hev. unfold repository_method, JS.truthy_str.
    destruct (DiscoveryQuery.category query) as [c|]; [|reflexivity].
    destruct (negb (String.eqb c EmptyString)); reflexivity.
  - right. exists e, field. eexists.
    split; [apply discoverPlaces_rejected, Hr|]. split; [exact Hr|].
    split; [exact Hi|]. cbn [events heap add_event tick].
    split; [|reflexivity]. rewrite <- app_assoc. reflexivity.
Qed.

Lemma discoverPlaces_returns_or_throws_invalid_witness :
  (exists response w' completed,
     run (discoverPlaces default_service Examples.radius_zero)
         (initial_world Examples.steady_clock) = (Ok response, w') /\
     validates default_service Examples.radius_zero /\
     events w' = events (initial_world Examples.steady_clock) ++
       [LoggerLog [Str "Starting discovery query: "; Json Examples.radius_zero];
        RepositoryCall (if JS.truthy_str (DiscoveryQuery.category Examples.radius_zero)
                        then "getPlacesByCategory" else "getAllPlaces");
        LoggerLog completed] /\
     DiscoveryResponse.query response =
       {| DiscoveryQuery.latitude := DiscoveryQuery.latitude Examples.radius_zero;
          DiscoveryQuery.longitude := DiscoveryQuery.longitude Examples.radius_zero;
          DiscoveryQuery.radius :=
            Some (JS.or_else (DiscoveryQuery.radius Examples.radius_zero)
                             (defaultRadius default_service));
          DiscoveryQuery.category := DiscoveryQuery.category Examples.radius_zero;
          DiscoveryQuery.limit :=
            Some (Math.min (JS.or_else (DiscoveryQuery.limit Examples.radius_zero) (Num 10))
                           (maxResults default_service)) |}) \/
  (exists e field w',
     run (discoverPlaces default_service Examples.radius_zero)
         (initial_world Examples.steady_clock) = (Throw e, w') /\
     rejects default_service Examples.radius_zero e /\
     InvalidArgument e field /\
     events w' = events (initial_world Examples.steady_clock) ++
       [LoggerLog [Str "Starting discovery query: "; Json Examples.radius_zero];
        LoggerError (Str "Discovery failed: " :: message e)] /\
     heap w' = heap (initial_world Examples.steady_clock)).
Proof.
  exact (discoverPlaces_returns_or_throws_invalid default_service Examples.radius_zero
           (initial_world Examples.steady_clock) _ initial_is_array).
Defined.

Lemma distance_le_refl (p : Place) : measured p -> distance_le p p.
Proof. intros [d Hd]. unfold distance_le. rewrite Hd. apply le_Num. lra. Qed.

Lemma Sorted_head_least (p : Place) (ps : list Place) :
  measured p -> Sorted distance_le (p :: ps) -> Forall (distance_le p) (p :: ps).
Proof.
  intros Hm Hs.
  apply Sorted_StronglySorted in Hs; [|intros a b c; apply distance_le_trans].
  apply StronglySorted_inv in Hs as [_ Hall].
  apply List.Forall_cons; [apply distance_le_refl, Hm | exact Hall].
Qed.



End DiscoveryOutcome.

Section DiscoveryOrder.
Import DiscoveryService.
Local Open Scope R_scope.

Lemma sort_insert_at_distance (d : R) (x : Place) (ys : list Place) :
  List.filter (at_distance d) (sort_insert Pipeline.by_distance x ys) =
  List.filter (at_distance d) (x :: ys).
Proof.
  induction ys as [|y ys IH]; cbn [sort_insert]; [reflexivity|].
  destruct (JS.gt (Pipeline.by_distance x y) (Num 0)) eqn:Hc; [|reflexivity].
  cbn [List.filter] in IH |- *. rewrite IH.
  destruct (at_distance d x) eqn:Hx; [|reflexivity].
  assert (Hy : at_distance d y = false).
  { unfold at_distance in *. apply strict_eq_true in Hx as (a & Hx & [= <-]).
    unfold JS.gt, Pipeline.by_distance in Hc. rewrite Hx in Hc.
    destruct (Place.distance_km y) as [|b]; [discriminate Hc|].
    rewrite sub_Num in Hc. apply lt_Num in Hc.
    cbn. destruct (Req_dec_T b d); [lra | reflexivity]. }
  rewrite Hy. reflexivity.
Qed.

Lemma stable_sort_at_distance (d : R) (xs : list Place) :
  List.filter (at_distance d) (stable_sort Pipeline.by_distance xs) =
  List.filter (at_distance d) xs.
Proof.
  induction xs as [|x xs IH]; cbn [stable_sort]; [reflexivity|].
  rewrite sort_insert_at_distance. cbn [List.filter]. rewrite IH. reflexivity.
Qed.

Lemma filter_firstn_prefix {A} (f : A -> bool) (k : nat) (xs : list A) :
  exists n, List.filter f (firstn k xs) = firstn n (List.filter f xs).
Proof.
  revert xs. induction k as [|k IH]; intros xs; [exists 0%nat; reflexivity|].
  destruct xs as [|x xs]; [exists 0%nat; reflexivity|].
  cbn [firstn List.filter]. destruct (IH xs) as [n Hn].
  destruct (f x); [exists (S n) | exists n]; cbn [firstn]; rewrite Hn; reflexivity.
Qed.

Lemma filter_within_at_distance (radius : number) (d : R) (xs : list Place) :
  List.filter (at_distance d) (List.filter (Pipeline.within radius) xs) =
  if JS.le (Num d) radius then List.filter (at_distance d) xs else [].
Proof.
  induction xs as [|x xs IH]; cbn [List.filter].
  - destruct (JS.le (Num d) radius); reflexivity.
  - destruct (at_distance d x) eqn:Hx.
    + assert (Hw : Pipeline.within radius x = JS.le (Num d) radius).
      { unfold at_distance in Hx. apply strict_eq_true in Hx as (a & Hx & [= <-]).
        unfold Pipeline.within. rewrite Hx. reflexivity. }
      rewrite Hw. destruct (JS.le (Num d) radius) eqn:Hle.
      * cbn [List.filter]. rewrite Hx, IH. reflexivity.
      * exact IH.
    + destruct (Pipeline.within radius x); [cbn [List.filter]; rewrite Hx|]; exact IH.
Qed.



Lemma candidates_key (c1 c2 : option string) (places : list Place) :
  category_key c1 = category_key c2 ->
  Pipeline.candidates c1 places = Pipeline.candidates c2 places.
Proof.
  unfold category_key, Pipeline.candidates.
  destruct c1 as [a|], c2 as [b|];
    try destruct (negb (String.eqb a EmptyString));
    try destruct (negb (String.eqb b EmptyString));
    intros Hk; try discriminate Hk; try reflexivity.
  injection Hk as Hk. apply filter_ext. intros p.
  unfold Pipeline.matches_category. rewrite Hk. reflexivity.
Qed.

(** The category of a query counts up to the case of its letters, and an
    empty category counts as none: two queries that pass validation and
    differ in the category only, by case or by empty against absent, get the
    same places and the same total. *)
Theorem discoverPlaces_category_ignores_case (this : DiscoveryService)
    (query : DiscoveryQuery) (category : option string) (w : World)
    (es0 : list (loc * Place)) :
  is_array (heap w) (MockDataService.mockPlaces (mockDataService this)) es0 ->
  validates this query ->
  category_key category = category_key (DiscoveryQuery.category query) ->
  exists first w1 second w2 results,
    run (discoverPlaces this query) w = (Ok first, w1) /\
    run (discoverPlaces this
           {| DiscoveryQuery.latitude := DiscoveryQuery.latitude query;
              DiscoveryQuery.longitude := DiscoveryQuery.longitude query;
              DiscoveryQuery.radius := DiscoveryQuery.radius query;
              DiscoveryQuery.category := category;
              DiscoveryQuery.limit := DiscoveryQuery.limit query |}) w = (Ok second, w2) /\
    places_of (heap w1) (DiscoveryResponse.results first) = Some results /\
    places_of (heap w2) (DiscoveryResponse.results second) = Some results /\
    DiscoveryResponse.total first = DiscoveryResponse.total second.
Proof.
  intros H0 Hv Hk.
  set (other := {| DiscoveryQuery.latitude := DiscoveryQuery.latitude query;
                   DiscoveryQuery.longitude := DiscoveryQuery.longitude query;
                   DiscoveryQuery.radius := DiscoveryQuery.radius query;
                   DiscoveryQuery.category := category;
                   DiscoveryQuery.limit := DiscoveryQuery.limit query |}).
  assert (Hv' : validates this other).
  { apply validates_iff. apply validates_iff in Hv. exact Hv. }
  assert (Hd : Pipeline.discover this other (List.map snd es0) =
               Pipeline.discover this query (List.map snd es0)).
  { unfold Pipeline.discover, Pipeline.sorted_in_radius, Pipeline.limit, Pipeline.radius,
      Pipeline.center.
    cbn [other DiscoveryQuery.latitude DiscoveryQuery.longitude DiscoveryQuery.radius
         DiscoveryQuery.category DiscoveryQuery.limit].
    rewrite (candidates_key _ _ _ Hk). reflexivity. }
  destruct (discoverPlaces_returns this query w es0 H0 Hv) as (r1 & w1 & Hrun1 & Hp1 & Ht1 & _).
  destruct (discoverPlaces_returns this other w es0 H0 Hv') as (r2 & w2 & Hrun2 & Hp2 & Ht2 & _).
  rewrite Hd in Hp2, Ht2.
  exists r1, w1, r2, w2, (Pipeline.discover this query (List.map snd es0)).
  split; [exact Hrun1|]. split; [exact Hrun2|]. split; [exact Hp1|]. split; [exact Hp2|].
  rewrite Ht1, Ht2. reflexivity.
Qed.

Lemma discoverPlaces_category_ignores_case_witness :
  exists first w1 second w2 results,
    run (discoverPlaces default_service Examples.radius_zero)
        (initial_world Examples.steady_clock) = (Ok first, w1) /\
    run (discoverPlaces default_service
           {| DiscoveryQuery.latitude := DiscoveryQuery.latitude Examples.radius_zero;
              DiscoveryQuery.longitude := DiscoveryQuery.longitude Examples.radius_zero;
              DiscoveryQuery.radius := DiscoveryQuery.radius Examples.radius_zero;
              DiscoveryQuery.category := Some "Restaurant"%string;
              DiscoveryQuery.limit := DiscoveryQuery.limit Examples.radius_zero |})
        (initial_world Examples.steady_clock) = (Ok second, w2) /\
    places_of (heap w1) (DiscoveryResponse.results first) = Some results /\
    places_of (heap w2) (DiscoveryResponse.results second) = Some results /\
    DiscoveryResponse.total first = DiscoveryResponse.total second.
Proof.
  apply (discoverPlaces_category_ignores_case default_service Examples.radius_zero
           (Some "Restaurant"%string) (initial_world Examples.steady_clock) _
           initial_is_array validates_radius_zero).
  reflexivity.
Defined.

End DiscoveryOrder.

(** ** [DistanceUtil.sortByDistance] *)

Section SortByDistance.
Local Open Scope R_scope.
Context {T : Type}.

Lemma sort_insert_by_key_sorted (x : T * number) (ys : list (T * number)) :
  (exists d, snd x = Num d) -> Forall (fun y => exists d, snd y = Num d) ys ->
  Sorted nearer ys ->
  Sorted nearer (sort_insert (fun a b => JS.sub (snd a) (snd b)) x ys).
Proof.
  intros [dx Hx] Hm Hs. induction ys as [|y ys IH]; cbn [sort_insert].
  - repeat constructor.
  - inversion Hm as [|? ? [dy Hy] Hm']; subst. inversion Hs as [|? ? Hs' Hd]; subst.
    rewrite Hx, Hy, sub_Num. unfold JS.gt.
    destruct (JS.lt (Num 0) (Num (dx - dy))) eqn:Hc.
    + apply lt_Num in Hc.
      constructor; [apply IH; assumption|].
      assert (Hyx : nearer y x).
      { unfold nearer. rewrite Hx, Hy. apply le_Num. lra. }
      destruct ys as [|z zs]; cbn [sort_insert].
      * constructor. exact Hyx.
      * destruct (JS.gt (JS.sub (snd x) (snd z)) (Num 0)).
        -- constructor. inversion Hd; assumption.
        -- constructor. exact Hyx.
    + apply lt_Num_false in Hc.
      constructor; [exact Hs|]. constructor.
      unfold nearer. rewrite Hx, Hy. apply le_Num. lra.
Qed.

Lemma stable_sort_by_key_sorted (xs : list (T * number)) :
  Forall (fun y => exists d, snd y = Num d) xs ->
  Sorted nearer (stable_sort (fun a b => JS.sub (snd a) (snd b)) xs).
Proof.
  induction 1 as [|x xs Hx Hxs IH]; cbn [stable_sort]; [constructor|].
  apply sort_insert_by_key_sorted; [exact Hx | apply Forall_stable_sort; exact Hxs | exact IH].
Qed.

Lemma calculateDistance_numeric (a b : Coordinates) :
  numeric a -> numeric b -> exists d, DistanceUtil.calculateDistance a b = Num d.
Proof.
  unfold numeric. destruct a as [[|la1] [|lo1]], b as [[|la2] [|lo2]];
    cbn [lat lng isNaN orb]; try discriminate.
  intros _ _. eexists. apply calculateDistance_numbers.
Qed.


End SortByDistance.


(** ** [DiscoveryController] *)

Section ControllerFacts.
Import DiscoveryService.
Local Open Scope R_scope.

Lemma includes_Invalid (r : Rendering) (e : Error) (field : string) :
  InvalidArgument e field -> includes (text r (message e)) "Invalid" = true.
Proof.
  unfold InvalidArgument, message_starts.
  destruct (message e) as [|[s| | |] msg]; try contradiction.
  intros ->. reflexivity.
Qed.

Lemma query_eta (q : DiscoveryQuery) :
  {| DiscoveryQuery.latitude := DiscoveryQuery.latitude q;
     DiscoveryQuery.longitude := DiscoveryQuery.longitude q;
     DiscoveryQuery.radius := DiscoveryQuery.radius q;
     DiscoveryQuery.category := DiscoveryQuery.category q;
     DiscoveryQuery.limit := DiscoveryQuery.limit q |} = q.
Proof. destruct q. reflexivity. Qed.

(** Over a well-formed repository the handler of [GET /discover] either
    returns the response of [DiscoveryService.discoverPlaces], for a query
    that passes validation, or throws an [HttpException] with status 400
    that carries the message of the validation error; it never answers
    500, whatever the conversions to text are. *)
Theorem controller_discoverPlaces_200_or_400 (r : Rendering) (this : DiscoveryController)
    (queryDto : DiscoveryQuery) (w : World) (es0 : list (loc * Place)) :
  is_array (heap w)
    (MockDataService.mockPlaces
       (mockDataService (DiscoveryController.discoveryService this))) es0 ->
  (exists response w0 w',
     DiscoveryController.discoverPlaces r this queryDto w
       = (DiscoveryController.Return response, w') /\
     validates (DiscoveryController.discoveryService this) queryDto /\
     run (discoverPlaces (DiscoveryController.discoveryService this) queryDto)
         (add_event w (LoggerLog [Str "Discovery request: "; Json queryDto]))
       = (Ok response, w0) /\
     heap w' = heap w0) \/
  (exists e error w',
     DiscoveryController.discoverPlaces r this queryDto w
       = (DiscoveryController.ThrowHttp e, w') /\
     rejects (DiscoveryController.discoveryService this) queryDto error /\
     HttpException.status e = 400%nat /\
     HttpException.statusCode e = 400%nat /\
     HttpException.message e = message error /\
     heap w' = heap w).
Proof.
  intros H0. set (service := DiscoveryController.discoveryService this) in *.
  set (w1 := add_event w (LoggerLog [Str "Discovery request: "; Json queryDto])).
  assert (H1 : is_array (heap w1) (MockDataService.mockPlaces (mockDataService service)) es0)
    by exact H0.
  destruct (validateQuery_pure service queryDto) as [Hv | (error & field & Hr & Hi)].
  - left.
    destruct (discoverPlaces_validated service queryDto w1 es0 H1 Hv)
      as (resp & w2 & es & Hrun & Hes & _).
    exists resp, w2. eexists. split.
    { unfold DiscoveryController.discoverPlaces, Logger.log. fold service.
      rewrite (run_bind_ok _ _ _ _ _ (run_emit _ _)). fold w1.
      cbv zeta. rewrite query_eta.
      rewrite (run_bind_ok _ _ _ _ _ Hrun).
      rewrite (run_bind_ok _ _ _ _ _ (run_length _ _ _ Hes)).
      rewrite (run_bind_ok _ _ _ _ _ (run_emit _ _)).
      reflexivity. }
    split; [exact Hv|]. split; [exact Hrun | reflexivity].
  - right.
    pose proof (discoverPlaces_rejected service queryDto error w1 Hr) as Hrun.
    eexists _, error, _. split.
    { unfold DiscoveryController.discoverPlaces, Logger.log. fold service.
      rewrite (run_bind_ok _ _ _ _ _ (run_emit _ _)). fold w1.
      cbv zeta. rewrite query_eta.
      rewrite (run_bind_throw _ _ _ _ _ Hrun).
      rewrite (includes_Invalid r error field Hi). reflexivity. }
    split; [exact Hr|]. repeat split.
Qed.

Lemma controller_discoverPlaces_200_or_400_witness :
  (exists response w0 w',
     DiscoveryController.discoverPlaces ControllerExamples.rendering
       ControllerExamples.controller
       Examples.radius_zero (initial_world Examples.steady_clock)
       = (DiscoveryController.Return response, w') /\
     validates default_service Examples.radius_zero /\
     run (discoverPlaces default_service Examples.radius_zero)
         (add_event (initial_world Examples.steady_clock)
            (LoggerLog [Str "Discovery request: "; Json Examples.radius_zero]))
       = (Ok response, w0) /\
     heap w' = heap w0) \/
  (exists e error w',
     DiscoveryController.discoverPlaces ControllerExamples.rendering
       ControllerExamples.controller
       Examples.radius_zero (initial_world Examples.steady_clock)
       = (DiscoveryController.ThrowHttp e, w') /\
     rejects default_service Examples.radius_zero error /\
     HttpException.status e = 400%nat /\
     HttpException.statusCode e = 400%nat /\
     HttpException.message e = message error /\
     heap w' = heap (initial_world Examples.steady_clock)).
Proof.
  exact (controller_discoverPlaces_200_or_400 ControllerExamples.rendering
           ControllerExamples.controller
           Examples.radius_zero (initial_world Examples.steady_clock) _ initial_is_array).
Defined.

(** Coordinates that validation rejects are answered with status 500 by
    the handler of [GET /discover/nearest], which maps every error to 500,
    and with status 400 by the handler of [GET /discover] for the query
    that [findNearestPlace] builds from them. *)
Theorem controller_findNearest_invalid_is_500 (r : Rendering) (this : DiscoveryController)
    (latitude longitude : number) (category : option string) (w : World) :
  DistanceUtil.isValidLatitude latitude && DistanceUtil.isValidLongitude longitude = false ->
  (exists e w',
     DiscoveryController.findNearest this latitude longitude category w
       = (DiscoveryController.ThrowHttp e, w') /\
     HttpException.status e = 500%nat /\
     HttpException.message e = [Str "An error occurred while finding nearest place"]) /\
  (exists e w',
     DiscoveryController.discoverPlaces r this
       (nearest_query (DiscoveryController.discoveryService this)
          latitude longitude category) w
       = (DiscoveryController.ThrowHttp e, w') /\
     HttpException.status e = 400%nat).
Proof.
  intros Hbad. set (service := DiscoveryController.discoveryService this).
  set (query := nearest_query service latitude longitude category).
  destruct (validateQuery_pure service query) as [Hv | (error & field & Hr & Hi)].
  { apply validates_iff in Hv as (Hlat & Hlng & _).
    cbn [query nearest_query DiscoveryQuery.latitude DiscoveryQuery.longitude] in Hlat, Hlng.
    rewrite Hlat, Hlng in Hbad. discriminate Hbad. }
  split.
  - pose proof (discoverPlaces_rejected service query error w Hr) as Hrun.
    eexists _, _. split.
    { unfold DiscoveryController.findNearest, findNearestPlace. fold service. fold query.
      rewrite (run_bind_throw _ _ _ _ _ (run_bind_throw _ _ _ _ _ Hrun)).
      reflexivity. }
    split; reflexivity.
  - set (w1 := add_event w (LoggerLog [Str "Discovery request: "; Json query])).
    pose proof (discoverPlaces_rejected service query error w1 Hr) as Hrun.
    eexists _, _. split.
    { unfold DiscoveryController.discoverPlaces, Logger.log. fold service. fold query.
      rewrite (run_bind_ok _ _ _ _ _ (run_emit _ _)). fold w1.
      cbv zeta. rewrite query_eta.
      rewrite (run_bind_throw _ _ _ _ _ Hrun).
      rewrite (includes_Invalid r error field Hi). reflexivity. }
    reflexivity.
Qed.

Lemma controller_findNearest_invalid_is_500_witness :
  (exists e w',
     DiscoveryController.findNearest ControllerExamples.controller
       (Num 91) (Num 0) None (initial_world Examples.steady_clock)
       = (DiscoveryController.ThrowHttp e, w') /\
     HttpException.status e = 500%nat /\
     HttpException.message e = [Str "An error occurred while finding nearest place"]) /\
  (exists e w',
     DiscoveryController.discoverPlaces ControllerExamples.rendering
       ControllerExamples.controller
       (nearest_query default_service (Num 91) (Num 0) None)
       (initial_world Examples.steady_clock)
       = (DiscoveryController.ThrowHttp e, w') /\
     HttpException.status e = 400%nat).
Proof.
  apply (controller_findNearest_invalid_is_500 ControllerExamples.rendering
           ControllerExamples.controller
           (Num 91) (Num 0) None (initial_world Examples.steady_clock)).
  apply andb_false_intro1.
  unfold DistanceUtil.isValidLatitude. cbn [isNaN negb andb].
  rewrite (proj2 (le_Num_false 91 90)) by lra. apply andb_false_r.
Defined.

(** Over a well-formed repository the handlers of [GET /discover/categories]
    and [GET /discover/stats] return: the categories are those that some
    stored place has, without repetition, [total] is their number, and it
    is the [categoriesCount] that the statistics report. *)
Theorem controller_categories_total (this : DiscoveryController) (w : World)
    (es0 : list (loc * Place)) :
  is_array (heap w)
    (MockDataService.mockPlaces
       (mockDataService (DiscoveryController.discoveryService this))) es0 ->
  exists result w' stats w'',
    DiscoveryController.getCategories this w = (DiscoveryController.Return result, w') /\
    DiscoveryController.total result =
      List.length (DiscoveryController.categories result) /\
    List.NoDup (DiscoveryController.categories result) /\
    (forall c, In c (DiscoveryController.categories result) <->
               exists e, In e es0 /\ Place.category (snd e) = c) /\
    DiscoveryController.getStatistics this w = (DiscoveryController.Return stats, w'') /\
    MockDataService.categoriesCount (dataStats stats) = DiscoveryController.total result.
Proof.
  intros H0. set (service := DiscoveryController.discoveryService this) in *.
  pose proof (run_getAvailableCategories (mockDataService service) w es0 H0) as Hrun.
  destruct (run_getServiceStatistics service w es0 H0) as (w'' & Hstats & _).
  eexists _, _, _, w''. split.
  { unfold DiscoveryController.getCategories, getAvailableCategories. fold service.
    rewrite (run_bind_ok _ _ _ _ _ Hrun). reflexivity. }
  cbn [DiscoveryController.total DiscoveryController.categories].
  split; [reflexivity|]. split; [apply Set_values_NoDup|]. split; [|split].
  - intros c. rewrite Set_values_In, in_map_iff. cbn [In]. split.
    + intros [(e & He & Hin) _]. exists e. auto.
    + intros (e & Hin & He). split; [exists e; auto | tauto].
  - unfold DiscoveryController.getStatistics. fold service. rewrite Hstats. reflexivity.
  - reflexivity.
Qed.

Lemma controller_categories_total_witness :
  exists result w' stats w'',
    DiscoveryController.getCategories ControllerExamples.controller
      (initial_world Examples.steady_clock) = (DiscoveryController.Return result, w') /\
    DiscoveryController.total result =
      List.length (DiscoveryController.categories result) /\
    List.NoDup (DiscoveryController.categories result) /\
    (forall c, In c (DiscoveryController.categories result) <->
               exists e, In e (combine (seq 0 (List.length MockDataService.fixture))
                                       MockDataService.fixture) /\
                         Place.category (snd e) = c) /\
    DiscoveryController.getStatistics ControllerExamples.controller
      (initial_world Examples.steady_clock) = (DiscoveryController.Return stats, w'') /\
    MockDataService.categoriesCount (dataStats stats) = DiscoveryController.total result.
Proof.
  exact (controller_categories_total ControllerExamples.controller
           (initial_world Examples.steady_clock) _ initial_is_array).
Defined.

End ControllerFacts.
